(** * Microglia Quantification v9.2 (analyze_glia.py): model and properties

    The script is a Jython program driving Fiji/ImageJ.  Its own logic is the
    control flow around the host calls: the per-image loop of [main], the
    nucleus filter, the RI loop over the Results table, [get_cable_length]
    and the folder summary.  The host (ImageJ, the ROI Manager, the Results
    table, SNT, the file system) is modelled by an explicit state and by the
    values the host hands back to the script. *)

From Stdlib Require Import ZArith Lia Bool List Ascii String.
From Stdlib Require Import PrimFloat Uint63.
From stdpp Require Import gmap strings pretty list.

(** ** Python numbers

    The script computes with Python floats (binary64 on the JVM) and with
    small integer literals that are coerced to float.  The operations it uses
    are collected in a class; its instance [binary64] is the machine
    arithmetic, on which the model runs. *)

Class PyFloat (F : Type) := {
  of_int : Z -> F;
  f_pi : F;
  f_add : F -> F -> F;
  f_mul : F -> F -> F;
  f_div : F -> F -> F;
  f_sqrt : F -> F;
  f_eqb : F -> F -> bool;
  f_ltb : F -> F -> bool;
  f_leb : F -> F -> bool
}.

Definition float_of_int (z : Z) : float :=
  if (z <? 0)%Z then PrimFloat.opp (PrimFloat.of_uint63 (Uint63.of_Z (- z)))
  else PrimFloat.of_uint63 (Uint63.of_Z z).

(** [math.pi] is the double nearest to pi. *)
Definition math_pi : float := 0x1.921fb54442d18p+1%float.

#[export] Instance binary64 : PyFloat float := {|
  of_int := float_of_int;
  f_pi := math_pi;
  f_add := PrimFloat.add;
  f_mul := PrimFloat.mul;
  f_div := PrimFloat.div;
  f_sqrt := PrimFloat.sqrt;
  f_eqb := PrimFloat.eqb;
  f_ltb := PrimFloat.ltb;
  f_leb := PrimFloat.leb
|}.

(** ** Configuration constants (lines 63-70) *)

Definition DEBUG : bool := false.
Definition NUCLEUS_INTERSECTION_WITH_CELL : Z := 15.
Definition MICROGLIA_MIN_SIZE : Z := 20.
Definition MICROGLIA_MIN_SIZE_3D : Z := 10.
Definition MICROGLIA_MAX_SIZE : Z := 500.
Definition MEMBRANE_MODEL_FILE : string := "~\microglia\membrane.ilp".

(** ** Exceptions and results *)

Inductive assert_arg (F : Type) : Type :=
| NoArg
| FloatArg (x : F)
| StrArg (s : string).
Arguments NoArg {F}.
Arguments FloatArg {F} x.
Arguments StrArg {F} s.

Inductive exn (F : Type) : Type :=
| ZeroDivisionError
| ValueError
| IndexError
| StopIteration
| AssertionError (a : assert_arg F)
| SystemExit
| IllegalArgumentException.
Arguments ZeroDivisionError {F}.
Arguments ValueError {F}.
Arguments IndexError {F}.
Arguments StopIteration {F}.
Arguments AssertionError {F} a.
Arguments SystemExit {F}.
Arguments IllegalArgumentException {F}.

Inductive outcome (F A : Type) : Type :=
| Ok (a : A)
| Raise (e : exn F).
Arguments Ok {F A} a.
Arguments Raise {F A} e.

Definition obind {F A B} (m : outcome F A) (k : A -> outcome F B) : outcome F B :=
  match m with
  | Ok a => k a
  | Raise e => Raise e
  end.

Declare Scope py_scope.
Delimit Scope py_scope with py.
Notation "'let?' x ':=' m 'in' k" := (obind m (fun x => k))
  (at level 10, x pattern, m at level 100, k at level 200) : py_scope.
Open Scope py_scope.

Section Script.

Context {F : Type} {PF : PyFloat F}.

(** ** Python arithmetic that can raise *)

(** [x / y] on floats: [ZeroDivisionError] when the divisor compares equal to
    zero. *)
Definition py_truediv (x y : F) : outcome F F :=
  if f_eqb y (of_int 0) then Raise ZeroDivisionError else Ok (f_div x y).

(** [math.sqrt]: [ValueError] on a negative argument. *)
Definition math_sqrt (x : F) : outcome F F :=
  if f_ltb x (of_int 0) then Raise ValueError else Ok (f_sqrt x).

(** [assert c, a] *)
Definition py_assert (c : bool) (a : assert_arg F) : outcome F unit :=
  if c then Ok tt else Raise (AssertionError a).

(** ** SNT skeleton trees

    [Tree.list()] is the tree's list of paths; a path is a polyline of nodes
    with a calibrated length.  [TreeAnalyzer.getMetric("Cable length")] adds
    up the lengths of the paths of the one tree it was built from. *)

Record Path := { path_size : nat; path_length : F }.

Record Tree := { tree_list : list Path }.

Definition tree_nodes (t : Tree) : nat :=
  fold_right Nat.add 0%nat (map path_size (tree_list t)).

Definition cable_length_metric (t : Tree) : F :=
  fold_left f_add (map path_length (tree_list t)) (of_int 0).

(** What [ip.crop()] yields for a selection: the raw pixels of the bounding
    box and the trees [SkeletonConverter(cropped, True).getTrees()] finds. *)
Record Crop := { crop_pixels : list Z; crop_trees : list Tree }.

(** [cropped.getRawStatistics().max] of an 8-bit mask. *)
Definition raw_max (c : Crop) : Z := fold_right Z.max 0%Z (crop_pixels c).

(** ** Regions of interest

    A ROI is known to the script through what the host reports about it:
    its statistics on the "nuclei" window ([getAllStatistics]), its row of
    [Measure] on the "microglia_mask" window, and its crop of that mask. *)

Record Roi := {
  roi_name : string;
  nuclei_area : F;
  nuclei_area_fraction : F;
  mask_area : F;
  mask_perim : F;
  mask_area_fraction : F;
  roi_crop : Crop
}.

(** The processor of "microglia_mask": [setRoi(roi)] then [crop()]; a null
    ROI selects the whole image. *)
Record ImageProcessor := { ip_whole : Crop }.

Definition ip_crop (ip : ImageProcessor) (roi : option Roi) : Crop :=
  match roi with
  | Some r => roi_crop r
  | None => ip_whole ip
  end.

(** ** get_cable_length (lines 73-99) *)

Definition py_max (l : list nat) : nat := fold_right Nat.max 0%nat l.

Definition py_next {A} (l : list A) : outcome F A :=
  match l with
  | [] => Raise StopIteration
  | x :: _ => Ok x
  end.

Definition get_cable_length (roi : option Roi) (ip : ImageProcessor) : outcome F F :=
  let cropped := ip_crop ip roi in
  let cable_length := of_int 0 in
  if (0 <? raw_max cropped)%Z then
    let trees := crop_trees cropped in
    let? tree := match trees with [] => Raise IndexError | t :: _ => Ok t end in
    let? tree :=
      if (1 <? length trees)%nat then
        let max_tree_len := py_max (map (fun x => length (tree_list x)) trees) in
        py_next (filter (fun x => max_tree_len = length (tree_list x)) trees)
      else Ok tree in
    Ok (cable_length_metric tree)
  else Ok cable_length.

(** ** The Results table

    A table has named columns and rows; a row has a label and a value in
    some of the columns (an unset cell reads 0).  Reading or deleting a
    column that does not exist, and addressing a row that does not exist,
    is an [IllegalArgumentException]. *)

Record Row := { row_label : string; row_cells : gmap string F }.

Record ResultsTable := { rt_columns : list string; rt_rows : list Row }.

Definition rt_empty : ResultsTable := {| rt_columns := []; rt_rows := [] |}.

Definition rt_size (t : ResultsTable) : nat := length (rt_rows t).

Definition rt_headings (t : ResultsTable) : list string := "Label" :: rt_columns t.

Definition add_column (col : string) (cols : list string) : list string :=
  if bool_decide (col ∈ cols) then cols else cols ++ [col].

Definition rt_getValue (col : string) (row : nat) (t : ResultsTable) : outcome F F :=
  if bool_decide (col ∈ rt_columns t) then
    match rt_rows t !! row with
    | Some r => Ok (default (of_int 0) (row_cells r !! col))
    | None => Raise IllegalArgumentException
    end
  else Raise IllegalArgumentException.

Definition rt_getLabel (row : nat) (t : ResultsTable) : outcome F string :=
  match rt_rows t !! row with
  | Some r => Ok (row_label r)
  | None => Raise IllegalArgumentException
  end.

Definition set_cell (col : string) (v : F) (r : Row) : Row :=
  {| row_label := row_label r; row_cells := <[col := v]> (row_cells r) |}.

Definition rt_setValue (col : string) (row : nat) (v : F) (t : ResultsTable)
  : outcome F ResultsTable :=
  match rt_rows t !! row with
  | Some r =>
      Ok {| rt_columns := add_column col (rt_columns t);
            rt_rows := <[row := set_cell col v r]> (rt_rows t) |}
  | None => Raise IllegalArgumentException
  end.

Definition rt_deleteColumn (col : string) (t : ResultsTable) : outcome F ResultsTable :=
  if bool_decide (col ∈ rt_columns t) then
    Ok {| rt_columns := filter (fun c => c <> col) (rt_columns t);
          rt_rows := map (fun r => {| row_label := row_label r;
                                      row_cells := delete col (row_cells r) |})
                         (rt_rows t) |}
  else Raise IllegalArgumentException.

Definition rt_incrementCounter (t : ResultsTable) : ResultsTable :=
  {| rt_columns := rt_columns t;
     rt_rows := rt_rows t ++ [ {| row_label := EmptyString; row_cells := ∅ |} ] |}.

(** [addLabel] and [addValue] write into the last row. *)
Definition rt_addLabel (label : string) (t : ResultsTable) : outcome F ResultsTable :=
  match rt_size t with
  | O => Raise IllegalArgumentException
  | S n =>
      Ok {| rt_columns := rt_columns t;
            rt_rows := alter (fun r => {| row_label := label; row_cells := row_cells r |})
                             n (rt_rows t) |}
  end.

Definition rt_addValue (col : string) (v : F) (t : ResultsTable) : outcome F ResultsTable :=
  match rt_size t with
  | O => Raise IllegalArgumentException
  | S n =>
      Ok {| rt_columns := add_column col (rt_columns t);
            rt_rows := alter (set_cell col v) n (rt_rows t) |}
  end.

(** ** The ROI Manager

    The manager holds the ROIs in order and the set of selected positions.
    Its commands act on the selected entries, and on every entry when none
    is selected: this is how ImageJ defines [Delete] ("deletes the selected
    ROIs from the list or deletes all ROIs if none are selected") and
    [Measure]. *)

Record RoiManager := { rm_rois : list Roi; rm_selected : gset nat }.

Definition rm_reset : RoiManager := {| rm_rois := []; rm_selected := ∅ |}.

Definition rm_getCount (m : RoiManager) : nat := length (rm_rois m).

Definition rm_getRoi (i : nat) (m : RoiManager) : option Roi := rm_rois m !! i.

(** [setSelectedIndexes]: nothing on an empty manager; indexes past the end
    are clamped to the last entry. *)
Definition rm_setSelectedIndexes (indexes : list nat) (m : RoiManager) : RoiManager :=
  match rm_getCount m with
  | O => m
  | S last =>
      {| rm_rois := rm_rois m; rm_selected := list_to_set (map (Nat.min last) indexes) |}
  end.

(** The positions a command works on, in list order: the selected entries,
    or all entries when none is selected. *)
Definition rm_indexes (m : RoiManager) : list nat :=
  let all := seq 0 (rm_getCount m) in
  match filter (fun i => i ∈ rm_selected m) all with
  | [] => all
  | sel => sel
  end.

Fixpoint drop_indexes {A} (sel : list nat) (i : nat) (l : list A) : list A :=
  match l with
  | [] => []
  | x :: l' =>
      if bool_decide (i ∈ sel) then drop_indexes sel (S i) l'
      else x :: drop_indexes sel (S i) l'
  end.

(** [runCommand("Delete")] *)
Definition rm_delete (m : RoiManager) : RoiManager :=
  {| rm_rois := drop_indexes (rm_indexes m) 0 (rm_rois m); rm_selected := ∅ |}.

(** The row [Measure] appends for a ROI on the image titled [title], with
    the measurements chosen by [Set Measurements...]
    ("area area_fraction perimeter display"): the label is the image title
    and the ROI name. *)
Definition measure_row (title : string) (r : Roi) : Row :=
  {| row_label := title +:+ ":" +:+ roi_name r;
     row_cells := <["Area" := mask_area r]> (<["Perim." := mask_perim r]>
                    (<["%Area" := mask_area_fraction r]> ∅)) |}.

Definition measure_columns : list string := ["Area"; "Perim."; "%Area"].

(** [runCommand("Measure")]: one row per index worked on. *)
Definition rm_measure (title : string) (m : RoiManager) (t : ResultsTable) : ResultsTable :=
  let rows := omap (fun i => measure_row title <$> rm_getRoi i m) (rm_indexes m) in
  match rows with
  | [] => t
  | _ => {| rt_columns := foldl (fun cols c => add_column c cols) (rt_columns t) measure_columns;
            rt_rows := rt_rows t ++ rows |}
  end.

(** ** Paths *)

(** [s.endswith(suffix)] *)
Definition endswith (s suffix : string) : bool :=
  let n := String.length s in
  let k := String.length suffix in
  (k <=? n)%nat && String.eqb (String.substring (n - k) k s) suffix.

Definition is_image_file (file_name : string) : bool :=
  endswith file_name ".nd2" || endswith file_name ".tif".

(** [os.path.join(a, b)] for a relative [b]: a separator is inserted unless
    [a] is empty or already ends with one. *)
Definition os_path_join (a b : string) : string :=
  if String.eqb a EmptyString || endswith a "\" || endswith a "/" then a +:+ b
  else a +:+ "\" +:+ b.

(** [os.path.expanduser]: a leading tilde becomes the user's directory. *)
Definition os_path_expanduser (home path : string) : string :=
  match path with
  | String "~"%char rest => home +:+ rest
  | _ => path
  end.

(** ** The host: files, trace and the world outside the script *)

Inductive file : Type :=
| Dir
| Csv (t : ResultsTable)
| Blob.

(** What the script asks of the host, in order (most recent first in
    [trace]).  Console output ([print], [IJ.log]) is left out. *)
Inductive event : Type :=
| Run (command options : string)
| Call (method args : string)
| RoiManagerCommand (cmd : string)
| ShowMessage (msg : string)
| WaitForUser (title text : string)
| PathExists (path : string)
| IsFile (path : string)
| Mkdir (path : string)
| Opened (path : string)
| Saved (path : string).

Record Host := {
  rm : RoiManager;
  results : ResultsTable;
  disk : gmap string file;
  trace : list event
}.

(** One image as the host presents it: whether the two masks come up with
    an inverted LUT, the ROIs in the manager after [Analyze Particles...],
    what the operator does to the manager while the script waits, and the
    processor of the final mask. *)
Record Image := {
  img_nuclei_inverted : bool;
  img_antibody_inverted : bool;
  img_candidates : list Roi;
  img_operator : RoiManager -> RoiManager;
  img_mask : ImageProcessor
}.

Record World := {
  input_dir : string;
  os_listdir : list string;
  user_home : string;
  model_exists : bool;
  bioformats : string -> option Image
}.

Definition M (A : Type) : Type := Host -> outcome F A * Host.

Definition ret {A} (a : A) : M A := fun h => (Ok a, h).

Definition bind {A B} (m : M A) (k : A -> M B) : M B :=
  fun h =>
    match m h with
    | (Ok a, h') => k a h'
    | (Raise e, h') => (Raise e, h')
    end.

Definition raise {A} (e : exn F) : M A := fun h => (Raise e, h).

Definition lift {A} (o : outcome F A) : M A := fun h => (o, h).

Definition logged (e : event) (h : Host) : Host :=
  {| rm := rm h; results := results h; disk := disk h; trace := e :: trace h |}.

Definition with_rm (m : RoiManager) (h : Host) : Host :=
  {| rm := m; results := results h; disk := disk h; trace := trace h |}.

Definition with_results (t : ResultsTable) (h : Host) : Host :=
  {| rm := rm h; results := t; disk := disk h; trace := trace h |}.

Definition with_file (path : string) (f : file) (h : Host) : Host :=
  {| rm := rm h; results := results h; disk := <[path := f]> (disk h); trace := trace h |}.

Definition emit (e : event) : M unit := fun h => (Ok tt, logged e h).

Definition get_rm : M RoiManager := fun h => (Ok (rm h), h).

Definition set_rm (m : RoiManager) : M unit := fun h => (Ok tt, with_rm m h).

Definition get_results : M ResultsTable := fun h => (Ok (results h), h).

Definition set_results (t : ResultsTable) : M unit := fun h => (Ok tt, with_results t h).

Definition get_disk : M (gmap string file) := fun h => (Ok (disk h), h).

Definition write_file (path : string) (f : file) : M unit :=
  fun h => (Ok tt, with_file path f h).

Notation "x <- m ;; k" := (bind m (fun x => k))
  (at level 100, m at next level, k at level 200, right associativity) : py_scope.
Notation "m ;; k" := (bind m (fun _ => k))
  (at level 100, k at level 200, right associativity) : py_scope.

(** [for x in xs: body(x)] *)
Fixpoint for_each {X} (xs : list X) (body : X -> M unit) : M unit :=
  match xs with
  | [] => ret tt
  | x :: xs' => body x ;; for_each xs' body
  end.

(** [IJ.run(command, options)] *)
Definition run (command options : string) : M unit := emit (Run command options).

Definition call (method args : string) : M unit := emit (Call method args).

(** [IJ.save(path)] of the current image *)
Definition ij_save (path : string) : M unit :=
  emit (Saved path) ;; write_file path Blob.

Definition update_results (f : ResultsTable -> outcome F ResultsTable) : M unit :=
  t <- get_results ;;
  t' <- lift (f t) ;;
  set_results t'.

Variable w : World.

Definition analysis_dir : string := os_path_join (input_dir w) "analysis_v9".

Definition membrane_model_file : string :=
  os_path_expanduser (user_home w) MEMBRANE_MODEL_FILE.

Definition csv_file_of (file_name : string) : string :=
  os_path_join analysis_dir (file_name +:+ ".csv").

(** ** remove_inverted_lut (lines 102-108) *)

Definition remove_inverted_lut (isInvertedLut : bool) : M unit :=
  if isInvertedLut then run "Invert LUT" EmptyString else ret tt.

(** ** main, nuclei (lines 153-160) *)

Definition segment_nuclei (img : Image) : M unit :=
  run "Duplicate..." "duplicate channels=1" ;;
  call "setTitle" "nuclei" ;;
  run "Subtract Background..." "rolling=30" ;;
  call "setAutoThreshold" "Otsu dark" ;;
  run "Convert to Mask" EmptyString ;;
  remove_inverted_lut (img_nuclei_inverted img).

(** ** main, the membrane classifier (lines 162-186) *)

Definition classifier_options (bracketed : bool) (file_path : string) : string :=
  (if bracketed then "projectfilename=[" +:+ membrane_model_file +:+ "] "
   else "projectfilename=" +:+ membrane_model_file +:+ " ")
  +:+ " inputimage=[" +:+ file_path +:+ "] pixelclassificationtype=Segmentation".

Definition classify (file_name file_path : string) : M unit :=
  call "selectWindow" "MIP" ;;
  run "Duplicate..." "duplicate channels=2-2" ;;
  call "setTitle" "antibody_raw" ;;
  run "Enhance Contrast" "saturated=0.35" ;;
  emit (PathExists membrane_model_file) ;;
  lift (py_assert (model_exists w) (StrArg membrane_model_file)) ;;
  (if negb DEBUG then
     run "Run Pixel Classification Prediction" (classifier_options true file_path)
   else
     let segmented_file := os_path_join analysis_dir (file_name +:+ "_seg.tif") in
     emit (PathExists segmented_file) ;;
     d <- get_disk ;;
     if bool_decide (is_Some (d !! segmented_file)) then emit (Opened segmented_file)
     else
       run "Run Pixel Classification Prediction" (classifier_options false file_path) ;;
       ij_save segmented_file) ;;
  call "setTitle" "segmented_3D".

(** ** main, 3D objects and 2D particles (lines 187-209) *)

Definition extract_candidates (img : Image) : M unit :=
  call "setRawThreshold" "2, 255" ;;
  run "Convert to Mask" "method=Default background=Dark " ;;
  run "Duplicate..." "duplicate" ;;
  call "setTitle" "objects_3D" ;;
  run "Invert" "stack" ;;
  run "3D OC Options" " redirect_to=none" ;;
  run "3D Objects Counter on GPU (CLIJx, Experimental)"
      ("cl_device=[Quadro M4000] threshold=254 slice=4 " +:+
       " min.=" +:+ pretty MICROGLIA_MIN_SIZE_3D +:+ " max.=9999999 objects") ;;
  run "Enhance Contrast" "saturated=0.35" ;;
  run "Z Project..." "projection=[Max Intensity]" ;;
  run "Fire" EmptyString ;;
  call "setDoScaling" "False" ;;
  run "16-bit" EmptyString ;;
  call "setRawThreshold" "1, 65536" ;;
  run "Convert to Mask" EmptyString ;;
  call "setCalibration" "calibration" ;;
  run "Analyze Particles..."
      ("size=" +:+ pretty MICROGLIA_MIN_SIZE +:+ "-" +:+ pretty MICROGLIA_MAX_SIZE +:+
       " show=Masks exclude add slice") ;;
  set_rm {| rm_rois := img_candidates img; rm_selected := ∅ |} ;;
  call "setTitle" "microglia_antibody_mask" ;;
  remove_inverted_lut (img_antibody_inverted img).

(** ** main, the nucleus filter (lines 211-233) *)

Definition sum_nuclei_gray (roi : Roi) : F :=
  f_div (f_mul (nuclei_area roi) (nuclei_area_fraction roi)) (of_int 100).

(** [sum_nuclei_gray < NUCLEUS_INTERSECTION_WITH_CELL] *)
Definition below_threshold (roi : Roi) : bool :=
  f_ltb (sum_nuclei_gray roi) (of_int NUCLEUS_INTERSECTION_WITH_CELL).

(** The loop of lines 218-229: the indexes appended to [to_be_deleted]. *)
Fixpoint to_be_deleted_from (i : nat) (rois : list Roi) : list nat :=
  match rois with
  | [] => []
  | roi :: rest =>
      if below_threshold roi
      then i :: to_be_deleted_from (S i) rest
      else to_be_deleted_from (S i) rest
  end.

Definition nucleus_filter : M unit :=
  call "selectWindow" "nuclei" ;;
  emit (RoiManagerCommand "Show All with labels") ;;
  m <- get_rm ;;
  if (0 <? rm_getCount m)%nat then
    let to_be_deleted := to_be_deleted_from 0 (rm_rois m) in
    set_rm (rm_setSelectedIndexes to_be_deleted m) ;;
    emit (RoiManagerCommand "Delete") ;;
    m <- get_rm ;;
    set_rm (rm_delete m)
  else ret tt.

(** The manager the filter leaves when it starts from [m]. *)
Definition nucleus_filtered (m : RoiManager) : RoiManager :=
  if (0 <? rm_getCount m)%nat
  then rm_delete (rm_setSelectedIndexes (to_be_deleted_from 0 (rm_rois m)) m)
  else m.

(** ** main, the operator's checkpoint (lines 235-237)

    The dialog blocks while the operator edits the manager: ROIs may be
    added, removed or reshaped, and entries may be left selected. *)

Definition user_interaction (img : Image) : M unit :=
  emit (WaitForUser "Microglia Segmentation"
          "You can now edit the automatically detected segments and click OK.") ;;
  m <- get_rm ;;
  set_rm (img_operator img m).

(** The ROIs of an image that reach the measurements. *)
Definition surviving (img : Image) : RoiManager :=
  img_operator img
    (nucleus_filtered {| rm_rois := img_candidates img; rm_selected := ∅ |}).

(** ** main, the mask of the surviving ROIs (lines 239-250) *)

Definition make_mask : M unit :=
  call "selectWindow" "microglia_antibody_mask" ;;
  m <- get_rm ;;
  (if (0 <? rm_getCount m)%nat then
     run "Select All" EmptyString ;;
     run "Clear" "slice" ;;
     run "Binary (0-255) mask(s) from Roi(s)"
         "show_mask(s) save_in=[] suffix=[] rm=[RoiManager[visible=true]]"
   else run "Duplicate..." "duplicate ignore ") ;;
  call "setTitle" "microglia_mask".

(** ** main, the measurements (lines 251-284) *)

(** [perimeter / area / (2 * sqrt((PI / area)))] *)
Definition ri_formula (perimeter area : F) : outcome F F :=
  let? q := py_truediv perimeter area in
  let? r := py_truediv f_pi area in
  let? s := math_sqrt r in
  py_truediv q (f_mul (of_int 2) s).

(** The body of the loop over the rows, lines 262-266: the RI of a row. *)
Definition ri_step (row : nat) : M unit :=
  t <- get_results ;;
  perimeter <- lift (rt_getValue "Perim." row t) ;;
  area <- lift (rt_getValue "Area" row t) ;;
  ri <- lift (ri_formula perimeter area) ;;
  lift (py_assert (f_leb (of_int 1) ri) (FloatArg ri)) ;;
  update_results (rt_setValue "RI" row ri).

(** The body of the loop over the rows, lines 267-271: the cable length. *)
Definition cable_step (ip : ImageProcessor) (row : nat) : M unit :=
  t <- get_results ;;
  m <- get_rm ;;
  lift (py_assert (rt_size t =? rm_getCount m)%nat NoArg) ;;
  let roi := rm_getRoi row m in
  cable_length <- lift (get_cable_length roi ip) ;;
  update_results (rt_setValue "Cable_Length" row cable_length).

Definition measure_ri (ip : ImageProcessor) (row : nat) : M unit :=
  ri_step row ;; cable_step ip row.

Definition save_csv (file_name : string) : M unit :=
  let csv_file := csv_file_of file_name in
  t <- get_results ;;
  emit (Saved csv_file) ;;
  write_file csv_file (Csv t).

Definition save_excel (file_name : string) : M unit :=
  let excel_file := os_path_join analysis_dir (file_name +:+ ".xlsx") in
  run "Summarize" EmptyString ;;
  run "Read and Write Excel" ("file=[" +:+ excel_file +:+ "] dataset_label=[]") ;;
  write_file excel_file Blob.

(** Lines 253-255: [Measure] on the window titled "microglia_mask". *)
Definition run_measure : M unit :=
  call "selectWindow" "microglia_mask" ;;
  run "Clear Results" EmptyString ;;
  set_results rt_empty ;;
  emit (RoiManagerCommand "Measure") ;;
  m <- get_rm ;;
  set_results (rm_measure "microglia_mask" m rt_empty).

(** Lines 257-271: the loop over the rows of the Results table. *)
Definition add_ri_and_cable_length (img : Image) : M unit :=
  t <- get_results ;;
  for_each (seq 0 (rt_size t)) (measure_ri (img_mask img)).

(** Lines 272-284 *)
Definition export_results (file_name : string) : M unit :=
  call "show" "Results" ;;
  update_results (rt_deleteColumn "%Area") ;;
  save_csv file_name ;;
  save_excel file_name.

Definition measure (img : Image) (file_name : string) : M unit :=
  m <- get_rm ;;
  if (0 <? rm_getCount m)%nat then
    run_measure ;;
    add_ri_and_cable_length img ;;
    export_results file_name
  else ret tt.

(** ** main, the overview images (lines 286-303) *)

Definition save_images (file_name : string) : M unit :=
  call "selectWindow" "MIP" ;;
  run "Make Composite" EmptyString ;;
  call "setC" "1" ;;
  run "Enhance Contrast" "saturated=0.35" ;;
  call "setC" "2" ;;
  run "Enhance Contrast" "saturated=0.35" ;;
  run "Show Overlay" EmptyString ;;
  ij_save (analysis_dir +:+ "/" +:+ file_name +:+ ".tif") ;;
  call "selectWindow" "microglia_mask" ;;
  run "Merge Channels..." "c1=microglia_mask c3=nuclei create keep" ;;
  ij_save (analysis_dir +:+ "/" +:+ file_name +:+ "_masks.png") ;;
  run "Close All" EmptyString.

(** ** main, one turn of the loop over the images (lines 131-304) *)

Definition importer_options (file_path : string) : string :=
  "open='" +:+ file_path +:+
  "' autoscale color_mode=Default rois_import=[ROI manager] view=Hyperstack stack_order=XYCZT".

(** No window is open when the importer runs: line 113 closes all before
    the loop and line 303 at the end of every turn. So the test
    [WindowManager.getImageCount() == 0] of line 143 holds exactly when the
    importer opened nothing, which is [bioformats w file_path = None]. *)
Definition process_image (file_name : string) : M unit :=
  let file_path := os_path_join (input_dir w) file_name in
  if negb (is_image_file file_name) then ret tt
  else
    set_rm rm_reset ;;
    run "Bio-Formats Importer" (importer_options file_path) ;;
    match bioformats w file_path with
    | None =>
        emit (ShowMessage ("Could not open image " +:+ file_path)) ;;
        raise SystemExit
    | Some img =>
        run "Z Project..." "projection=[Max Intensity]" ;;
        call "setTitle" "MIP" ;;
        segment_nuclei img ;;
        classify file_name file_path ;;
        extract_candidates img ;;
        nucleus_filter ;;
        user_interaction img ;;
        make_mask ;;
        measure img file_name ;;
        save_images file_name
    end.

(** ** main, the folder summary (lines 306-329) *)

(** The body of the loop of lines 320-325; the columns copied are
    [headings[1:]]. *)
Definition copy_row (csv_table : ResultsTable) (row : nat) : M unit :=
  t <- get_results ;;
  set_results (rt_incrementCounter t) ;;
  label <- lift (rt_getLabel row csv_table) ;;
  update_results (rt_addLabel label) ;;
  for_each (drop 1 (rt_headings csv_table))
    (fun heading =>
       val <- lift (rt_getValue heading row csv_table) ;;
       update_results (rt_addValue heading val)).

Definition summarize_file (file_name : string) : M unit :=
  if negb (is_image_file file_name) then ret tt
  else
    let csv_file := csv_file_of file_name in
    emit (IsFile csv_file) ;;
    d <- get_disk ;;
    match d !! csv_file with
    | Some (Csv csv_table) =>
        emit (Opened csv_file) ;;
        for_each (seq 0 (rt_size csv_table)) (copy_row csv_table) ;;
        call "selectWindow" (file_name +:+ ".csv") ;;
        run "Close" EmptyString
    | Some Blob =>
        emit (Opened csv_file) ;;
        raise IllegalArgumentException
    | Some Dir | None => ret tt
    end.

Definition folder_summary : M unit :=
  run "Clear Results" EmptyString ;;
  set_results rt_empty ;;
  for_each (os_listdir w) summarize_file ;;
  call "show" "Results" ;;
  run "Summarize" EmptyString.

(** ** main (lines 111-345) *)

(** Lines 112-129: the reset and the output folder. *)
Definition prepare : M unit :=
  run "Close All" EmptyString ;;
  run "Set Measurements..." "area area_fraction perimeter display redirect=None decimal=3" ;;
  set_rm rm_reset ;;
  emit (PathExists analysis_dir) ;;
  d <- get_disk ;;
  if bool_decide (is_Some (d !! analysis_dir)) then ret tt
  else emit (Mkdir analysis_dir) ;; write_file analysis_dir Dir.

(** The loop of line 131 over a listing. *)
Definition process_images (file_list : list string) : M unit :=
  for_each file_list process_image.

Definition main : M unit :=
  prepare ;;
  process_images (os_listdir w) ;;
  folder_summary ;;
  emit (ShowMessage "Finshed processing folder.").

(** The host before the script starts: nothing in the manager or the
    Results table, and the folder as it is on disk. *)
Definition initial_host (d : gmap string file) : Host :=
  {| rm := rm_reset; results := rt_empty; disk := d; trace := [] |}.

End Script.

Arguments Path : clear implicits.
Arguments Tree : clear implicits.
Arguments Crop : clear implicits.
Arguments Roi : clear implicits.
Arguments ImageProcessor : clear implicits.
Arguments Row : clear implicits.
Arguments ResultsTable : clear implicits.
Arguments RoiManager : clear implicits.
Arguments file : clear implicits.
Arguments Host : clear implicits.
Arguments Image : clear implicits.
Arguments World : clear implicits.
Arguments M : clear implicits.

(** ** Notions used to state the properties *)

Section Notions.

Context {F : Type}.

(** [t] is the first tree of [trees] with the most paths. *)
Definition first_largest (trees : list (Tree F)) (t : Tree F) : Prop :=
  exists pre post,
    trees = pre ++ t :: post /\
    Forall (fun u => (length (tree_list u) < length (tree_list t))%nat) pre /\
    Forall (fun u => (length (tree_list u) <= length (tree_list t))%nat) post.

(** The host after lines 253-255 (see [run_measure]). *)
Definition measured (h : Host F) : Host F :=
  with_results (rm_measure "microglia_mask" (rm h) rt_empty)
    (logged (RoiManagerCommand "Measure")
       (with_results rt_empty
          (logged (Run "Clear Results" EmptyString)
             (logged (Call "selectWindow" "microglia_mask") h)))).

(** The host after lines 272-284 when the table left by the loop, less its
    "%Area" column, is [t] (see [export_results]). *)
Definition exported (w : World F) (file_name : string) (t : ResultsTable F)
  (h : Host F) : Host F :=
  with_file (os_path_join (analysis_dir w) (file_name +:+ ".xlsx")) Blob
    (logged (Run "Read and Write Excel"
               ("file=[" +:+ os_path_join (analysis_dir w) (file_name +:+ ".xlsx")
                +:+ "] dataset_label=[]"))
       (logged (Run "Summarize" EmptyString)
          (with_file (csv_file_of w file_name) (Csv t)
             (logged (Saved (csv_file_of w file_name))
                (with_results t (logged (Call "show" "Results") h)))))).

Fixpoint last_char (s : string) : option ascii :=
  match s with
  | EmptyString => None
  | String c EmptyString => Some c
  | String _ s' => last_char s'
  end.

(** [os.path.join(a, b)] is [b] behind a prefix that [a] alone decides. *)
Definition join_prefix (a : string) : string :=
  if String.eqb a EmptyString || endswith a "\" || endswith a "/" then a else a +:+ "\".

End Notions.

Section Frames.

Context {F : Type} {PF : PyFloat F}.

(** What one turn of the loop over the rows keeps: the manager, the disk,
    the trace, the number of rows, their labels and the measured columns. *)
Definition same_measurements (t t' : ResultsTable F) : Prop :=
  rt_size t' = rt_size t /\
  map row_label (rt_rows t') = map row_label (rt_rows t) /\
  forall c i, c <> "RI" -> c <> "Cable_Length" -> rt_getValue c i t' = rt_getValue c i t.

Definition same_but_results (h h' : Host F) : Prop :=
  rm h' = rm h /\ disk h' = disk h /\ trace h' = trace h /\
  same_measurements (results h) (results h').

(** A relation between the host before and after a piece of the script,
    whatever its outcome. *)
Definition keeps {A} (I : Host F -> Host F -> Prop) (m : M F A) : Prop :=
  forall h r h', m h = (r, h') -> I h h'.

(** The file at [path] is left as it was. *)
Definition disk_at (path : string) (h h' : Host F) : Prop :=
  disk h' !! path = disk h !! path.

(** The trace grew by events that all satisfy [P]. *)
Definition trace_adds (P : event -> Prop) (h h' : Host F) : Prop :=
  exists evs, trace h' = evs ++ trace h /\ Forall P evs.

(** What the frame rules ask of such a relation: it is a preorder, it does
    not look at the manager or the Results table, it admits every event but
    a path test, and it admits writing the files in [writable]. *)
Class Frame (I : Host F -> Host F -> Prop) (writable : string -> Prop) : Prop := {
  frame_refl : forall h, I h h;
  frame_trans : forall a b c, I a b -> I b c -> I a c;
  frame_logged : forall e h, (forall p, e <> PathExists p) -> I h (logged e h);
  frame_with_rm : forall m h, I h (with_rm m h);
  frame_with_results : forall t h, I h (with_results t h);
  frame_with_file : forall q f h, writable q -> I h (with_file q f h)
}.

(** Events other than a path test. *)
Definition no_path_test (e : event) : Prop := forall p, e <> PathExists p.

End Frames.

#[global] Instance event_eq_dec : EqDecision event.
Proof. solve_decision. Defined.

(** How often a trace tests the classifier model's path. *)
Definition model_checks {F} (w : World F) (tr : list event) : nat :=
  length (filter (fun e => e = PathExists (membrane_model_file w)) tr).

(** No call of the pixel classifier. *)
Definition no_classifier_run (e : event) : Prop :=
  forall options, e <> Run "Run Pixel Classification Prediction" options.

(** A piece of the script that, when it completes, has tested the model's
    path [n] times. *)
Definition counts_checks {F A} (w : World F) (n : nat) (m : M F A) : Prop :=
  forall h a h', m h = (Ok a, h') ->
    model_checks w (trace h') = (model_checks w (trace h) + n)%nat.

(** What the script asks of the host for an image that opened, up to the
    test of the model's path (lines 140-169), most recent first. *)
Definition nuclei_events {F} (img : Image F) : list event :=
  (if img_nuclei_inverted img then [Run "Invert LUT" EmptyString] else []) ++
  [Run "Convert to Mask" EmptyString; Call "setAutoThreshold" "Otsu dark";
   Run "Subtract Background..." "rolling=30"; Call "setTitle" "nuclei";
   Run "Duplicate..." "duplicate channels=1"].

Definition opening_events {F} (w : World F) (img : Image F) (file_name : string)
  : list event :=
  [Run "Enhance Contrast" "saturated=0.35"; Call "setTitle" "antibody_raw";
   Run "Duplicate..." "duplicate channels=2-2"; Call "selectWindow" "MIP"] ++
  nuclei_events img ++
  [Call "setTitle" "MIP"; Run "Z Project..." "projection=[Max Intensity]";
   Run "Bio-Formats Importer" (importer_options (os_path_join (input_dir w) file_name))].

(** ** The folder summary, as a function of the CSV files on disk *)

Section SummaryRows.

Context {F : Type} {PF : PyFloat F}.

(** A row as lines 321-325 copy it: its label, and its value in each column
    of its table. *)
Definition copied_row (cols : list string) (r : Row F) : Row F :=
  {| row_label := row_label r;
     row_cells := foldl (fun cells c => <[c := default (of_int 0) (row_cells r !! c)]> cells)
                        ∅ cols |}.

Definition csv_rows (t : ResultsTable F) : list (Row F) :=
  map (copied_row (rt_columns t)) (rt_rows t).

Definition summary_rows (w : World F) (d : gmap string (file F)) (files : list string)
  : list (Row F) :=
  flat_map (fun f =>
              if is_image_file f then
                match d !! csv_file_of w f with
                | Some (Csv t) => csv_rows t
                | _ => []
                end
              else []) files.

(** The ROIs that [Measure] works on. *)
Definition measured_rois (m : RoiManager F) : list (Roi F) :=
  omap (fun i => rm_getRoi i m) (rm_indexes m).

End SummaryRows.

(** ** Notions used to state the further properties *)

Section Outputs.

Context {F : Type} {PF : PyFloat F}.

(** The same folder with another listing. *)
Definition with_listing (w : World F) (files : list string) : World F :=
  {| input_dir := input_dir w; os_listdir := files; user_home := user_home w;
     model_exists := model_exists w; bioformats := bioformats w |}.

(** The names of a listing that pass the test of lines 134 and 310. *)
Definition image_files (files : list string) : list string :=
  filter (fun f => is_image_file f = true) files.

(** The files one turn of the loop can write for [file_name] (lines 276,
    281, 295 and 301). *)
Definition xlsx_file_of (w : World F) (file_name : string) : string :=
  os_path_join (analysis_dir w) (file_name +:+ ".xlsx").

Definition tif_file_of (w : World F) (file_name : string) : string :=
  analysis_dir w +:+ "/" +:+ file_name +:+ ".tif".

Definition png_file_of (w : World F) (file_name : string) : string :=
  analysis_dir w +:+ "/" +:+ file_name +:+ "_masks.png".

Definition outputs (w : World F) (file_name : string) : list string :=
  [csv_file_of w file_name; xlsx_file_of w file_name;
   tif_file_of w file_name; png_file_of w file_name].

(** The host after lines 286-303 (see [save_images]). *)
Definition images_saved (w : World F) (file_name : string) (h : Host F) : Host F :=
  logged (Run "Close All" EmptyString)
    (with_file (png_file_of w file_name) Blob
       (logged (Saved (png_file_of w file_name))
          (logged (Run "Merge Channels..." "c1=microglia_mask c3=nuclei create keep")
             (logged (Call "selectWindow" "microglia_mask")
                (with_file (tif_file_of w file_name) Blob
                   (logged (Saved (tif_file_of w file_name))
                      (logged (Run "Show Overlay" EmptyString)
                         (logged (Run "Enhance Contrast" "saturated=0.35")
                            (logged (Call "setC" "2")
                               (logged (Run "Enhance Contrast" "saturated=0.35")
                                  (logged (Call "setC" "1")
                                     (logged (Run "Make Composite" EmptyString)
                                        (logged (Call "selectWindow" "MIP") h))))))))))))).

(** The columns of the Results table while the loop over the rows runs. *)
Definition loop_columns : list string := ["Area"; "Perim."; "%Area"; "RI"; "Cable_Length"].

(** The labels [Measure] gives the ROIs of a manager on "microglia_mask". *)
Definition roi_labels (m : RoiManager F) : list string :=
  map (fun roi => "microglia_mask:" +:+ roi_name roi) (rm_rois m).

(** The labels of the CSV of an image file on disk. *)
Definition csv_labels (w : World F) (d : gmap string (file F)) (file_name : string)
  : list string :=
  match d !! csv_file_of w file_name with
  | Some (Csv t) => map row_label (rt_rows t)
  | _ => []
  end.

(** The labels of the rows an image file contributes to the summary of a run
    that started with the disk [d]: those of its surviving ROIs, and when it
    has none, those of the CSV of its name that was there before. *)
Definition labels_of (w : World F) (d : gmap string (file F)) (file_name : string)
  : list string :=
  if is_image_file file_name then
    match bioformats w (os_path_join (input_dir w) file_name) with
    | Some img =>
        match rm_rois (surviving img) with
        | [] => csv_labels w d file_name
        | _ => roi_labels (surviving img)
        end
    | None => []
    end
  else [].

End Outputs.

(** The operator's dialog of lines 236-237. *)
Definition is_prompt (e : event) : bool :=
  match e with
  | WaitForUser _ _ => true
  | _ => false
  end.

(** How often a trace shows the dialog. *)
Definition prompts (tr : list event) : nat := length (List.filter is_prompt tr).

(** The options of the runs of [command] in a trace, most recent first. *)
Definition runs_of (command : string) (tr : list event) : list string :=
  omap (fun e => match e with
                 | Run c options => if String.eqb c command then Some options else None
                 | _ => None
                 end) tr.

(** The options lines 194-195 and 206-207 hand to the 3D objects counter and
    to [Analyze Particles...], with the constants of lines 67-69 written
    out. *)
Definition size_options (command : string) : string :=
  if String.eqb command "Analyze Particles..."
  then "size=20-500 show=Masks exclude add slice"
  else "cl_device=[Quadro M4000] threshold=254 slice=4  min.=10 max.=9999999 objects".

(** ** Sample inputs *)

(** Two skeleton trees: one long unbranched path of 5 nodes, and a fork of
    two short paths of 2 nodes each. *)
Definition tree_long : Tree float :=
  {| tree_list := [ {| path_size := 5; path_length := 10%float |} ] |}.

Definition tree_fork : Tree float :=
  {| tree_list := [ {| path_size := 2; path_length := 1.5%float |};
                    {| path_size := 2; path_length := 1.5%float |} ] |}.

Definition crop_two_trees : Crop float :=
  {| crop_pixels := [0; 255; 255; 0]%Z; crop_trees := [tree_long; tree_fork] |}.

Definition crop_one_tree : Crop float :=
  {| crop_pixels := [255; 255]%Z; crop_trees := [tree_long] |}.

(** A cell of 100 um^2 with a perimeter of 50 um, half covered by nucleus. *)
Definition roi_with_nucleus : Roi float :=
  {| roi_name := "0010-0020";
     nuclei_area := 100%float; nuclei_area_fraction := 50%float;
     mask_area := 100%float; mask_perim := 50%float; mask_area_fraction := 100%float;
     roi_crop := crop_one_tree |}.

(** The same cell with 5 um^2 of nucleus. *)
Definition roi_without_nucleus : Roi float :=
  {| roi_name := "0030-0040";
     nuclei_area := 100%float; nuclei_area_fraction := 5%float;
     mask_area := 100%float; mask_perim := 50%float; mask_area_fraction := 100%float;
     roi_crop := crop_one_tree |}.

(** A selection without area, such as a line drawn by the operator. *)
Definition roi_zero_area : Roi float :=
  {| roi_name := "0050-0060";
     nuclei_area := 100%float; nuclei_area_fraction := 50%float;
     mask_area := 0%float; mask_perim := 50%float; mask_area_fraction := 0%float;
     roi_crop := crop_one_tree |}.

Definition roi_two_trees : Roi float :=
  {| roi_name := "0070-0080";
     nuclei_area := 100%float; nuclei_area_fraction := 50%float;
     mask_area := 100%float; mask_perim := 50%float; mask_area_fraction := 100%float;
     roi_crop := crop_two_trees |}.

Definition image_of (candidates : list (Roi float)) : Image float :=
  {| img_nuclei_inverted := false; img_antibody_inverted := false;
     img_candidates := candidates; img_operator := fun m => m;
     img_mask := {| ip_whole := crop_one_tree |} |}.

(** One cell with a nucleus and one without. *)
Definition image_one_cell : Image float := image_of [roi_with_nucleus; roi_without_nucleus].

(** Only cells with a nucleus. *)
Definition image_all_nucleated : Image float := image_of [roi_with_nucleus].

Definition image_zero_area : Image float := image_of [roi_zero_area; roi_without_nucleus].


Definition folder_of (files : list string) (open : string -> option (Image float))
  (model : bool) : World float :=
  {| input_dir := "C:\data\"; os_listdir := files; user_home := "C:\Users\lab";
     model_exists := model; bioformats := open |}.

(** Two images with one cell each, at the same place. *)
Definition folder_two_images : World float :=
  folder_of ["a.tif"; "notes.txt"; "b.nd2"]
    (fun path => if String.eqb path "C:\data\a.tif" || String.eqb path "C:\data\b.nd2"
                 then Some image_one_cell else None)
    true.

(** The second of three image files does not open. *)
Definition folder_bad_file : World float :=
  folder_of ["a.tif"; "bad.nd2"; "c.tif"]
    (fun path => if String.eqb path "C:\data\bad.nd2" then None else Some image_one_cell)
    true.

Definition folder_no_model : World float :=
  folder_of ["a.tif"] (fun _ => Some image_one_cell) false.

Definition folder_zero_area : World float :=
  folder_of ["a.tif"] (fun _ => Some image_zero_area) true.

Definition folder_all_nucleated : World float :=
  folder_of ["a.tif"] (fun _ => Some image_all_nucleated) true.

(** A host whose manager holds the given ROIs, none selected. *)
Definition host_with (rois : list (Roi float)) : Host float :=
  {| rm := {| rm_rois := rois; rm_selected := ∅ |}; results := rt_empty; disk := ∅;
     trace := [] |}.

(** Per-image tables of 3 and 2 rows on disk. *)
Definition table_of (labels : list string) : ResultsTable float :=
  {| rt_columns := ["Area"];
     rt_rows := map (fun l => {| row_label := l; row_cells := {[ "Area" := 100%float ]} |})
                    labels |}.

Definition host_with_tables : Host float :=
  {| rm := rm_reset; results := rt_empty;
     disk := {[ csv_file_of folder_two_images "a.tif" :=
                  Csv (table_of ["microglia_mask:1"; "microglia_mask:2"; "microglia_mask:3"]);
                csv_file_of folder_two_images "b.nd2" :=
                  Csv (table_of ["microglia_mask:1"; "microglia_mask:2"]) ]};
     trace := [] |}.


(** A crop with foreground in which the skeleton converter finds no tree. *)
Definition crop_no_tree : Crop float :=
  {| crop_pixels := [0; 255]%Z; crop_trees := [] |}.

Definition roi_no_tree : Roi float :=
  {| roi_name := "0030-0040";
     nuclei_area := 100%float; nuclei_area_fraction := 50%float;
     mask_area := 100%float; mask_perim := 50%float; mask_area_fraction := 100%float;
     roi_crop := crop_no_tree |}.

(** A folder in which analysis_v9 holds, from an earlier run, the CSV of an
    image that has no surviving ROI now. *)
Definition disk_earlier_run : gmap string (file float) :=
  {[ csv_file_of folder_all_nucleated "a.tif" := Csv (table_of ["microglia_mask:0001-0002"]) ]}.




(** An image whose only candidate has too little nucleus. *)
Definition image_no_cell : Image float := image_of [roi_without_nucleus].

Definition folder_no_cell : World float :=
  folder_of ["a.tif"] (fun _ => Some image_no_cell) true.

(** analysis_v9 with the CSV an earlier run left for that image. *)
Definition disk_stale_csv : gmap string (file float) :=
  {[ analysis_dir folder_no_cell := Dir;
     csv_file_of folder_no_cell "a.tif" := Csv (table_of ["microglia_mask:0030-0040"]) ]}.

(** * Properties *)

Section Properties.

Context {F : Type} {PF : PyFloat F}.

(** ** get_cable_length *)

Lemma py_max_upper (l : list nat) : Forall (fun n => (n <= py_max l)%nat) l.
Proof.
  induction l as [|n l IH]; simpl; constructor.
  - lia.
  - eapply Forall_impl; [exact IH|]. intros k Hk. simpl in Hk. lia.
Qed.

Lemma py_max_attained (l : list nat) : l <> [] -> Exists (fun n => n = py_max l) l.
Proof.
  induction l as [|n l IH]; [congruence|]. intros _. simpl.
  destruct l as [|k l'].
  - left. simpl. lia.
  - destruct (Nat.max_spec n (py_max (k :: l'))) as [[_ Hm]|[_ Hm]].
    + right. rewrite Hm. apply IH. congruence.
    + left. simpl in *. lia.
Qed.

Lemma first_hit_split {A} (f : A -> nat) (m : nat) (l : list A) :
  Forall (fun x => (f x <= m)%nat) l ->
  Exists (fun x => f x = m) l ->
  exists pre t post,
    l = pre ++ t :: post /\ f t = m /\
    Forall (fun u => (f u < m)%nat) pre /\
    Forall (fun u => (f u <= m)%nat) post /\
    filter (fun x => m = f x) l = t :: filter (fun x => m = f x) post.
Proof.
  induction l as [|x l IH]; intros Hle Hex.
  - inversion Hex.
  - inversion Hle as [|? ? Hx Hl]; subst.
    destruct (decide (m = f x)) as [Heq|Hne].
    + exists [], x, l. repeat split; auto.
      rewrite filter_cons. destruct (decide (m = f x)); [reflexivity|contradiction].
    + assert (Hex' : Exists (fun y => f y = m) l).
      { inversion Hex; subst; [congruence|assumption]. }
      destruct (IH Hl Hex') as (pre & t & post & -> & Ht & Hpre & Hpost & Hf).
      exists (x :: pre), t, post. repeat split; auto.
      * constructor; [lia|assumption].
      * simpl. rewrite filter_cons.
        destruct (decide (m = f x)); [contradiction|exact Hf].
Qed.

Lemma first_largest_selected (trees : list (Tree F)) :
  trees <> [] ->
  exists t,
    first_largest trees t /\
    py_next (F:=F) (filter (fun x => py_max (map (fun x => length (tree_list x)) trees)
                                     = length (tree_list x)) trees) = Ok t.
Proof.
  intros Hne.
  set (f := fun x : Tree F => length (tree_list x)).
  set (m := py_max (map f trees)).
  assert (Hle : Forall (fun x => (f x <= m)%nat) trees).
  { subst m. pose proof (py_max_upper (map f trees)) as H.
    rewrite Forall_map in H. exact H. }
  assert (Hex : Exists (fun x => f x = m) trees).
  { subst m. pose proof (py_max_attained (map f trees)) as H.
    rewrite Exists_map in H. apply H. destruct trees; simpl; congruence. }
  destruct (first_hit_split f m trees Hle Hex) as (pre & t & post & E & Ht & Hpre & Hpost & Hf).
  subst f m. cbv beta in *.
  exists t. split.
  - exists pre, post. rewrite Ht. auto.
  - rewrite Hf. reflexivity.
Qed.

Lemma raw_max_no_foreground (c : Crop F) :
  Forall (fun p => p = 0%Z) (crop_pixels c) -> raw_max c = 0%Z.
Proof.
  unfold raw_max. induction (crop_pixels c) as [|p l IH]; intros H; [reflexivity|].
  inversion H; subst. simpl. rewrite IH by assumption. reflexivity.
Qed.

(** C5 (as amended): a crop without foreground pixels has cable length 0,
    without error; otherwise the cable length is the metric of a single
    tree, the first one among those with the most paths -- [len(x.list())]
    counts the paths of a tree, not its nodes.  The other trees add
    nothing. *)
Theorem cable_length_first_largest_tree (roi : option (Roi F)) (ip : ImageProcessor F) :
  (Forall (fun p => p = 0%Z) (crop_pixels (ip_crop ip roi)) ->
   get_cable_length roi ip = Ok (of_int 0)) /\
  ((0 < raw_max (ip_crop ip roi))%Z ->
   crop_trees (ip_crop ip roi) <> [] ->
   exists t,
     first_largest (crop_trees (ip_crop ip roi)) t /\
     get_cable_length roi ip = Ok (cable_length_metric t)).
Proof.
  split.
  - intros H0. unfold get_cable_length.
    rewrite (raw_max_no_foreground _ H0). reflexivity.
  - intros Hmax Hne. unfold get_cable_length.
    apply Z.ltb_lt in Hmax. rewrite Hmax.
    destruct (crop_trees (ip_crop ip roi)) as [|t0 rest] eqn:Etrees; [congruence|].
    cbn [obind].
    destruct (1 <? length (t0 :: rest))%nat eqn:Elen.
    + destruct (first_largest_selected (t0 :: rest) Hne) as (t & Hfl & Hnext).
      exists t. split; [exact Hfl|]. rewrite Hnext. reflexivity.
    + exists t0. split; [|reflexivity].
      apply Nat.ltb_ge in Elen. destruct rest; [|simpl in Elen; lia].
      exists [], []. repeat split; constructor.
Qed.

(** ** The Results table *)

Lemma elem_of_add_column (col c : string) (cols : list string) :
  c ∈ add_column col cols <-> c = col \/ c ∈ cols.
Proof.
  unfold add_column. case_bool_decide as Hin.
  - split; [auto|]. intros [->|H]; assumption.
  - rewrite elem_of_app, list_elem_of_singleton. tauto.
Qed.

Lemma rt_setValue_size (col : string) (row : nat) (v : F) (t t' : ResultsTable F) :
  rt_setValue col row v t = Ok t' -> rt_size t' = rt_size t.
Proof.
  unfold rt_setValue, rt_size. destruct (rt_rows t !! row); [|discriminate].
  intros [= <-]. simpl. apply length_insert.
Qed.

Lemma rt_setValue_defined (col : string) (row : nat) (v : F) (t : ResultsTable F) :
  (row < rt_size t)%nat -> exists t', rt_setValue col row v t = Ok t'.
Proof.
  unfold rt_setValue, rt_size. intros Hlt.
  destruct (lookup_lt_is_Some_2 (rt_rows t) row Hlt) as [r ->]. eauto.
Qed.

Lemma rt_setValue_same (col : string) (row : nat) (v : F) (t t' : ResultsTable F) :
  rt_setValue col row v t = Ok t' -> rt_getValue col row t' = Ok v.
Proof.
  unfold rt_setValue, rt_getValue.
  destruct (rt_rows t !! row) as [r|] eqn:Er; [|discriminate].
  intros [= <-]. simpl.
  rewrite bool_decide_eq_true_2 by (apply elem_of_add_column; auto).
  rewrite list_lookup_insert_eq by (eapply lookup_lt_Some; eauto).
  simpl. rewrite lookup_insert_eq. reflexivity.
Qed.

Lemma rt_setValue_other (col c : string) (row i : nat) (v : F) (t t' : ResultsTable F) :
  rt_setValue col row v t = Ok t' -> c <> col ->
  rt_getValue c i t' = rt_getValue c i t.
Proof.
  unfold rt_setValue, rt_getValue.
  destruct (rt_rows t !! row) as [r|] eqn:Er; [|discriminate].
  intros [= <-] Hne. simpl.
  assert (Hcols : bool_decide (c ∈ add_column col (rt_columns t))
                  = bool_decide (c ∈ rt_columns t)).
  { apply bool_decide_ext. rewrite elem_of_add_column. tauto. }
  rewrite Hcols. destruct (bool_decide (c ∈ rt_columns t)); [|reflexivity].
  destruct (decide (i = row)) as [->|Hi].
  - rewrite list_lookup_insert_eq by (eapply lookup_lt_Some; eauto).
    rewrite Er. simpl. rewrite lookup_insert_ne by congruence. reflexivity.
  - rewrite list_lookup_insert_ne by congruence. reflexivity.
Qed.

Lemma rt_getValue_row (col : string) (row : nat) (v : F) (t : ResultsTable F) :
  rt_getValue col row t = Ok v -> (row < rt_size t)%nat.
Proof.
  unfold rt_getValue, rt_size. case_bool_decide; [|discriminate].
  destruct (rt_rows t !! row) eqn:Er; [|discriminate].
  intros _. eapply lookup_lt_Some; eauto.
Qed.

(** ** The two halves of the loop body *)

Lemma ri_step_unfold (row : nat) (h : Host F) :
  ri_step row h =
  match rt_getValue "Perim." row (results h) with
  | Raise e => (Raise e, h)
  | Ok perimeter =>
      match rt_getValue "Area" row (results h) with
      | Raise e => (Raise e, h)
      | Ok area =>
          match ri_formula perimeter area with
          | Raise e => (Raise e, h)
          | Ok ri =>
              if f_leb (of_int 1) ri then
                match rt_setValue "RI" row ri (results h) with
                | Ok t' => (Ok tt, with_results t' h)
                | Raise e => (Raise e, h)
                end
              else (Raise (AssertionError (FloatArg ri)), h)
          end
      end
  end.
Proof.
  cbv beta iota zeta delta [ri_step bind get_results lift update_results set_results py_assert].
  destruct (rt_getValue "Perim." row (results h)); [|reflexivity].
  destruct (rt_getValue "Area" row (results h)); [|reflexivity].
  destruct (ri_formula a a0) as [ri|]; [|reflexivity].
  destruct (f_leb (of_int 1) ri); [|reflexivity].
  destruct (rt_setValue "RI" row ri (results h)); reflexivity.
Qed.

Lemma cable_step_unfold (ip : ImageProcessor F) (row : nat) (h : Host F) :
  cable_step ip row h =
  if (rt_size (results h) =? rm_getCount (rm h))%nat then
    match get_cable_length (rm_getRoi row (rm h)) ip with
    | Raise e => (Raise e, h)
    | Ok cable_length =>
        match rt_setValue "Cable_Length" row cable_length (results h) with
        | Ok t' => (Ok tt, with_results t' h)
        | Raise e => (Raise e, h)
        end
    end
  else (Raise (AssertionError NoArg), h).
Proof.
  cbv beta iota zeta delta [cable_step bind get_results get_rm lift update_results set_results
                    py_assert].
  destruct (rt_size (results h) =? rm_getCount (rm h))%nat; [|reflexivity].
  destruct (get_cable_length (rm_getRoi row (rm h)) ip); [|reflexivity].
  destruct (rt_setValue "Cable_Length" row a (results h)); reflexivity.
Qed.

Lemma same_measurements_refl (t : ResultsTable F) : same_measurements t t.
Proof. repeat split; auto. Qed.

Lemma same_measurements_trans (t1 t2 t3 : ResultsTable F) :
  same_measurements t1 t2 -> same_measurements t2 t3 -> same_measurements t1 t3.
Proof.
  intros (S1 & L1 & V1) (S2 & L2 & V2). split; [congruence|]. split; [congruence|].
  intros c i H1 H2. rewrite V2, V1 by assumption. reflexivity.
Qed.

Lemma rt_setValue_labels (col : string) (row : nat) (v : F) (t t' : ResultsTable F) :
  rt_setValue col row v t = Ok t' ->
  map row_label (rt_rows t') = map row_label (rt_rows t).
Proof.
  unfold rt_setValue. destruct (rt_rows t !! row) as [r|] eqn:Er; [|discriminate].
  intros [= <-]. simpl.
  change (map row_label (<[row:=set_cell col v r]> (rt_rows t)))
    with (row_label <$> <[row:=set_cell col v r]> (rt_rows t)).
  rewrite list_fmap_insert. simpl.
  apply list_insert_id. rewrite list_lookup_fmap, Er. reflexivity.
Qed.

Lemma same_measurements_set (col : string) (row : nat) (v : F) (t t' : ResultsTable F) :
  col = "RI" \/ col = "Cable_Length" ->
  rt_setValue col row v t = Ok t' -> same_measurements t t'.
Proof.
  intros Hcol Hset. split; [eapply rt_setValue_size; eauto|].
  split; [eapply rt_setValue_labels; eauto|].
  intros c i H1 H2. eapply rt_setValue_other; eauto.
  destruct Hcol; congruence.
Qed.

Lemma same_but_results_refl (h : Host F) : same_but_results h h.
Proof. repeat split; auto. Qed.

Lemma same_but_results_trans (h1 h2 h3 : Host F) :
  same_but_results h1 h2 -> same_but_results h2 h3 -> same_but_results h1 h3.
Proof.
  intros (A1 & B1 & C1 & D1) (A2 & B2 & C2 & D2).
  split; [congruence|]. split; [congruence|]. split; [congruence|].
  eapply same_measurements_trans; eauto.
Qed.

Lemma ri_step_frame (row : nat) (h h' : Host F) (r : outcome F unit) :
  ri_step row h = (r, h') -> same_but_results h h'.
Proof.
  rewrite ri_step_unfold.
  destruct (rt_getValue "Perim." row (results h));
    [|intros [= <- <-]; apply same_but_results_refl].
  destruct (rt_getValue "Area" row (results h));
    [|intros [= <- <-]; apply same_but_results_refl].
  destruct (ri_formula a a0) as [ri|];
    [|intros [= <- <-]; apply same_but_results_refl].
  destruct (f_leb (of_int 1) ri);
    [|intros [= <- <-]; apply same_but_results_refl].
  destruct (rt_setValue "RI" row ri (results h)) as [t'|] eqn:Eset;
    intros [= <- <-]; [|apply same_but_results_refl].
  split; [reflexivity|]. split; [reflexivity|]. split; [reflexivity|]. simpl.
  eapply same_measurements_set; [|exact Eset]. auto.
Qed.

Lemma cable_step_frame (ip : ImageProcessor F) (row : nat) (h h' : Host F) (r : outcome F unit) :
  cable_step ip row h = (r, h') -> same_but_results h h'.
Proof.
  rewrite cable_step_unfold.
  destruct (rt_size (results h) =? rm_getCount (rm h))%nat;
    [|intros [= <- <-]; apply same_but_results_refl].
  destruct (get_cable_length (rm_getRoi row (rm h)) ip);
    [|intros [= <- <-]; apply same_but_results_refl].
  destruct (rt_setValue "Cable_Length" row a (results h)) as [t'|] eqn:Eset;
    intros [= <- <-]; [|apply same_but_results_refl].
  split; [reflexivity|]. split; [reflexivity|]. split; [reflexivity|]. simpl.
  eapply same_measurements_set; [|exact Eset]. auto.
Qed.

Lemma measure_ri_frame (ip : ImageProcessor F) (row : nat) (h h' : Host F) (r : outcome F unit) :
  measure_ri ip row h = (r, h') -> same_but_results h h'.
Proof.
  unfold measure_ri, bind.
  destruct (ri_step row h) as [[[]|e] h1] eqn:E1.
  - intros E2. eapply same_but_results_trans.
    + eapply ri_step_frame; eauto.
    + eapply cable_step_frame; eauto.
  - intros [= <- <-]. eapply ri_step_frame; eauto.
Qed.

(** A turn of the loop that completes has checked rows against ROIs. *)
Lemma measure_ri_checked (ip : ImageProcessor F) (row : nat) (h h' : Host F) :
  measure_ri ip row h = (Ok tt, h') -> rt_size (results h') = rm_getCount (rm h').
Proof.
  unfold measure_ri, bind.
  destruct (ri_step row h) as [[[]|e] h1] eqn:E1; [|discriminate].
  rewrite cable_step_unfold.
  destruct (rt_size (results h1) =? rm_getCount (rm h1))%nat eqn:Esz; [|discriminate].
  apply Nat.eqb_eq in Esz.
  destruct (get_cable_length (rm_getRoi row (rm h1)) ip); [|discriminate].
  destruct (rt_setValue "Cable_Length" row a (results h1)) as [t'|] eqn:Eset; [|discriminate].
  intros [= <-]. simpl. rewrite (rt_setValue_size _ _ _ _ _ Eset). exact Esz.
Qed.

(** ** Loops *)

Lemma for_each_app {X} (xs ys : list X) (body : X -> M F unit) (h : Host F) :
  for_each (xs ++ ys) body h =
  match for_each xs body h with
  | (Ok _, h1) => for_each ys body h1
  | (Raise e, h1) => (Raise e, h1)
  end.
Proof.
  revert h. induction xs as [|x xs IH]; intros h; simpl; [reflexivity|].
  unfold bind. destruct (body x h) as [[[]|e] h1]; [apply IH|reflexivity].
Qed.

Lemma for_each_frame {X} (R : Host F -> Host F -> Prop) (body : X -> M F unit) :
  (forall h, R h h) ->
  (forall a b c, R a b -> R b c -> R a c) ->
  (forall x h r h', body x h = (r, h') -> R h h') ->
  forall xs h r h', for_each xs body h = (r, h') -> R h h'.
Proof.
  intros Hrefl Htrans Hbody xs. induction xs as [|x xs IH]; intros h r h'; simpl.
  - intros [= <- <-]. apply Hrefl.
  - unfold bind. destruct (body x h) as [[[]|e] h1] eqn:E.
    + intros E'. eapply Htrans; [eapply Hbody; eauto|eapply IH; eauto].
    + intros [= <- <-]. eapply Hbody; eauto.
Qed.

(** A loop that ran to its end has run its last turn to the end. *)
Lemma for_each_last {X} (xs : list X) (x : X) (body : X -> M F unit) (h h' : Host F) :
  for_each (xs ++ [x]) body h = (Ok tt, h') ->
  exists h1, body x h1 = (Ok tt, h').
Proof.
  rewrite for_each_app. destruct (for_each xs body h) as [[[]|e] h1]; [|discriminate].
  simpl. unfold bind, ret. destruct (body x h1) as [[[]|e] h2] eqn:E; [|discriminate].
  intros [= <-]. eauto.
Qed.

(** ** The rows that Measure adds *)

Lemma rm_indexes_valid (m : RoiManager F) :
  Forall (fun i => (i < rm_getCount m)%nat) (rm_indexes m).
Proof.
  unfold rm_indexes.
  assert (Hall : Forall (fun i => (i < rm_getCount m)%nat) (seq 0 (rm_getCount m))).
  { apply Forall_forall. intros i Hi. apply elem_of_seq in Hi. lia. }
  destruct (filter _ _) as [|i sel] eqn:E; [exact Hall|].
  rewrite <- E. apply Forall_forall. intros j Hj.
  apply list_elem_of_filter in Hj as [_ Hj]. apply elem_of_seq in Hj. lia.
Qed.

Lemma rm_indexes_nonempty (m : RoiManager F) :
  (0 < rm_getCount m)%nat -> rm_indexes m <> [].
Proof.
  unfold rm_indexes. intros Hpos.
  destruct (filter _ _) as [|i sel]; [|discriminate].
  destruct (rm_getCount m); [lia|]. discriminate.
Qed.

Lemma measured_rows_length (title : string) (m : RoiManager F) (l : list nat) :
  Forall (fun i => (i < rm_getCount m)%nat) l ->
  length (omap (fun i => measure_row title <$> rm_getRoi i m) l) = length l.
Proof.
  set (f := fun i => measure_row title <$> rm_getRoi i m).
  induction 1 as [|i l Hi _ IH]; [reflexivity|].
  destruct (lookup_lt_is_Some_2 (rm_rois m) i Hi) as [r Er].
  assert (Hf : f i = Some (measure_row title r)).
  { subst f. cbv beta. unfold rm_getRoi. rewrite Er. reflexivity. }
  change (omap f (i :: l)) with (match f i with Some y => y :: omap f l | None => omap f l end).
  rewrite Hf. simpl. rewrite IH. reflexivity.
Qed.

Lemma rm_measure_size (title : string) (m : RoiManager F) :
  rt_size (rm_measure title m rt_empty) = length (rm_indexes m).
Proof.
  unfold rm_measure, rt_size.
  pose proof (measured_rows_length title m _ (rm_indexes_valid m)) as Hlen.
  destruct (omap _ _) as [|r rows]; simpl in *; [exact Hlen|].
  rewrite <- Hlen. reflexivity.
Qed.

(** The table [Measure] leaves has the value of "Area" and "Perim." of the
    ROI at each position worked on. *)
Lemma rm_measure_row (title : string) (m : RoiManager F) (k i : nat) (roi : Roi F) :
  rm_indexes m !! k = Some i -> rm_getRoi i m = Some roi ->
  rt_getValue "Area" k (rm_measure title m rt_empty) = Ok (mask_area roi) /\
  rt_getValue "Perim." k (rm_measure title m rt_empty) = Ok (mask_perim roi).
Proof.
  intros Hk Hroi. unfold rm_measure.
  assert (Hrow : omap (fun i => measure_row title <$> rm_getRoi i m) (rm_indexes m) !! k
                 = Some (measure_row title roi)).
  { pose proof (rm_indexes_valid m) as Hvalid. revert k Hk.
    set (f := fun i => measure_row title <$> rm_getRoi i m).
    induction Hvalid as [|j l Hj _ IH]; intros k Hk; [discriminate|].
    destruct (lookup_lt_is_Some_2 (rm_rois m) j Hj) as [r Er].
    assert (Hf : f j = Some (measure_row title r)).
    { subst f. cbv beta. unfold rm_getRoi. rewrite Er. reflexivity. }
    change (omap f (j :: l))
      with (match f j with Some y => y :: omap f l | None => omap f l end).
    rewrite Hf. destruct k as [|k]; simpl in Hk |- *.
    - injection Hk as ->. unfold rm_getRoi in Hroi. congruence.
    - apply IH. exact Hk. }
  destruct (omap _ _) as [|r rows] eqn:E; [discriminate|].
  unfold rt_getValue. simpl rt_columns. simpl rt_rows.
  rewrite Hrow. split; reflexivity.
Qed.

(** ** Paths *)

Lemma append_cons (x : ascii) (a b : string) : String x a +:+ b = String x (a +:+ b).
Proof. reflexivity. Qed.

Lemma append_nil (b : string) : EmptyString +:+ b = b.
Proof. reflexivity. Qed.

Lemma append_assoc (a b c : string) : (a +:+ b) +:+ c = a +:+ (b +:+ c).
Proof.
  induction a as [|x a IH]; [reflexivity|].
  rewrite !append_cons. f_equal. exact IH.
Qed.

Lemma append_length (a b : string) :
  String.length (a +:+ b) = (String.length a + String.length b)%nat.
Proof.
  induction a as [|x a IH]; [reflexivity|].
  rewrite append_cons. simpl. rewrite IH. reflexivity.
Qed.

Lemma append_inv_tail (a b t : string) : a +:+ t = b +:+ t -> a = b.
Proof.
  revert b. induction a as [|x a IH]; intros [|y b] H;
    rewrite ?append_cons, ?append_nil in H.
  - reflexivity.
  - apply (f_equal String.length) in H. simpl in H. rewrite append_length in H. lia.
  - apply (f_equal String.length) in H. simpl in H. rewrite append_length in H. lia.
  - injection H as -> H. f_equal. apply IH. exact H.
Qed.

Lemma last_char_append (a b : string) :
  b <> EmptyString -> last_char (a +:+ b) = last_char b.
Proof.
  intros Hb. induction a as [|x a IH]; [reflexivity|].
  rewrite append_cons. simpl.
  destruct (a +:+ b) as [|y s] eqn:E; [|exact IH].
  destruct a; rewrite ?append_cons, ?append_nil in E; [contradiction|discriminate].
Qed.

Lemma os_path_join_prefix (a b : string) : os_path_join a b = join_prefix a +:+ b.
Proof.
  unfold os_path_join, join_prefix.
  destruct (String.eqb a EmptyString || endswith a "\" || endswith a "/"); [reflexivity|].
  rewrite append_assoc. reflexivity.
Qed.

Lemma csv_file_of_inj (w : World F) (f g : string) :
  csv_file_of w f = csv_file_of w g -> f = g.
Proof.
  unfold csv_file_of. rewrite !os_path_join_prefix. intros H.
  apply String.app_inj in H. eapply append_inv_tail; eauto.
Qed.

Lemma last_char_csv (w : World F) (f : string) :
  last_char (csv_file_of w f) = Some "v"%char.
Proof.
  unfold csv_file_of. rewrite os_path_join_prefix.
  rewrite last_char_append by (destruct f; discriminate).
  rewrite last_char_append by discriminate. reflexivity.
Qed.

Lemma last_char_xlsx (w : World F) (f : string) :
  last_char (os_path_join (analysis_dir w) (f +:+ ".xlsx")) = Some "x"%char.
Proof.
  rewrite os_path_join_prefix.
  rewrite last_char_append by (destruct f; discriminate).
  rewrite last_char_append by discriminate. reflexivity.
Qed.

Lemma csv_not_xlsx (w : World F) (f g : string) :
  os_path_join (analysis_dir w) (g +:+ ".xlsx") <> csv_file_of w f.
Proof.
  intros H. apply (f_equal last_char) in H.
  rewrite last_char_csv, last_char_xlsx in H. discriminate.
Qed.

(** ** The measurements of an image *)

Lemma run_measure_eq (h : Host F) : run_measure h = (Ok tt, measured h).
Proof. reflexivity. Qed.

Lemma export_results_eq (w : World F) (f : string) (h : Host F) :
  export_results w f h =
  match rt_deleteColumn "%Area" (results h) with
  | Ok t => (Ok tt, exported w f t h)
  | Raise e => (Raise e, logged (Call "show" "Results") h)
  end.
Proof.
  cbv beta iota zeta delta [export_results bind call emit update_results get_results lift
                            set_results save_csv save_excel run write_file].
  simpl results. destruct (rt_deleteColumn "%Area" (results h)); reflexivity.
Qed.

Lemma measure_eq (w : World F) (img : Image F) (f : string) (h : Host F) :
  measure w img f h =
  if (0 <? rm_getCount (rm h))%nat then
    match for_each (seq 0 (rt_size (results (measured h)))) (measure_ri (img_mask img))
            (measured h) with
    | (Ok _, h1) => export_results w f h1
    | (Raise e, h1) => (Raise e, h1)
    end
  else (Ok tt, h).
Proof.
  cbv beta iota zeta delta [measure bind get_rm add_ri_and_cable_length get_results].
  destruct (0 <? rm_getCount (rm h))%nat; [|reflexivity].
  rewrite run_measure_eq. cbv iota beta.
  destruct (for_each _ _ _) as [[[]|e] h1]; reflexivity.
Qed.

Lemma measure_loop_frame (ip : ImageProcessor F) (xs : list nat) (h h' : Host F)
  (r : outcome F unit) :
  for_each xs (measure_ri ip) h = (r, h') -> same_but_results h h'.
Proof.
  apply (for_each_frame same_but_results).
  - apply same_but_results_refl.
  - apply same_but_results_trans.
  - intros x h0 r0 h0'. apply measure_ri_frame.
Qed.

Lemma rt_deleteColumn_size (col : string) (t t' : ResultsTable F) :
  rt_deleteColumn col t = Ok t' -> rt_size t' = rt_size t.
Proof.
  unfold rt_deleteColumn, rt_size. case_bool_decide; [|discriminate].
  intros [= <-]. simpl. apply length_map.
Qed.

Lemma measured_size (h : Host F) :
  rt_size (results (measured h)) = length (rm_indexes (rm h)).
Proof. simpl. apply rm_measure_size. Qed.

(** ** Rows and ROIs *)

Lemma seq_snoc (n : nat) : seq 0 (S n) = seq 0 n ++ [n].
Proof. rewrite seq_S. reflexivity. Qed.


(** ** A measured area of zero *)

Lemma ri_formula_zero_area (perimeter area : F) :
  f_eqb area (of_int 0) = true -> ri_formula perimeter area = Raise ZeroDivisionError.
Proof. intros H. unfold ri_formula, py_truediv. rewrite H. reflexivity. Qed.

Lemma ri_step_zero_area (row : nat) (h : Host F) (perimeter area : F) :
  rt_getValue "Perim." row (results h) = Ok perimeter ->
  rt_getValue "Area" row (results h) = Ok area ->
  f_eqb area (of_int 0) = true ->
  ri_step row h = (Raise ZeroDivisionError, h).
Proof.
  intros Hp Ha H0. rewrite ri_step_unfold, Hp, Ha, (ri_formula_zero_area _ _ H0).
  reflexivity.
Qed.

Lemma measure_loop_zero_area (ip : ImageProcessor F) (k : nat) (perimeter area : F) :
  f_eqb area (of_int 0) = true ->
  forall xs h,
    k ∈ xs ->
    rt_getValue "Perim." k (results h) = Ok perimeter ->
    rt_getValue "Area" k (results h) = Ok area ->
    exists e h', for_each xs (measure_ri ip) h = (Raise e, h').
Proof.
  intros H0 xs. induction xs as [|x xs IH]; intros h Hin Hp Ha.
  - inversion Hin.
  - cbn [for_each]. unfold bind.
    destruct (measure_ri ip x h) as [[[]|e] h1] eqn:Ebody; [|eauto].
    pose proof (measure_ri_frame _ _ _ _ _ Ebody) as (_ & _ & _ & _ & _ & Hval).
    destruct (decide (k = x)) as [->|Hne].
    + exfalso. unfold measure_ri, bind in Ebody.
      rewrite (ri_step_zero_area _ _ _ _ Hp Ha H0) in Ebody. discriminate.
    + apply IH.
      * apply elem_of_cons in Hin as [?|?]; [contradiction|assumption].
      * rewrite Hval by discriminate. exact Hp.
      * rewrite Hval by discriminate. exact Ha.
Qed.

(** C2 (as amended): a ROI whose measured area is 0 is not skipped.  The
    measurements of its image never complete and write nothing; when the
    loop reaches its row, [perimeter / area] raises [ZeroDivisionError]; this
    is how the run ends when the ROI is the first one measured. *)
Theorem zero_area_raises (w : World F) (img : Image F) (f : string) (h : Host F)
  (k i : nat) (roi : Roi F) :
  rm_indexes (rm h) !! k = Some i ->
  rm_getRoi i (rm h) = Some roi ->
  f_eqb (mask_area roi) (of_int 0) = true ->
  (exists e h', measure w img f h = (Raise e, h') /\ disk h' = disk h) /\
  (forall h1,
     rt_getValue "Perim." k (results h1) = Ok (mask_perim roi) ->
     rt_getValue "Area" k (results h1) = Ok (mask_area roi) ->
     measure_ri (img_mask img) k h1 = (Raise ZeroDivisionError, h1)) /\
  (k = 0%nat -> measure w img f h = (Raise ZeroDivisionError, measured h)).
Proof.
  intros Hk Hroi H0.
  assert (Hpos : (0 < rm_getCount (rm h))%nat).
  { unfold rm_getRoi in Hroi. apply lookup_lt_Some in Hroi.
    unfold rm_getCount. lia. }
  destruct (rm_measure_row "microglia_mask" (rm h) k i roi Hk Hroi) as [Ha Hp].
  assert (Hbody : forall h1,
     rt_getValue "Perim." k (results h1) = Ok (mask_perim roi) ->
     rt_getValue "Area" k (results h1) = Ok (mask_area roi) ->
     measure_ri (img_mask img) k h1 = (Raise ZeroDivisionError, h1)).
  { intros h1 Hp1 Ha1. unfold measure_ri, bind.
    rewrite (ri_step_zero_area _ _ _ _ Hp1 Ha1 H0). reflexivity. }
  rewrite measure_eq. apply Nat.ltb_lt in Hpos as Hposb. rewrite Hposb.
  split; [|split].
  - assert (Hin : k ∈ seq 0 (rt_size (results (measured h)))).
    { apply elem_of_seq. rewrite measured_size. apply lookup_lt_Some in Hk. lia. }
    destruct (measure_loop_zero_area (img_mask img) k _ _ H0 _ (measured h) Hin Hp Ha)
      as (e & h' & Eloop).
    rewrite Eloop. exists e, h'. split; [reflexivity|].
    apply measure_loop_frame in Eloop as (_ & Hdisk & _). exact Hdisk.
  - exact Hbody.
  - intros ->.
    assert (Hn : exists n, rt_size (results (measured h)) = S n).
    { rewrite measured_size. apply lookup_lt_Some in Hk.
      destruct (length (rm_indexes (rm h))); [lia|eauto]. }
    destruct Hn as [n ->].
    change (seq 0 (S n)) with (0%nat :: seq 1 n). cbn [for_each]. unfold bind.
    rewrite (Hbody (measured h) Hp Ha). reflexivity.
Qed.

(** ** The assertion on RI *)


Lemma ri_step_stores (row : nat) (h : Host F) (perimeter area ri : F) :
  rt_getValue "Perim." row (results h) = Ok perimeter ->
  rt_getValue "Area" row (results h) = Ok area ->
  ri_formula perimeter area = Ok ri ->
  f_leb (of_int 1) ri = true ->
  exists h', ri_step row h = (Ok tt, h') /\ rt_getValue "RI" row (results h') = Ok ri.
Proof.
  intros Hp Ha Hri Hle. rewrite ri_step_unfold, Hp, Ha, Hri, Hle.
  destruct (rt_setValue_defined "RI" row ri (results h)) as [t' Eset].
  { eapply rt_getValue_row; eauto. }
  rewrite Eset. eexists. split; [reflexivity|]. simpl.
  eapply rt_setValue_same; eauto.
Qed.

(** A step that completes has read the row, computed its RI, passed the
    test of line 265 and stored the value it computed. *)
Lemma ri_step_completed (row : nat) (h h' : Host F) :
  ri_step row h = (Ok tt, h') ->
  exists perimeter area ri,
    rt_getValue "Perim." row (results h) = Ok perimeter /\
    rt_getValue "Area" row (results h) = Ok area /\
    ri_formula perimeter area = Ok ri /\
    f_leb (of_int 1) ri = true /\
    rt_getValue "RI" row (results h') = Ok ri.
Proof.
  rewrite ri_step_unfold.
  destruct (rt_getValue "Perim." row (results h)) as [perimeter|e] eqn:Hp;
    [|discriminate].
  destruct (rt_getValue "Area" row (results h)) as [area|e] eqn:Ha; [|discriminate].
  destruct (ri_formula perimeter area) as [ri|e] eqn:Hri; [|discriminate].
  destruct (f_leb (of_int 1) ri) eqn:Hle; [|discriminate].
  destruct (rt_setValue "RI" row ri (results h)) as [t'|e] eqn:Eset; [|discriminate].
  intros [= <-]. exists perimeter, area, ri. repeat split; auto.
  simpl. eapply rt_setValue_same; eauto.
Qed.

End Properties.


(** ** Frame rules *)

Section FrameRules.

Context {F : Type} {PF : PyFloat F}.

Context (I : Host F -> Host F -> Prop) (writable : string -> Prop) `{!Frame I writable}.

Lemma keeps_ret {A} (a : A) : keeps I (ret a).
Proof. intros h r h' [= <- <-]. apply frame_refl. Qed.

Lemma keeps_raise {A} (e : exn F) : keeps I (raise (A:=A) e).
Proof. intros h r h' [= <- <-]. apply frame_refl. Qed.

Lemma keeps_lift {A} (o : outcome F A) : keeps I (lift o).
Proof. intros h r h' [= <- <-]. apply frame_refl. Qed.

Lemma keeps_get_rm : keeps I get_rm.
Proof. intros h r h' [= <- <-]. apply frame_refl. Qed.

Lemma keeps_get_results : keeps I get_results.
Proof. intros h r h' [= <- <-]. apply frame_refl. Qed.

Lemma keeps_get_disk : keeps I get_disk.
Proof. intros h r h' [= <- <-]. apply frame_refl. Qed.

Lemma keeps_bind {A B} (m : M F A) (k : A -> M F B) :
  keeps I m -> (forall a, keeps I (k a)) -> keeps I (bind m k).
Proof.
  intros Hm Hk h r h'. unfold bind.
  destruct (m h) as [[a|e] h1] eqn:E.
  - intros E'. eapply frame_trans; [eapply Hm; eauto|eapply Hk; eauto].
  - intros [= <- <-]. eapply Hm; eauto.
Qed.

Lemma keeps_for_each {X} (xs : list X) (body : X -> M F unit) :
  (forall x, keeps I (body x)) -> keeps I (for_each xs body).
Proof.
  intros Hbody. induction xs as [|x xs IH]; simpl.
  - apply keeps_ret.
  - apply keeps_bind; [apply Hbody|intros _; exact IH].
Qed.

Lemma keeps_emit (e : event) : (forall p, e <> PathExists p) -> keeps I (emit e).
Proof. intros He h r h' [= <- <-]. apply frame_logged. exact He. Qed.

Lemma keeps_run (c o : string) : keeps I (run c o).
Proof. apply keeps_emit. discriminate. Qed.

Lemma keeps_call (c o : string) : keeps I (call (F:=F) c o).
Proof. apply keeps_emit. discriminate. Qed.

Lemma keeps_write_file (q : string) (f : file F) : writable q -> keeps I (write_file q f).
Proof. intros Hq h r h' [= <- <-]. apply frame_with_file. exact Hq. Qed.

Lemma keeps_ij_save (q : string) : writable q -> keeps I (ij_save (F:=F) q).
Proof.
  intros Hq. unfold ij_save.
  apply keeps_bind; [apply keeps_emit; discriminate|intros _].
  apply keeps_write_file. exact Hq.
Qed.

Lemma keeps_set_rm (m : RoiManager F) : keeps I (set_rm m).
Proof. intros h r h' [= <- <-]. apply frame_with_rm. Qed.

Lemma keeps_set_results (t : ResultsTable F) : keeps I (set_results t).
Proof. intros h r h' [= <- <-]. apply frame_with_results. Qed.

Lemma keeps_update_results (f : ResultsTable F -> outcome F (ResultsTable F)) :
  keeps I (update_results f).
Proof.
  unfold update_results.
  apply keeps_bind; [apply keeps_get_results|intros t].
  apply keeps_bind; [apply keeps_lift|intros t'].
  apply keeps_set_results.
Qed.

Lemma keeps_remove_inverted_lut (b : bool) : keeps I (remove_inverted_lut b).
Proof. destruct b; [apply keeps_run|apply keeps_ret]. Qed.

Lemma keeps_segment_nuclei (img : Image F) : keeps I (segment_nuclei img).
Proof.
  unfold segment_nuclei.
  repeat (apply keeps_bind; [first [apply keeps_run|apply keeps_call]|intros _]).
  apply keeps_remove_inverted_lut.
Qed.

Lemma keeps_nucleus_filter : keeps I nucleus_filter.
Proof.
  unfold nucleus_filter.
  apply keeps_bind; [apply keeps_call|intros _].
  apply keeps_bind; [apply keeps_emit; discriminate|intros _].
  apply keeps_bind; [apply keeps_get_rm|intros m].
  destruct (0 <? rm_getCount m)%nat; [|apply keeps_ret].
  apply keeps_bind; [apply keeps_set_rm|intros _].
  apply keeps_bind; [apply keeps_emit; discriminate|intros _].
  apply keeps_bind; [apply keeps_get_rm|intros m'].
  apply keeps_set_rm.
Qed.

Lemma keeps_extract_candidates (img : Image F) : keeps I (extract_candidates img).
Proof.
  unfold extract_candidates.
  repeat (apply keeps_bind;
          [first [apply keeps_run|apply keeps_call|apply keeps_set_rm]|intros _]).
  apply keeps_remove_inverted_lut.
Qed.

Lemma keeps_user_interaction (img : Image F) : keeps I (user_interaction img).
Proof.
  unfold user_interaction.
  apply keeps_bind; [apply keeps_emit; discriminate|intros _].
  apply keeps_bind; [apply keeps_get_rm|intros m].
  apply keeps_set_rm.
Qed.

Lemma keeps_make_mask : keeps I (make_mask (F:=F)).
Proof.
  unfold make_mask.
  apply keeps_bind; [apply keeps_call|intros _].
  apply keeps_bind; [apply keeps_get_rm|intros m].
  apply keeps_bind; [|intros _; apply keeps_call].
  destruct (0 <? rm_getCount m)%nat; [|apply keeps_run].
  repeat (apply keeps_bind; [apply keeps_run|intros _]). apply keeps_run.
Qed.

Lemma keeps_measure_ri (ip : ImageProcessor F) (row : nat) : keeps I (measure_ri ip row).
Proof.
  unfold measure_ri, ri_step, cable_step. cbv zeta.
  repeat first [ apply keeps_update_results | apply keeps_get_results | apply keeps_get_rm
               | apply keeps_lift | (apply keeps_bind; [|intros ?]) ].
Qed.

Lemma keeps_measure_loop (img : Image F) : keeps I (add_ri_and_cable_length img).
Proof.
  unfold add_ri_and_cable_length.
  apply keeps_bind; [apply keeps_get_results|intros t].
  apply keeps_for_each. intros row. apply keeps_measure_ri.
Qed.

Lemma keeps_run_measure : keeps I (run_measure (F:=F)).
Proof.
  unfold run_measure.
  repeat (apply keeps_bind;
          [first [apply keeps_run|apply keeps_call|apply keeps_set_results
                 |(apply keeps_emit; discriminate)|apply keeps_get_rm]|intros ?]).
  apply keeps_set_results.
Qed.

Variable w : World F.

Lemma keeps_export_results (f : string) :
  writable (csv_file_of w f) ->
  writable (os_path_join (analysis_dir w) (f +:+ ".xlsx")) ->
  keeps I (export_results w f).
Proof.
  intros Hcsv Hxlsx. unfold export_results, save_csv, save_excel.
  apply keeps_bind; [apply keeps_call|intros _].
  apply keeps_bind; [apply keeps_update_results|intros _].
  apply keeps_bind.
  - apply keeps_bind; [apply keeps_get_results|intros t].
    apply keeps_bind; [apply keeps_emit; discriminate|intros _].
    apply keeps_write_file. exact Hcsv.
  - intros _. apply keeps_bind; [apply keeps_run|intros _].
    apply keeps_bind; [apply keeps_run|intros _].
    apply keeps_write_file. exact Hxlsx.
Qed.

Lemma keeps_measure (img : Image F) (f : string) :
  writable (csv_file_of w f) ->
  writable (os_path_join (analysis_dir w) (f +:+ ".xlsx")) ->
  keeps I (measure w img f).
Proof.
  intros Hcsv Hxlsx. unfold measure.
  apply keeps_bind; [apply keeps_get_rm|intros m].
  destruct (0 <? rm_getCount m)%nat; [|apply keeps_ret].
  apply keeps_bind; [apply keeps_run_measure|intros _].
  apply keeps_bind; [apply keeps_measure_loop|intros _].
  apply keeps_export_results; assumption.
Qed.

Lemma keeps_save_images (f : string) :
  writable (analysis_dir w +:+ "/" +:+ f +:+ ".tif") ->
  writable (analysis_dir w +:+ "/" +:+ f +:+ "_masks.png") ->
  keeps I (save_images w f).
Proof.
  intros Htif Hpng. unfold save_images.
  repeat (apply keeps_bind; [first [apply keeps_run|apply keeps_call]|intros _]).
  apply keeps_bind; [apply keeps_ij_save; exact Htif|intros _].
  repeat (apply keeps_bind; [first [apply keeps_run|apply keeps_call]|intros _]).
  apply keeps_bind; [apply keeps_ij_save; exact Hpng|intros _].
  apply keeps_run.
Qed.

Lemma keeps_copy_row (csv_table : ResultsTable F) (row : nat) :
  keeps I (copy_row csv_table row).
Proof.
  unfold copy_row.
  apply keeps_bind; [apply keeps_get_results|intros t].
  apply keeps_bind; [apply keeps_set_results|intros _].
  apply keeps_bind; [apply keeps_lift|intros label].
  apply keeps_bind; [apply keeps_update_results|intros _].
  apply keeps_for_each. intros heading.
  apply keeps_bind; [apply keeps_lift|intros val].
  apply keeps_update_results.
Qed.

Lemma keeps_summarize_file (f : string) : keeps I (summarize_file w f).
Proof.
  unfold summarize_file. destruct (negb (is_image_file f)); [apply keeps_ret|].
  apply keeps_bind; [apply keeps_emit; discriminate|intros _].
  apply keeps_bind; [apply keeps_get_disk|intros d].
  destruct (d !! csv_file_of w f) as [[|csv_table|]|].
  - apply keeps_ret.
  - apply keeps_bind; [apply keeps_emit; discriminate|intros _].
    apply keeps_bind; [apply keeps_for_each; intros row; apply keeps_copy_row|intros _].
    apply keeps_bind; [apply keeps_call|intros _]. apply keeps_run.
  - apply keeps_bind; [apply keeps_emit; discriminate|intros _]. apply keeps_raise.
  - apply keeps_ret.
Qed.

Lemma keeps_folder_summary : keeps I (folder_summary w).
Proof.
  unfold folder_summary.
  apply keeps_bind; [apply keeps_run|intros _].
  apply keeps_bind; [apply keeps_set_results|intros _].
  apply keeps_bind; [apply keeps_for_each; intros f; apply keeps_summarize_file|intros _].
  apply keeps_bind; [apply keeps_call|intros _]. apply keeps_run.
Qed.

End FrameRules.

(** ** One image *)

Section Images.

Context {F : Type} {PF : PyFloat F}.

#[local] Instance disk_at_frame (p : string) : Frame (F:=F) (disk_at p) (fun q => q <> p).
Proof.
  split; unfold disk_at; simpl; intros; try congruence.
  rewrite lookup_insert_ne by assumption. reflexivity.
Qed.

#[local] Instance trace_adds_frame : Frame (F:=F) (trace_adds no_path_test) (fun _ => True).
Proof.
  split; unfold trace_adds; simpl.
  - intros h. exists []. split; [reflexivity|constructor].
  - intros a b c (e1 & E1 & F1) (e2 & E2 & F2). exists (e2 ++ e1).
    rewrite E2, E1, app_assoc. split; [reflexivity|]. apply Forall_app; auto.
  - intros e h He. exists [e]. split; [reflexivity|]. constructor; [exact He|constructor].
  - intros m h. exists []. split; [reflexivity|constructor].
  - intros t h. exists []. split; [reflexivity|constructor].
  - intros q f h _. exists []. split; [reflexivity|constructor].
Qed.

Lemma keeps_disk_emit (p : string) (e : event) : keeps (F:=F) (disk_at p) (emit e).
Proof. intros h r h' [= <- <-]. reflexivity. Qed.

Lemma last_char_suffix (a s : string) (c : ascii) :
  last_char s = Some c -> last_char (a +:+ s) = Some c.
Proof.
  intros Hs. rewrite last_char_append; [exact Hs|]. intros ->. discriminate.
Qed.

Lemma last_char_tif (w : World F) (f : string) :
  last_char (analysis_dir w +:+ "/" +:+ f +:+ ".tif") = Some "f"%char.
Proof. repeat apply last_char_suffix. reflexivity. Qed.

Lemma last_char_png (w : World F) (f : string) :
  last_char (analysis_dir w +:+ "/" +:+ f +:+ "_masks.png") = Some "g"%char.
Proof. repeat apply last_char_suffix. reflexivity. Qed.

Lemma last_char_seg (w : World F) (f : string) :
  last_char (os_path_join (analysis_dir w) (f +:+ "_seg.tif")) = Some "f"%char.
Proof. rewrite os_path_join_prefix. repeat apply last_char_suffix. reflexivity. Qed.

Lemma last_char_analysis_dir (w : World F) :
  last_char (analysis_dir w) = Some "9"%char.
Proof.
  unfold analysis_dir. rewrite os_path_join_prefix. apply last_char_suffix. reflexivity.
Qed.

Lemma classify_keeps_disk (w : World F) (p f path : string) :
  keeps (disk_at p) (classify w f path).
Proof.
  unfold classify, DEBUG. cbn [negb]. cbv iota.
  repeat (apply (keeps_bind _ _);
          [first [apply (keeps_run _ _)|apply (keeps_call _ _)|apply keeps_disk_emit
                 |apply (keeps_lift _ _)]|intros ?]).
  apply (keeps_call _ _).
Qed.

(** Another image's turn leaves this image's CSV alone. *)
Lemma process_image_keeps_other (w : World F) (f g : string) :
  g <> f -> keeps (disk_at (csv_file_of w f)) (process_image w g).
Proof.
  intros Hne. pose proof (last_char_csv w f) as Hv.
  unfold process_image. destruct (negb (is_image_file g)); [apply (keeps_ret _ _)|].
  apply (keeps_bind _ _); [apply (keeps_set_rm _ _)|intros _].
  apply (keeps_bind _ _); [apply (keeps_run _ _)|intros _].
  destruct (bioformats w _) as [img|].
  - apply (keeps_bind _ _); [apply (keeps_run _ _)|intros _].
    apply (keeps_bind _ _); [apply (keeps_call _ _)|intros _].
    apply (keeps_bind _ _); [apply (keeps_segment_nuclei _ _)|intros _].
    apply (keeps_bind _ _); [apply classify_keeps_disk|intros _].
    apply (keeps_bind _ _); [apply (keeps_extract_candidates _ _)|intros _].
    apply (keeps_bind _ _); [apply (keeps_nucleus_filter _ _)|intros _].
    apply (keeps_bind _ _); [apply (keeps_user_interaction _ _)|intros _].
    apply (keeps_bind _ _); [apply (keeps_make_mask _ _)|intros _].
    apply (keeps_bind _ _); [|intros _].
    + apply (keeps_measure _ _).
      * intros E. apply csv_file_of_inj in E. contradiction.
      * apply csv_not_xlsx.
    + apply (keeps_save_images _ _).
      * intros E. rewrite <- E, last_char_tif in Hv. discriminate.
      * intros E. rewrite <- E, last_char_png in Hv. discriminate.
  - apply (keeps_bind _ _); [apply keeps_disk_emit|intros _]. apply (keeps_raise _ _).
Qed.

(** What the phases between the classifier and the measurements do to the
    manager. *)

Lemma extract_candidates_result (img : Image F) (h : Host F) :
  exists h',
    extract_candidates img h = (Ok tt, h') /\
    rm h' = {| rm_rois := img_candidates img; rm_selected := ∅ |} /\
    disk h' = disk h.
Proof.
  unfold extract_candidates. destruct (img_antibody_inverted img);
    eexists; (split; [reflexivity|]); split; reflexivity.
Qed.

Lemma nucleus_filter_result (h : Host F) :
  exists h',
    nucleus_filter h = (Ok tt, h') /\ rm h' = nucleus_filtered (rm h) /\ disk h' = disk h.
Proof.
  unfold nucleus_filter, nucleus_filtered.
  cbv beta iota zeta delta [bind call emit get_rm set_rm logged with_rm rm ret].
  destruct h as [m t d tr]. simpl.
  destruct (0 <? rm_getCount m)%nat; eexists; (split; [reflexivity|]); split; reflexivity.
Qed.

Lemma user_interaction_result (img : Image F) (h : Host F) :
  exists h',
    user_interaction img h = (Ok tt, h') /\ rm h' = img_operator img (rm h) /\
    disk h' = disk h.
Proof. eexists. split; [reflexivity|]. split; reflexivity. Qed.

Lemma make_mask_result (h : Host F) :
  exists h', make_mask h = (Ok tt, h') /\ rm h' = rm h /\ disk h' = disk h.
Proof.
  unfold make_mask.
  cbv beta iota zeta delta [bind call emit get_rm run logged rm ret].
  destruct h as [m t d tr]. simpl.
  destruct (0 <? rm_getCount m)%nat; eexists; (split; [reflexivity|]); split; reflexivity.
Qed.

Lemma measure_nothing (w : World F) (img : Image F) (f : string) (h : Host F) :
  rm_rois (rm h) = [] -> measure w img f h = (Ok tt, h).
Proof.
  intros Hnil. rewrite measure_eq. unfold rm_getCount. rewrite Hnil. reflexivity.
Qed.

(** The turn of an image without surviving ROIs writes no CSV. *)
Lemma process_image_keeps_empty (w : World F) (f : string) (img : Image F) :
  bioformats w (os_path_join (input_dir w) f) = Some img ->
  rm_rois (surviving img) = [] ->
  keeps (disk_at (csv_file_of w f)) (process_image w f).
Proof.
  intros Hopen Hnone. pose proof (last_char_csv w f) as Hv.
  unfold process_image. destruct (negb (is_image_file f)); [apply (keeps_ret _ _)|].
  rewrite Hopen.
  apply (keeps_bind _ _); [apply (keeps_set_rm _ _)|intros _].
  apply (keeps_bind _ _); [apply (keeps_run _ _)|intros _].
  apply (keeps_bind _ _); [apply (keeps_run _ _)|intros _].
  apply (keeps_bind _ _); [apply (keeps_call _ _)|intros _].
  apply (keeps_bind _ _); [apply (keeps_segment_nuclei _ _)|intros _].
  apply (keeps_bind _ _); [apply classify_keeps_disk|intros _].
  intros h r h'. unfold bind.
  destruct (extract_candidates_result img h) as (h1 & -> & Hrm1 & Hd1).
  destruct (nucleus_filter_result h1) as (h2 & -> & Hrm2 & Hd2).
  destruct (user_interaction_result img h2) as (h3 & -> & Hrm3 & Hd3).
  destruct (make_mask_result h3) as (h4 & -> & Hrm4 & Hd4).
  rewrite measure_nothing.
  2:{ rewrite Hrm4, Hrm3, Hrm2, Hrm1. exact Hnone. }
  assert (Hsave : keeps (disk_at (csv_file_of w f)) (save_images w f)).
  { apply (keeps_save_images _ _).
    - intros E. rewrite <- E, last_char_tif in Hv. discriminate.
    - intros E. rewrite <- E, last_char_png in Hv. discriminate. }
  intros Esave. apply Hsave in Esave. unfold disk_at in *. congruence.
Qed.

(** ** The three ways a turn of the loop ends early *)

Lemma process_image_skips (w : World F) (f : string) (h : Host F) :
  is_image_file f = false -> process_image w f h = (Ok tt, h).
Proof. intros Hf. unfold process_image. rewrite Hf. reflexivity. Qed.

Lemma process_image_unopened (w : World F) (f : string) (h : Host F) :
  is_image_file f = true ->
  bioformats w (os_path_join (input_dir w) f) = None ->
  process_image w f h =
  (Raise SystemExit,
   logged (ShowMessage ("Could not open image " +:+ os_path_join (input_dir w) f))
     (logged (Run "Bio-Formats Importer" (importer_options (os_path_join (input_dir w) f)))
        (with_rm rm_reset h))).
Proof.
  intros Hf Hopen. unfold process_image. rewrite Hf, Hopen. reflexivity.
Qed.

Lemma process_image_model_missing (w : World F) (f : string) (img : Image F) (h : Host F) :
  is_image_file f = true ->
  bioformats w (os_path_join (input_dir w) f) = Some img ->
  model_exists w = false ->
  exists h',
    process_image w f h = (Raise (AssertionError (StrArg (membrane_model_file w))), h') /\
    trace h' = PathExists (membrane_model_file w) :: opening_events w img f ++ trace h /\
    disk h' = disk h.
Proof.
  intros Hf Hopen Hmodel. unfold process_image. rewrite Hf, Hopen.
  unfold classify, segment_nuclei, opening_events, nuclei_events.
  cbv beta iota zeta delta [bind call emit run set_rm lift py_assert negb
                            remove_inverted_lut ret].
  rewrite Hmodel. destruct (img_nuclei_inverted img);
    eexists; (split; [reflexivity|]); split; reflexivity.
Qed.

Lemma opening_events_no_classifier (w : World F) (img : Image F) (f : string) :
  Forall no_classifier_run (opening_events w img f).
Proof.
  unfold opening_events, nuclei_events.
  destruct (img_nuclei_inverted img); repeat constructor; intros o; discriminate.
Qed.

(** ** Counting the tests of the model's path *)

Lemma counts_of_keeps {A} (w : World F) (m : M F A) :
  keeps (trace_adds no_path_test) m -> counts_checks w 0 m.
Proof.
  intros Hm h a h' E. destruct (Hm _ _ _ E) as (evs & -> & Hevs).
  unfold model_checks. rewrite filter_app, length_app.
  assert (Hnil : filter (fun e => e = PathExists (membrane_model_file w)) evs = []).
  { induction Hevs as [|e evs He _ IH]; [reflexivity|].
    rewrite filter_cons. destruct (decide _) as [->|_]; [|exact IH].
    exfalso. eapply He. reflexivity. }
  rewrite Hnil. simpl. lia.
Qed.

Lemma counts_bind {A B} (w : World F) (n n' : nat) (m : M F A) (k : A -> M F B) :
  counts_checks w n m -> (forall a, counts_checks w n' (k a)) ->
  counts_checks w (n + n') (bind m k).
Proof.
  intros Hm Hk h b h'. unfold bind.
  destruct (m h) as [[a|e] h1] eqn:E; [|discriminate].
  intros E'. rewrite (Hk _ _ _ _ E'), (Hm _ _ _ E). lia.
Qed.

Lemma counts_classify (w : World F) (f path : string) :
  counts_checks w 1 (classify w f path).
Proof.
  intros h a h'. unfold classify, DEBUG.
  cbv beta iota zeta delta [bind call emit run lift py_assert negb ret].
  destruct (model_exists w); [|discriminate].
  intros [= <- <-]. unfold model_checks.
  cbv beta iota delta [logged trace].
  rewrite !filter_cons.
  repeat (destruct (decide _) as [?|?]; [try discriminate|]); try contradiction.
  simpl. lia.
Qed.

Lemma counts_process_image (w : World F) (f : string) :
  counts_checks w (if is_image_file f then 1 else 0) (process_image w f).
Proof.
  unfold process_image. destruct (is_image_file f); simpl negb; cbv iota.
  2:{ apply counts_of_keeps, (keeps_ret _ _). }
  change 1%nat with (0 + (0 + (0 + (0 + (0 + (1 + 0))))))%nat.
  apply counts_bind; [apply counts_of_keeps, (keeps_set_rm _ _)|intros _].
  apply counts_bind; [apply counts_of_keeps, (keeps_run _ _)|intros _].
  destruct (bioformats w _) as [img|].
  2:{ intros h a h'. unfold bind, emit, raise. discriminate. }
  apply counts_bind; [apply counts_of_keeps, (keeps_run _ _)|intros _].
  apply counts_bind; [apply counts_of_keeps, (keeps_call _ _)|intros _].
  apply counts_bind; [apply counts_of_keeps, (keeps_segment_nuclei _ _)|intros _].
  apply counts_bind; [apply counts_classify|intros _].
  apply counts_of_keeps.
  apply (keeps_bind _ _); [apply (keeps_extract_candidates _ _)|intros _].
  apply (keeps_bind _ _); [apply (keeps_nucleus_filter _ _)|intros _].
  apply (keeps_bind _ _); [apply (keeps_user_interaction _ _)|intros _].
  apply (keeps_bind _ _); [apply (keeps_make_mask _ _)|intros _].
  apply (keeps_bind _ _); [apply (keeps_measure _ _); exact I|intros _].
  apply (keeps_save_images _ _); exact I.
Qed.

Lemma counts_process_images (w : World F) (files : list string) :
  counts_checks w (length (filter (fun f => is_image_file f = true) files))
    (process_images w files).
Proof.
  unfold process_images. induction files as [|f files IH]; simpl for_each.
  - apply counts_of_keeps, (keeps_ret _ _).
  - rewrite filter_cons.
    pose proof (counts_process_image w f) as Hf.
    destruct (decide (is_image_file f = true)) as [E|E].
    + rewrite E in Hf. simpl length.
      change (S ?n) with (1 + n)%nat. apply counts_bind; [exact Hf|intros _; exact IH].
    + apply not_true_is_false in E. rewrite E in Hf.
      change (length ?l) with (0 + length l)%nat.
      apply counts_bind; [exact Hf|intros _; exact IH].
Qed.

End Images.

(** ** The run over a folder *)

Section Folder.

Context {F : Type} {PF : PyFloat F}.

#[local] Existing Instance disk_at_frame.

Lemma prepare_result (w : World F) (h : Host F) :
  exists h0, prepare w h = (Ok tt, h0) /\
    forall p, p <> analysis_dir w -> disk h0 !! p = disk h !! p.
Proof.
  unfold prepare.
  cbv beta iota zeta delta [bind run emit set_rm get_disk ret write_file].
  simpl disk. destruct (bool_decide _); eexists; (split; [reflexivity|]); intros p Hp; simpl.
  - reflexivity.
  - rewrite lookup_insert_ne by congruence. reflexivity.
Qed.

Lemma main_unfold (w : World F) (h : Host F) :
  main w h =
  match prepare w h with
  | (Ok _, h0) =>
      match process_images w (os_listdir w) h0 with
      | (Ok _, h1) =>
          match folder_summary w h1 with
          | (Ok _, h2) => (Ok tt, logged (ShowMessage "Finshed processing folder.") h2)
          | (Raise e, h2) => (Raise e, h2)
          end
      | (Raise e, h1) => (Raise e, h1)
      end
  | (Raise e, h0) => (Raise e, h0)
  end.
Proof.
  unfold main, bind.
  destruct (prepare w h) as [[[]|e] h0]; [|reflexivity].
  destruct (process_images w (os_listdir w) h0) as [[[]|e] h1]; [|reflexivity].
  destruct (folder_summary w h1) as [[[]|e] h2]; reflexivity.
Qed.

(** C9: an image file that cannot be opened ends the whole run.  With such
    a file in the listing the run raises; it ends as the run over the
    listing cut after that file does, so no later file is touched; and when
    the files before it went through, it ends in [SystemExit] right after
    the notice "Could not open image ..." was shown. *)
Theorem unopened_image_stops_run (w : World F) (pre post : list string) (f : string)
  (h : Host F) :
  os_listdir w = pre ++ f :: post ->
  is_image_file f = true ->
  bioformats w (os_path_join (input_dir w) f) = None ->
  exists e h0 h',
    prepare w h = (Ok tt, h0) /\
    main w h = (Raise e, h') /\
    process_images w (pre ++ [f]) h0 = (Raise e, h') /\
    (forall h1, process_images w pre h0 = (Ok tt, h1) ->
       e = SystemExit /\
       h' = logged (ShowMessage ("Could not open image " +:+ os_path_join (input_dir w) f))
              (logged (Run "Bio-Formats Importer"
                         (importer_options (os_path_join (input_dir w) f)))
                 (with_rm rm_reset h1))).
Proof.
  intros Hlist Hf Hopen.
  destruct (prepare_result w h) as (h0 & Eprep & _).
  assert (Hcut : forall rest,
            process_images w (pre ++ f :: rest) h0 =
            match process_images w pre h0 with
            | (Ok _, h1) =>
                (Raise SystemExit,
                 logged (ShowMessage ("Could not open image "
                                      +:+ os_path_join (input_dir w) f))
                   (logged (Run "Bio-Formats Importer"
                              (importer_options (os_path_join (input_dir w) f)))
                      (with_rm rm_reset h1)))
            | (Raise e, h1) => (Raise e, h1)
            end).
  { intros rest. unfold process_images. rewrite for_each_app.
    destruct (for_each pre (process_image w) h0) as [[[]|e] h1]; [|reflexivity].
    cbn [for_each]. unfold bind.
    rewrite (process_image_unopened w f h1 Hf Hopen). reflexivity. }
  destruct (process_images w pre h0) as [[[]|e] h1] eqn:Epre.
  - eexists SystemExit, h0, _. split; [exact Eprep|].
    split; [rewrite main_unfold, Eprep, Hlist, Hcut; reflexivity|].
    split; [rewrite Hcut; reflexivity|].
    intros h2 E. assert (h2 = h1) as -> by congruence. split; reflexivity.
  - exists e, h0, h1. split; [exact Eprep|].
    split; [rewrite main_unfold, Eprep, Hlist, Hcut; reflexivity|].
    split; [rewrite Hcut; reflexivity|].
    intros h2 E. congruence.
Qed.

(** C3 (as amended): the model's path is tested once per image, not once
    per run: a loop over a listing that completes has tested it as many
    times as the listing has image files.  With the model missing, the turn
    of an image that opens raises [AssertionError] with the path, after the
    steps that open the image and segment the nuclei and before any call of
    the classifier; a listing without image files is not tested at all. *)
Theorem model_checked_per_image (w : World F) :
  (forall files h h',
     process_images w files h = (Ok tt, h') ->
     model_checks w (trace h') =
     (model_checks w (trace h) + length (filter (fun f => is_image_file f = true) files))%nat) /\
  (model_exists w = false ->
   forall f img h,
     is_image_file f = true ->
     bioformats w (os_path_join (input_dir w) f) = Some img ->
     exists h',
       process_image w f h = (Raise (AssertionError (StrArg (membrane_model_file w))), h') /\
       trace h' = PathExists (membrane_model_file w) :: opening_events w img f ++ trace h /\
       Forall no_classifier_run (opening_events w img f)) /\
  (forall files h,
     Forall (fun f => is_image_file f = false) files ->
     process_images w files h = (Ok tt, h)).
Proof.
  split; [|split].
  - intros files h h' E. exact (counts_process_images w files h tt h' E).
  - intros Hmodel f img h Hf Hopen.
    destruct (process_image_model_missing w f img h Hf Hopen Hmodel) as (h' & E & Htr & _).
    exists h'. split; [exact E|]. split; [exact Htr|].
    apply opening_events_no_classifier.
  - intros files h Hfiles. unfold process_images.
    induction Hfiles as [|f files Hf _ IH]; [reflexivity|].
    cbn [for_each]. unfold bind. rewrite (process_image_skips w f h Hf). exact IH.
Qed.

Lemma summarize_file_missing (w : World F) (f : string) (h : Host F) :
  is_image_file f = true ->
  disk h !! csv_file_of w f = None ->
  summarize_file w f h = (Ok tt, logged (IsFile (csv_file_of w f)) h).
Proof.
  intros Hf Hnone. unfold summarize_file. rewrite Hf.
  cbv beta iota zeta delta [negb bind emit get_disk].
  change (disk (logged (IsFile (csv_file_of w f)) h)) with (disk h).
  rewrite Hnone. reflexivity.
Qed.

End Folder.

(** ** The folder summary *)

Section Summary.

Context {F : Type} {PF : PyFloat F}.

Lemma rt_addValue_last (col : string) (v : F) (cols : list string) (rows : list (Row F))
  (r : Row F) :
  rt_addValue col v {| rt_columns := cols; rt_rows := rows ++ [r] |} =
  Ok {| rt_columns := add_column col cols; rt_rows := rows ++ [set_cell col v r] |}.
Proof.
  unfold rt_addValue, rt_size. simpl. rewrite length_app. simpl.
  replace (length rows + 1)%nat with (S (length rows)) by lia.
  f_equal. f_equal.
  replace (length rows) with (length rows + 0)%nat by lia.
  rewrite alter_app_r. reflexivity.
Qed.

Lemma rt_addLabel_last (label : string) (cols : list string) (rows : list (Row F))
  (r : Row F) :
  rt_addLabel (F:=F) label {| rt_columns := cols; rt_rows := rows ++ [r] |} =
  Ok {| rt_columns := cols;
        rt_rows := rows ++ [ {| row_label := label; row_cells := row_cells r |} ] |}.
Proof.
  unfold rt_addLabel, rt_size. simpl. rewrite length_app. simpl.
  replace (length rows + 1)%nat with (S (length rows)) by lia.
  f_equal. f_equal.
  replace (length rows) with (length rows + 0)%nat by lia.
  rewrite alter_app_r. reflexivity.
Qed.

(** The loop of lines 323-325 fills the last row of the summary. *)
Lemma add_values_loop (csv_table : ResultsTable F) (row : nat) (r : Row F) :
  rt_rows csv_table !! row = Some r ->
  forall headings,
    Forall (fun c => c ∈ rt_columns csv_table) headings ->
    forall h cols rows label cells,
      results h = {| rt_columns := cols;
                     rt_rows := rows ++ [ {| row_label := label; row_cells := cells |} ] |} ->
      exists h' cols',
        for_each headings
          (fun heading =>
             bind (lift (rt_getValue heading row csv_table))
                  (fun val => update_results (rt_addValue heading val))) h = (Ok tt, h') /\
        results h' =
          {| rt_columns := cols';
             rt_rows := rows ++
               [ {| row_label := label;
                    row_cells :=
                      foldl (fun cells c => <[c := default (of_int 0) (row_cells r !! c)]> cells)
                            cells headings |} ] |} /\
        rm h' = rm h /\ disk h' = disk h /\ trace h' = trace h.
Proof.
  intros Hr headings Hcols.
  induction Hcols as [|c headings Hc _ IH]; intros h cols rows label cells Hres.
  - exists h, cols. simpl. auto.
  - cbn [for_each].
    cbv beta iota zeta delta [bind lift update_results get_results set_results].
    unfold rt_getValue at 1. rewrite bool_decide_eq_true_2 by exact Hc. rewrite Hr.
    rewrite Hres, rt_addValue_last.
    destruct (IH (with_results
                    {| rt_columns := add_column c cols;
                       rt_rows := rows ++
                         [set_cell c (default (of_int 0) (row_cells r !! c))
                            {| row_label := label; row_cells := cells |}] |} h)
                 (add_column c cols) rows label
                 (<[c := default (of_int 0) (row_cells r !! c)]> cells) eq_refl)
      as (h' & cols' & E & Hres' & Hrm & Hdisk & Htrace).
    exists h', cols'. split; [exact E|]. split; [exact Hres'|]. auto.
Qed.

Lemma copy_row_appends (csv_table : ResultsTable F) (row : nat) (r : Row F) (h : Host F) :
  rt_rows csv_table !! row = Some r ->
  exists h',
    copy_row csv_table row h = (Ok tt, h') /\
    rt_rows (results h') = rt_rows (results h) ++ [copied_row (rt_columns csv_table) r] /\
    rm h' = rm h /\ disk h' = disk h /\ trace h' = trace h.
Proof.
  intros Hr. unfold copy_row.
  cbv beta iota zeta delta [bind lift update_results get_results set_results].
  unfold rt_getLabel. rewrite Hr.
  change (results (with_results (rt_incrementCounter (results h)) h))
    with (rt_incrementCounter (results h)).
  unfold rt_incrementCounter at 1. rewrite rt_addLabel_last.
  destruct (add_values_loop csv_table row r Hr (drop 1 (rt_headings csv_table))
              ltac:(apply Forall_forall; intros c Hc; exact Hc)
              (with_results
                 {| rt_columns := rt_columns (results h);
                    rt_rows := rt_rows (results h) ++
                      [ {| row_label := row_label r; row_cells := ∅ |} ] |}
                 (with_results (rt_incrementCounter (results h)) h))
              _ _ _ _ eq_refl)
    as (h' & cols' & E & Hres & Hrm & Hdisk & Htrace).
  exists h'. split; [exact E|]. rewrite Hres. simpl. auto.
Qed.

Lemma copy_rows_append (csv_table : ResultsTable F) :
  forall rest before h,
    rt_rows csv_table = before ++ rest ->
    exists h',
      for_each (seq (length before) (length rest)) (copy_row csv_table) h = (Ok tt, h') /\
      rt_rows (results h') =
        rt_rows (results h) ++ map (copied_row (rt_columns csv_table)) rest /\
      rm h' = rm h /\ disk h' = disk h /\ trace h' = trace h.
Proof.
  induction rest as [|r rest IH]; intros before h Hrows.
  - exists h. simpl. rewrite app_nil_r. auto.
  - assert (Hr : rt_rows csv_table !! length before = Some r).
    { rewrite Hrows. rewrite lookup_app_r by lia. rewrite Nat.sub_diag. reflexivity. }
    destruct (copy_row_appends csv_table (length before) r h Hr)
      as (h1 & E1 & Hres1 & Hrm1 & Hdisk1 & Htrace1).
    destruct (IH (before ++ [r]) h1) as (h' & E' & Hres' & Hrm' & Hdisk' & Htrace').
    { rewrite Hrows, <- app_assoc. reflexivity. }
    exists h'. simpl length. cbn [seq for_each]. unfold bind. rewrite E1.
    rewrite length_app in E'. simpl in E'.
    replace (length before + 1)%nat with (S (length before)) in E' by lia.
    split; [exact E'|]. rewrite Hres', Hres1, <- app_assoc. simpl.
    split; [reflexivity|]. split; [congruence|]. split; congruence.
Qed.

Lemma summarize_file_result (w : World F) (f : string) (h : Host F) :
  (is_image_file f = true -> disk h !! csv_file_of w f <> Some Blob) ->
  exists h',
    summarize_file w f h = (Ok tt, h') /\
    rt_rows (results h') = rt_rows (results h) ++ summary_rows w (disk h) [f] /\
    disk h' = disk h.
Proof.
  intros Hblob. unfold summarize_file, summary_rows. simpl flat_map. rewrite app_nil_r.
  destruct (is_image_file f) eqn:Hf.
  2:{ exists h. rewrite app_nil_r. auto. }
  cbv beta iota zeta delta [negb bind emit get_disk].
  change (disk (logged (IsFile (csv_file_of w f)) h)) with (disk h).
  destruct (disk h !! csv_file_of w f) as [[|csv_table|]|] eqn:Ed.
  - eexists. split; [reflexivity|]. simpl. rewrite app_nil_r. auto.
  - destruct (copy_rows_append csv_table (rt_rows csv_table) []
                (logged (Opened (csv_file_of w f)) (logged (IsFile (csv_file_of w f)) h))
                eq_refl)
      as (h1 & E1 & Hres1 & _ & Hdisk1 & _).
    simpl length in E1. unfold rt_size. rewrite E1.
    eexists. split; [reflexivity|]. simpl. split; [exact Hres1|exact Hdisk1].
  - exfalso. apply Hblob; reflexivity.
  - eexists. split; [reflexivity|]. simpl. rewrite app_nil_r. auto.
Qed.

Lemma summary_rows_cons (w : World F) (d : gmap string (file F)) (f : string)
  (files : list string) :
  summary_rows w d (f :: files) = summary_rows w d [f] ++ summary_rows w d files.
Proof. unfold summary_rows. simpl. rewrite app_nil_r. reflexivity. Qed.

Lemma summarize_files_result (w : World F) (files : list string) :
  forall h,
    Forall (fun f => is_image_file f = true -> disk h !! csv_file_of w f <> Some Blob) files ->
    exists h',
      for_each files (summarize_file w) h = (Ok tt, h') /\
      rt_rows (results h') = rt_rows (results h) ++ summary_rows w (disk h) files /\
      disk h' = disk h.
Proof.
  induction files as [|f files IH]; intros h Hblob.
  - exists h. simpl. rewrite app_nil_r. auto.
  - inversion Hblob as [|? ? Hf Hrest]; subst.
    destruct (summarize_file_result w f h Hf) as (h1 & E1 & Hres1 & Hdisk1).
    destruct (IH h1) as (h' & E' & Hres' & Hdisk').
    { rewrite Hdisk1. exact Hrest. }
    exists h'. cbn [for_each]. unfold bind. rewrite E1.
    split; [exact E'|]. rewrite Hres', Hres1, Hdisk1, (summary_rows_cons w (disk h) f files).
    rewrite <- app_assoc. split; [reflexivity|congruence].
Qed.

Lemma omap_measure_row (title : string) (m : RoiManager F) (l : list nat) :
  omap (fun i => measure_row title <$> rm_getRoi i m) l =
  map (measure_row title) (omap (fun i => rm_getRoi i m) l).
Proof.
  induction l as [|i l IH]; [reflexivity|].
  cbn [omap list_omap]. destruct (rm_getRoi i m); simpl; rewrite IH; reflexivity.
Qed.

Lemma rm_measure_labels (title : string) (m : RoiManager F) :
  map row_label (rt_rows (rm_measure title m rt_empty)) =
  map (fun roi => title +:+ ":" +:+ roi_name roi) (measured_rois m).
Proof.
  unfold rm_measure, measured_rois. rewrite omap_measure_row.
  destruct (map (measure_row title) _) as [|r rows] eqn:E.
  - simpl. destruct (omap _ _); [reflexivity|discriminate].
  - simpl rt_rows. rewrite <- E, map_map. reflexivity.
Qed.

Lemma rt_deleteColumn_labels (col : string) (t t' : ResultsTable F) :
  rt_deleteColumn col t = Ok t' ->
  map row_label (rt_rows t') = map row_label (rt_rows t).
Proof.
  unfold rt_deleteColumn. case_bool_decide; [|discriminate].
  intros [= <-]. simpl. rewrite map_map. reflexivity.
Qed.

(** A completed run of the measurements, taken apart. *)
Lemma measure_completed (w : World F) (img : Image F) (f : string) (h h' : Host F) :
  (0 < rm_getCount (rm h))%nat ->
  measure w img f h = (Ok tt, h') ->
  exists h1 t,
    for_each (seq 0 (rt_size (results (measured h)))) (measure_ri (img_mask img))
      (measured h) = (Ok tt, h1) /\
    rt_deleteColumn "%Area" (results h1) = Ok t /\
    h' = exported w f t h1.
Proof.
  intros Hpos. rewrite measure_eq. apply Nat.ltb_lt in Hpos. rewrite Hpos.
  destruct (for_each _ _ _) as [[[]|e] h1] eqn:Eloop; [|discriminate].
  rewrite export_results_eq.
  destruct (rt_deleteColumn "%Area" (results h1)) as [t|] eqn:Edel; [|discriminate].
  intros [= <-]. eauto.
Qed.

(** C8 (as amended): the folder summary reopens the CSV of every image file
    of the listing that has one, in listing order, and copies its rows:
    its rows are the rows of those tables one after the other (tables of 3
    and 2 rows give 5), and [Summarize] is run last.  The label of a row is
    copied as it is in the CSV, where it is the title of the measured
    window, "microglia_mask", and the name of the ROI: it does not name the
    source file. *)
Theorem folder_summary_concatenates (w : World F) (h : Host F) :
  Forall (fun f => is_image_file f = true -> disk h !! csv_file_of w f <> Some Blob)
         (os_listdir w) ->
  (exists h' tr,
     folder_summary w h = (Ok tt, h') /\
     rt_rows (results h') = summary_rows w (disk h) (os_listdir w) /\
     trace h' = Run "Summarize" EmptyString :: tr) /\
  (forall cols r, row_label (copied_row cols r) = row_label r) /\
  (forall img f h0 h1,
     (0 < rm_getCount (rm h0))%nat ->
     measure w img f h0 = (Ok tt, h1) ->
     disk h1 !! csv_file_of w f = Some (Csv (results h1)) /\
     map row_label (rt_rows (results h1)) =
     map (fun roi => "microglia_mask:" +:+ roi_name roi) (measured_rois (rm h0))).
Proof.
  intros Hblob. split; [|split].
  - unfold folder_summary.
    cbv beta iota zeta delta [bind run call emit set_results].
    destruct (summarize_files_result w (os_listdir w)
                (with_results rt_empty (logged (Run "Clear Results" EmptyString) h)) Hblob)
      as (h1 & E1 & Hres1 & Hdisk1).
    rewrite E1. eexists _, _. split; [reflexivity|]. split; [exact Hres1|reflexivity].
  - reflexivity.
  - intros img f h0 h1 Hpos Emeasure.
    destruct (measure_completed w img f h0 h1 Hpos Emeasure) as (h2 & t & Eloop & Edel & ->).
    apply measure_loop_frame in Eloop as (_ & _ & _ & _ & Hlabels & _).
    split.
    + simpl. rewrite lookup_insert_ne by apply csv_not_xlsx. apply lookup_insert_eq.
    + simpl. rewrite (rt_deleteColumn_labels _ _ _ Edel), Hlabels.
      apply rm_measure_labels.
Qed.

End Summary.

(** ** An image without surviving ROIs *)

Section EmptyImage.

Context {F : Type} {PF : PyFloat F}.

#[local] Existing Instance disk_at_frame.

(** C10 (as amended): an image whose ROI set is empty after the filter and
    the operator's edits gets no CSV written: its turn of the loop leaves the
    path of its CSV as it was, and so does the whole loop over the folder.
    The summary passes a missing CSV over with the [isfile] test alone: no
    row, no message, no exception.  But a CSV of that name left in
    analysis_v9 by an earlier run is still there when the summary starts,
    and the summary reads it like any other: the image then contributes the
    rows of that file. *)
Theorem empty_image_csv_untouched (w : World F) (f : string) (img : Image F) :
  is_image_file f = true ->
  bioformats w (os_path_join (input_dir w) f) = Some img ->
  rm_rois (surviving img) = [] ->
  (forall h r h', process_image w f h = (r, h') ->
     disk h' !! csv_file_of w f = disk h !! csv_file_of w f) /\
  (forall h r h0 h',
     prepare w h = (Ok tt, h0) ->
     process_images w (os_listdir w) h0 = (r, h') ->
     disk h' !! csv_file_of w f = disk h !! csv_file_of w f) /\
  (forall h, disk h !! csv_file_of w f = None ->
     summarize_file w f h = (Ok tt, logged (IsFile (csv_file_of w f)) h)) /\
  (forall h t, disk h !! csv_file_of w f = Some (Csv t) ->
     exists h',
       summarize_file w f h = (Ok tt, h') /\
       rt_rows (results h') = rt_rows (results h) ++ csv_rows t /\
       rt_size (results h') = (rt_size (results h) + rt_size t)%nat).
Proof.
  intros Hf Hopen Hnone.
  pose proof (process_image_keeps_empty w f img Hopen Hnone) as Hself.
  split; [|split; [|split]].
  - intros h r h' E. exact (Hself _ _ _ E).
  - intros h r h0 h' Eprep Eloop.
    destruct (prepare_result w h) as (h0' & Eprep' & Hframe).
    rewrite Eprep in Eprep'. injection Eprep' as <-.
    assert (Hloop : keeps (disk_at (csv_file_of w f)) (process_images w (os_listdir w))).
    { unfold process_images. apply (keeps_for_each _ _). intros g.
      destruct (decide (g = f)) as [->|Hne]; [exact Hself|].
      apply process_image_keeps_other. exact Hne. }
    apply Hloop in Eloop. unfold disk_at in Eloop. rewrite Eloop. apply Hframe.
    intros E. pose proof (last_char_csv w f) as Hv.
    rewrite E, last_char_analysis_dir in Hv. discriminate.
  - intros h Hd. apply summarize_file_missing; assumption.
  - intros h t Hd.
    destruct (summarize_file_result w f h) as (h' & E & Hrows & _).
    { intros _. rewrite Hd. discriminate. }
    exists h'. split; [exact E|].
    assert (Hsum : summary_rows w (disk h) [f] = csv_rows t).
    { unfold summary_rows. simpl. rewrite Hf, Hd, app_nil_r. reflexivity. }
    rewrite Hsum in Hrows. split; [exact Hrows|].
    unfold rt_size. rewrite Hrows, length_app. unfold csv_rows. rewrite length_map.
    reflexivity.
Qed.

End EmptyImage.

(** ** The nucleus filter *)

Section Filter.

Context {F : Type} {PF : PyFloat F}.

(** [to_be_deleted] holds the positions of the ROIs whose nucleus overlap,
    area times area fraction over 100, is below the threshold. *)
Lemma to_be_deleted_spec (rois : list (Roi F)) (i0 i : nat) :
  i ∈ to_be_deleted_from i0 rois <->
  exists k roi, i = (i0 + k)%nat /\ rois !! k = Some roi /\ below_threshold roi = true.
Proof.
  revert i0. induction rois as [|x rois IH]; intros i0; simpl.
  - split; [intros H; inversion H|intros (k & roi & _ & H & _); discriminate].
  - destruct (below_threshold x) eqn:Ex.
    + rewrite elem_of_cons, IH. split.
      * intros [->|(k & roi & -> & Hk & Hb)].
        -- exists 0%nat, x. split; [lia|]. auto.
        -- exists (S k), roi. split; [lia|]. auto.
      * intros ([|k] & roi & -> & Hk & Hb).
        -- left. lia.
        -- right. exists k, roi. split; [lia|]. auto.
    + rewrite IH. split.
      * intros (k & roi & -> & Hk & Hb). exists (S k), roi. split; [lia|]. auto.
      * intros ([|k] & roi & -> & Hk & Hb).
        -- simpl in Hk. congruence.
        -- exists k, roi. split; [lia|]. auto.
Qed.

Lemma drop_indexes_all {A} (sel : list nat) (l : list A) (i0 : nat) :
  (forall k, (k < length l)%nat -> (i0 + k)%nat ∈ sel) -> drop_indexes sel i0 l = [].
Proof.
  revert i0. induction l as [|x l IH]; intros i0 Hall; [reflexivity|].
  simpl. rewrite bool_decide_eq_true_2.
  - apply IH. intros k Hk. replace (S i0 + k)%nat with (i0 + S k)%nat by lia.
    apply Hall. simpl. lia.
  - replace i0 with (i0 + 0)%nat by lia. apply Hall. simpl. lia.
Qed.

Lemma drop_indexes_filter (sel : list nat) (rois : list (Roi F)) (i0 : nat) :
  (forall k roi, rois !! k = Some roi ->
     ((i0 + k)%nat ∈ sel <-> below_threshold roi = true)) ->
  drop_indexes sel i0 rois = filter (fun roi => below_threshold roi = false) rois.
Proof.
  revert i0. induction rois as [|x rois IH]; intros i0 Hsel; [reflexivity|].
  simpl. rewrite filter_cons.
  assert (Htail : drop_indexes sel (S i0) rois
                  = filter (fun roi => below_threshold roi = false) rois).
  { apply IH. intros k roi Hk. replace (S i0 + k)%nat with (i0 + S k)%nat by lia.
    apply Hsel. exact Hk. }
  pose proof (Hsel 0%nat x eq_refl) as H0. rewrite Nat.add_0_r in H0.
  destruct (below_threshold x) eqn:Ex.
  - rewrite bool_decide_eq_true_2 by (apply H0; reflexivity).
    destruct (decide (true = false)); [discriminate|]. exact Htail.
  - rewrite bool_decide_eq_false_2 by (rewrite H0; discriminate).
    destruct (decide (false = false)); [|contradiction]. rewrite Htail. reflexivity.
Qed.

Lemma nucleus_filtered_rois (m : RoiManager F) :
  rm_rois (nucleus_filtered m) =
  match to_be_deleted_from 0 (rm_rois m) with
  | [] => []
  | _ => filter (fun roi => below_threshold roi = false) (rm_rois m)
  end.
Proof.
  unfold nucleus_filtered, rm_getCount.
  destruct (rm_rois m) as [|x rois] eqn:Erois.
  { simpl. rewrite Erois. reflexivity. }
  change (0 <? length (x :: rois))%nat with true. cbv iota.
  rewrite <- Erois.
  unfold rm_setSelectedIndexes, rm_getCount. rewrite Erois. simpl length. rewrite <- Erois.
  unfold rm_delete, rm_indexes, rm_getCount. simpl rm_rois. simpl rm_selected.
  set (tbd := to_be_deleted_from 0 (rm_rois m)).
  set (n := length (rm_rois m)).
  assert (Hn : n = S (length rois)) by (subst n; rewrite Erois; reflexivity).
  assert (Hsel : forall i, i ∈ (list_to_set (map (Nat.min (length rois)) tbd) : gset nat)
                           <-> i ∈ tbd).
  { intros i. rewrite elem_of_list_to_set, list_elem_of_fmap. split.
    - intros (j & -> & Hj). pose proof Hj as Hj'.
      apply to_be_deleted_spec in Hj' as (k & roi & -> & Hk & _).
      apply lookup_lt_Some in Hk. fold n in Hk.
      replace (Nat.min (length rois) (0 + k)) with (0 + k)%nat by lia. exact Hj.
    - intros Hi. exists i. split; [|exact Hi].
      apply to_be_deleted_spec in Hi as (k & roi & -> & Hk & _).
      apply lookup_lt_Some in Hk. fold n in Hk. lia. }
  destruct tbd as [|j tbd'] eqn:Etbd.
  - simpl map. change (list_to_set []) with (∅ : gset nat).
    match goal with
    | |- context [drop_indexes (match ?t with [] => _ | _ :: _ => _ end)] =>
        assert (Hnone : t = [])
    end.
    { induction (seq 0 n) as [|i l IHl]; [reflexivity|].
      rewrite filter_cons. destruct (decide _) as [Hin|_]; [set_solver|exact IHl]. }
    rewrite Hnone. apply drop_indexes_all. intros k Hk. apply elem_of_seq. lia.
  - rewrite <- Etbd in *.
    assert (Hj : j ∈ tbd) by (rewrite Etbd; left).
    match goal with
    | |- context [drop_indexes (match ?t with [] => _ | _ :: _ => _ end)] =>
        assert (Hidx : forall i, i ∈ t <-> i ∈ tbd); [|set (sel := t) in *]
    end.
    { intros i. rewrite list_elem_of_filter, Hsel, elem_of_seq. split; [tauto|].
      intros Hi. split; [exact Hi|].
      apply to_be_deleted_spec in Hi as (k & roi & -> & Hk & _).
      apply lookup_lt_Some in Hk. fold n in Hk. lia. }
    destruct sel as [|i0 sel'] eqn:Efilter.
    { exfalso. apply Hidx in Hj. inversion Hj. }
    rewrite <- Efilter in *.
    apply drop_indexes_filter. intros k roi Hk. simpl. rewrite Hidx.
    subst tbd. rewrite to_be_deleted_spec. split.
    + intros (k' & roi' & E & Hk' & Hb). simpl in E. subst k'. congruence.
    + intros Hb. exists k, roi. auto.
Qed.

(** X1: the filter marks for deletion exactly the ROIs whose overlap (area of
    the ROI on the nuclei mask times its area fraction over 100) is below
    15, and when at least one ROI is marked the manager keeps the others in
    their order.  But when no ROI is marked, [Delete] runs with an empty
    selection and removes them all. *)
Theorem nucleus_filter_survivors (m : RoiManager F) :
  (forall i, i ∈ to_be_deleted_from 0 (rm_rois m) <->
     exists roi, rm_rois m !! i = Some roi /\
       f_ltb (f_div (f_mul (nuclei_area roi) (nuclei_area_fraction roi)) (of_int 100))
             (of_int 15) = true) /\
  (to_be_deleted_from 0 (rm_rois m) <> [] ->
   rm_rois (nucleus_filtered m) =
   filter (fun roi => below_threshold roi = false) (rm_rois m)) /\
  (to_be_deleted_from 0 (rm_rois m) = [] -> rm_rois (nucleus_filtered m) = []).
Proof.
  split; [|split].
  - intros i. rewrite to_be_deleted_spec. split.
    + intros (k & roi & -> & Hk & Hb). exists roi. auto.
    + intros (roi & Hk & Hb). exists i, roi. auto.
  - intros Hne. rewrite nucleus_filtered_rois.
    destruct (to_be_deleted_from 0 (rm_rois m)); [contradiction|reflexivity].
  - intros Hnil. rewrite nucleus_filtered_rois, Hnil. reflexivity.
Qed.

End Filter.

(** * Further properties of the script *)

(** ** get_cable_length: how it can fail *)

Section CableErrors.

Context {F : Type} {PF : PyFloat F}.

(** X3: [get_cable_length] raises nothing but IndexError, and it raises it
    exactly when the crop has foreground pixels while the skeleton converter
    returned no tree ([trees[0]] of line 88).  In particular the [next] of
    line 94 always finds a tree: StopIteration never leaves the function. *)
Theorem cable_length_raises_only_without_trees (roi : option (Roi F))
  (ip : ImageProcessor F) :
  (forall e, get_cable_length roi ip = Raise e ->
     e = IndexError /\ (0 < raw_max (ip_crop ip roi))%Z /\
     crop_trees (ip_crop ip roi) = []) /\
  ((0 < raw_max (ip_crop ip roi))%Z -> crop_trees (ip_crop ip roi) = [] ->
   get_cable_length roi ip = Raise IndexError).
Proof.
  unfold get_cable_length. split.
  - intros e. destruct (0 <? raw_max (ip_crop ip roi))%Z eqn:Emax; [|discriminate].
    apply Z.ltb_lt in Emax.
    destruct (crop_trees (ip_crop ip roi)) as [|t trees] eqn:Et.
    + intros [= <-]. auto.
    + cbn [obind]. destruct (1 <? length (t :: trees))%nat; [|discriminate].
      destruct (first_largest_selected (t :: trees)) as (u & _ & ->); discriminate.
  - intros Hmax Et. apply Z.ltb_lt in Hmax. rewrite Hmax, Et. reflexivity.
Qed.

End CableErrors.

(** ** Which files of the folder are images *)

Section Suffix.

Context {F : Type} {PF : PyFloat F}.

Lemma substring_all (s : string) : substring 0 (String.length s) s = s.
Proof. induction s as [|c s IH]; simpl; [reflexivity|]. rewrite IH. reflexivity. Qed.

Lemma substring_append (pre suf : string) :
  substring (String.length pre) (String.length suf) (pre +:+ suf) = suf.
Proof.
  induction pre as [|c pre IH]; simpl.
  - apply substring_all.
  - exact IH.
Qed.

Lemma substring_split (s : string) (m : nat) :
  (m <= String.length s)%nat ->
  s = substring 0 m s +:+ substring m (String.length s - m) s.
Proof.
  revert m. induction s as [|c s IH]; intros m Hm; simpl in *.
  - destruct m; [reflexivity|lia].
  - destruct m as [|m]; simpl.
    + rewrite substring_all. reflexivity.
    + rewrite append_cons. f_equal. apply IH. lia.
Qed.

Lemma endswith_iff (s suffix : string) :
  endswith s suffix = true <-> exists base, s = base +:+ suffix.
Proof.
  unfold endswith. rewrite andb_true_iff, Nat.leb_le, String.eqb_eq. split.
  - intros [Hle Hsub]. exists (substring 0 (String.length s - String.length suffix) s).
    pose proof (substring_split s (String.length s - String.length suffix)) as H.
    replace (String.length s - (String.length s - String.length suffix))%nat
      with (String.length suffix) in H by lia.
    rewrite Hsub in H. apply H. lia.
  - intros [base ->]. rewrite append_length. split; [lia|].
    replace (String.length base + String.length suffix - String.length suffix)%nat
      with (String.length base) by lia.
    apply substring_append.
Qed.

(** X8: the test of lines 134 and 310 accepts a name exactly when it is
    some text, possibly empty, followed by ".nd2" or by ".tif", in this
    very spelling. *)
Theorem image_file_suffix (file_name : string) :
  is_image_file file_name = true <->
  exists base, file_name = base +:+ ".nd2" \/ file_name = base +:+ ".tif".
Proof.
  unfold is_image_file. rewrite orb_true_iff, !endswith_iff. split.
  - intros [[b ->]|[b ->]]; exists b; auto.
  - intros [b [->| ->]]; [left|right]; exists b; reflexivity.
Qed.

Lemma for_each_skips {X} (P : X -> Prop) `{!forall x, Decision (P x)}
  (body : X -> M F unit) (xs : list X) (h : Host F) :
  (forall x h, ~ P x -> body x h = (Ok tt, h)) ->
  for_each xs body h = for_each (filter P xs) body h.
Proof.
  intros Hskip. revert h. induction xs as [|x xs IH]; intros h; [reflexivity|].
  rewrite filter_cons. destruct (decide (P x)) as [Hx|Hx].
  - cbn [for_each]. unfold bind. destruct (body x h) as [[[]|e] h1]; [apply IH|reflexivity].
  - cbn [for_each]. unfold bind. rewrite (Hskip x h Hx). apply IH.
Qed.

Lemma summarize_file_skips (w : World F) (f : string) (h : Host F) :
  is_image_file f = false -> summarize_file w f h = (Ok tt, h).
Proof. intros Hf. unfold summarize_file. rewrite Hf. reflexivity. Qed.

(** X9: the names of the listing that do not pass the test play no part:
    the run over a folder is the run over the same folder listed with its
    image files only, with the same outcome and the same final host. *)
Theorem other_files_ignored (w : World F) (h : Host F) :
  main w h = main (with_listing w (image_files (os_listdir w))) h.
Proof.
  rewrite !main_unfold.
  change (prepare (with_listing w (image_files (os_listdir w))) h) with (prepare w h).
  destruct (prepare w h) as [[[]|e] h0]; [|reflexivity].
  assert (Hloop : process_images (with_listing w (image_files (os_listdir w)))
                    (os_listdir (with_listing w (image_files (os_listdir w)))) h0
                  = process_images w (os_listdir w) h0).
  { symmetry. unfold process_images. simpl.
    apply (for_each_skips (fun f => is_image_file f = true)).
    intros f h' Hf. apply process_image_skips. destruct (is_image_file f); congruence. }
  rewrite Hloop.
  destruct (process_images w (os_listdir w) h0) as [[[]|e] h1]; [|reflexivity].
  assert (Hsum : folder_summary (with_listing w (image_files (os_listdir w))) h1
                 = folder_summary w h1).
  { unfold folder_summary.
    change (os_listdir (with_listing w (image_files (os_listdir w))))
      with (image_files (os_listdir w)).
    change (summarize_file (with_listing w (image_files (os_listdir w))))
      with (summarize_file w).
    cbv beta iota zeta delta [bind run emit set_results].
    rewrite (for_each_skips (fun f => is_image_file f = true) (summarize_file w)
               (os_listdir w)); [reflexivity|].
    intros f h' Hf. apply summarize_file_skips. destruct (is_image_file f); congruence. }
  rewrite Hsum. reflexivity.
Qed.

End Suffix.

(** ** The table that is saved *)

Section Rows.

Context {F : Type} {PF : PyFloat F}.

Lemma filter_length_eq {A} (P : A -> Prop) `{!forall x, Decision (P x)} (l : list A) :
  length (filter P l) = length l -> filter P l = l.
Proof.
  induction l as [|x l IH]; [reflexivity|]. rewrite filter_cons.
  destruct (decide (P x)); simpl; intros Hlen.
  - f_equal. apply IH. lia.
  - pose proof (length_filter P l). lia.
Qed.

Lemma rm_indexes_all (m : RoiManager F) :
  length (rm_indexes m) = rm_getCount m -> rm_indexes m = seq 0 (rm_getCount m).
Proof.
  unfold rm_indexes. destruct (filter _ _) as [|i sel] eqn:E; [reflexivity|].
  rewrite <- E. intros Hlen. apply filter_length_eq. rewrite Hlen, length_seq. reflexivity.
Qed.

Lemma rm_measure_label (title : string) (m : RoiManager F) (k i : nat) (roi : Roi F) :
  rm_indexes m !! k = Some i -> rm_getRoi i m = Some roi ->
  rt_getLabel k (rm_measure title m rt_empty) = Ok (title +:+ ":" +:+ roi_name roi).
Proof.
  intros Hk Hroi.
  assert (Hl : map row_label (rt_rows (rm_measure title m rt_empty)) !! k
               = Some (title +:+ ":" +:+ roi_name roi)).
  { rewrite rm_measure_labels. unfold measured_rois.
    pose proof (rm_indexes_valid m) as Hvalid. revert k Hk.
    set (f := fun i => rm_getRoi i m).
    induction Hvalid as [|j l Hj _ IH]; intros k Hk; [discriminate|].
    destruct (lookup_lt_is_Some_2 (rm_rois m) j Hj) as [r Er].
    assert (Hf : f j = Some r) by exact Er.
    change (omap f (j :: l))
      with (match f j with Some y => y :: omap f l | None => omap f l end).
    rewrite Hf. destruct k as [|k]; simpl in Hk |- *.
    - injection Hk as ->. unfold rm_getRoi in Hroi. congruence.
    - apply IH. exact Hk. }
  unfold rt_getLabel. rewrite list_lookup_fmap in Hl.
  destruct (rt_rows _ !! k) as [r|]; [|discriminate].
  simpl in Hl. congruence.
Qed.

Lemma rt_getLabel_labels (t t' : ResultsTable F) (k : nat) :
  map row_label (rt_rows t') = map row_label (rt_rows t) ->
  rt_getLabel k t' = rt_getLabel k t.
Proof.
  intros Hl. unfold rt_getLabel.
  assert (H : row_label <$> rt_rows t' !! k = row_label <$> rt_rows t !! k).
  { rewrite <- !list_lookup_fmap. f_equal. exact Hl. }
  destruct (rt_rows t' !! k), (rt_rows t !! k); simpl in H; congruence.
Qed.

Lemma rt_setValue_row_kept (col c : string) (row i : nat) (v x : F)
  (t t' : ResultsTable F) :
  rt_setValue col row v t = Ok t' -> i <> row ->
  rt_getValue c i t = Ok x -> rt_getValue c i t' = Ok x.
Proof.
  unfold rt_setValue, rt_getValue.
  destruct (rt_rows t !! row) as [r|] eqn:Er; [|discriminate].
  intros [= <-] Hne. simpl.
  case_bool_decide as Hc; [|discriminate].
  rewrite bool_decide_eq_true_2 by (apply elem_of_add_column; auto).
  rewrite list_lookup_insert_ne by congruence. auto.
Qed.

Lemma rt_setValue_columns (col : string) (row : nat) (v : F) (t t' : ResultsTable F) :
  rt_setValue col row v t = Ok t' -> rt_columns t' = add_column col (rt_columns t).
Proof.
  unfold rt_setValue. destruct (rt_rows t !! row); [|discriminate].
  intros [= <-]. reflexivity.
Qed.

Lemma rt_deleteColumn_other (col c : string) (i : nat) (t t' : ResultsTable F) :
  rt_deleteColumn col t = Ok t' -> c <> col ->
  rt_getValue c i t' = rt_getValue c i t.
Proof.
  unfold rt_deleteColumn, rt_getValue. case_bool_decide; [|discriminate].
  intros [= <-] Hne. simpl.
  assert (Hb : bool_decide (c ∈ filter (fun c0 => c0 <> col) (rt_columns t))
               = bool_decide (c ∈ rt_columns t)).
  { apply bool_decide_ext. rewrite list_elem_of_filter. tauto. }
  rewrite Hb. destruct (bool_decide (c ∈ rt_columns t)); [|reflexivity].
  rewrite list_lookup_fmap. destruct (rt_rows t !! i) as [r|]; simpl; [|reflexivity].
  rewrite lookup_delete_ne by congruence. reflexivity.
Qed.

Lemma rt_deleteColumn_columns (col : string) (t t' : ResultsTable F) :
  rt_deleteColumn col t = Ok t' ->
  rt_columns t' = filter (fun c => c <> col) (rt_columns t).
Proof.
  unfold rt_deleteColumn. case_bool_decide; [|discriminate]. intros [= <-]. reflexivity.
Qed.

(** One turn of the loop that completes: what it read and what it stored. *)
Lemma measure_ri_completed (ip : ImageProcessor F) (row : nat) (h h' : Host F) :
  measure_ri ip row h = (Ok tt, h') ->
  exists perimeter area ri cl,
    rt_getValue "Perim." row (results h) = Ok perimeter /\
    rt_getValue "Area" row (results h) = Ok area /\
    ri_formula perimeter area = Ok ri /\
    f_leb (of_int 1) ri = true /\
    get_cable_length (rm_getRoi row (rm h)) ip = Ok cl /\
    rt_getValue "RI" row (results h') = Ok ri /\
    rt_getValue "Cable_Length" row (results h') = Ok cl /\
    rt_columns (results h') =
      add_column "Cable_Length" (add_column "RI" (rt_columns (results h))).
Proof.
  unfold measure_ri, bind.
  destruct (ri_step row h) as [[[]|e] h1] eqn:E1; [|discriminate].
  pose proof (ri_step_frame _ _ _ _ E1) as (Hrm & _).
  assert (Hcols : rt_columns (results h1) = add_column "RI" (rt_columns (results h))).
  { revert E1. rewrite ri_step_unfold.
    destruct (rt_getValue "Perim." row (results h)); [|discriminate].
    destruct (rt_getValue "Area" row (results h)); [|discriminate].
    destruct (ri_formula a a0); [|discriminate].
    destruct (f_leb (of_int 1) a1); [|discriminate].
    destruct (rt_setValue "RI" row a1 (results h)) as [t'|] eqn:Eset; [|discriminate].
    intros [= <-]. simpl. eapply rt_setValue_columns; eauto. }
  apply ri_step_completed in E1 as (p & a & ri & Hp & Ha & Hri & Hle & Hget).
  rewrite cable_step_unfold.
  destruct (rt_size (results h1) =? rm_getCount (rm h1))%nat; [|discriminate].
  destruct (get_cable_length (rm_getRoi row (rm h1)) ip) as [cl|] eqn:Ecl; [|discriminate].
  destruct (rt_setValue "Cable_Length" row cl (results h1)) as [t'|] eqn:Eset; [|discriminate].
  intros [= <-]. exists p, a, ri, cl. simpl.
  rewrite <- Hrm. repeat split; auto.
  - rewrite (rt_setValue_other _ _ _ _ _ _ _ Eset) by discriminate. exact Hget.
  - eapply rt_setValue_same; eauto.
  - rewrite (rt_setValue_columns _ _ _ _ _ Eset), Hcols. reflexivity.
Qed.

(** A turn of the loop leaves the cells of the other rows as they are. *)
Lemma measure_ri_row_kept (ip : ImageProcessor F) (row i : nat) (c : string) (x : F)
  (h h' : Host F) (r : outcome F unit) :
  measure_ri ip row h = (r, h') -> i <> row ->
  rt_getValue c i (results h) = Ok x -> rt_getValue c i (results h') = Ok x.
Proof.
  intros E Hne Hx. revert E. unfold measure_ri, bind.
  assert (H1 : forall r1 h1, ri_step row h = (r1, h1) -> rt_getValue c i (results h1) = Ok x).
  { intros r1 h1. rewrite ri_step_unfold.
    destruct (rt_getValue "Perim." row (results h)); [|intros [= <- <-]; exact Hx].
    destruct (rt_getValue "Area" row (results h)); [|intros [= <- <-]; exact Hx].
    destruct (ri_formula a a0); [|intros [= <- <-]; exact Hx].
    destruct (f_leb (of_int 1) a1); [|intros [= <- <-]; exact Hx].
    destruct (rt_setValue "RI" row a1 (results h)) as [t'|] eqn:Eset;
      intros [= <- <-]; [|exact Hx].
    simpl. eapply rt_setValue_row_kept; eauto. }
  destruct (ri_step row h) as [[[]|e] h1] eqn:E1.
  - specialize (H1 _ _ eq_refl). rewrite cable_step_unfold.
    destruct (rt_size (results h1) =? rm_getCount (rm h1))%nat;
      [|intros [= <- <-]; exact H1].
    destruct (get_cable_length (rm_getRoi row (rm h1)) ip); [|intros [= <- <-]; exact H1].
    destruct (rt_setValue "Cable_Length" row a (results h1)) as [t'|] eqn:Eset;
      intros [= <- <-]; [|exact H1].
    simpl. eapply rt_setValue_row_kept; eauto.
  - intros [= <- <-]. eapply H1; eauto.
Qed.

Lemma measure_loop_row_kept (ip : ImageProcessor F) (i : nat) (c : string) (x : F) :
  forall xs h h' r,
    for_each xs (measure_ri ip) h = (r, h') -> i ∉ xs ->
    rt_getValue c i (results h) = Ok x -> rt_getValue c i (results h') = Ok x.
Proof.
  induction xs as [|row xs IH]; intros h h' r E Hi Hx.
  - injection E as <- <-. exact Hx.
  - cbn [for_each] in E. unfold bind in E.
    apply not_elem_of_cons in Hi as [Hne Hi].
    destruct (measure_ri ip row h) as [[[]|e] h1] eqn:E1.
    + eapply IH; eauto. eapply measure_ri_row_kept; eauto.
    + injection E as <- <-. eapply measure_ri_row_kept; eauto.
Qed.

(** The loop over the rows, when it completes: every row it went through
    holds the RI computed from its own perimeter and area, which passed the
    test, and the cable length of the ROI at the row's position. *)
Lemma measure_loop_rows (ip : ImageProcessor F) :
  forall n a h h',
    for_each (seq a n) (measure_ri ip) h = (Ok tt, h') ->
    forall k, (a <= k < a + n)%nat ->
      exists perimeter area ri cl,
        rt_getValue "Perim." k (results h) = Ok perimeter /\
        rt_getValue "Area" k (results h) = Ok area /\
        ri_formula perimeter area = Ok ri /\
        f_leb (of_int 1) ri = true /\
        get_cable_length (rm_getRoi k (rm h)) ip = Ok cl /\
        rt_getValue "RI" k (results h') = Ok ri /\
        rt_getValue "Cable_Length" k (results h') = Ok cl.
Proof.
  induction n as [|n IH]; intros a h h' E k Hk; [lia|].
  cbn [seq for_each] in E. unfold bind in E.
  destruct (measure_ri ip a h) as [[[]|e] h1] eqn:E1; [|discriminate].
  destruct (decide (k = a)) as [->|Hne].
  - apply measure_ri_completed in E1
      as (p & ar & ri & cl & Hp & Ha & Hri & Hle & Hcl & Hget & Hgetc & _).
    exists p, ar, ri, cl. repeat split; auto.
    + eapply measure_loop_row_kept; eauto. intros Hin. apply elem_of_seq in Hin. lia.
    + eapply measure_loop_row_kept; eauto. intros Hin. apply elem_of_seq in Hin. lia.
  - pose proof (measure_ri_frame _ _ _ _ _ E1) as (Hrm & _ & _ & _ & _ & Hsame).
    destruct (IH (S a) h1 h' E k) as (p & ar & ri & cl & Hp & Ha & Hri & Hle & Hcl & Hget);
      [lia|].
    exists p, ar, ri, cl.
    rewrite Hsame in Hp by discriminate. rewrite Hsame in Ha by discriminate.
    rewrite Hrm in Hcl. repeat split; tauto.
Qed.

Lemma measure_loop_columns (ip : ImageProcessor F) :
  forall n a h h',
    for_each (seq a n) (measure_ri ip) h = (Ok tt, h') ->
    (rt_columns (results h) = loop_columns \/
     ((0 < n)%nat /\ rt_columns (results h) = ["Area"; "Perim."; "%Area"])) ->
    rt_columns (results h') = loop_columns.
Proof.
  induction n as [|n IH]; intros a h h' E Hc.
  - injection E as <-. destruct Hc as [Hc|[Hn _]]; [exact Hc|lia].
  - cbn [seq for_each] in E. unfold bind in E.
    destruct (measure_ri ip a h) as [[[]|e] h1] eqn:E1; [|discriminate].
    apply (IH (S a) h1 h' E). left.
    apply measure_ri_completed in E1 as (p & ar & ri & cl & _ & _ & _ & _ & _ & _ & _ & ->).
    destruct Hc as [->|[_ ->]]; reflexivity.
Qed.

(** The measurements of an image, when they complete: the table that is
    saved has one row per ROI of the manager, in the manager's order. *)
Lemma measure_completed_table (w : World F) (img : Image F) (f : string) (h h' : Host F) :
  (0 < rm_getCount (rm h))%nat ->
  measure w img f h = (Ok tt, h') ->
  exists t h1,
    h' = exported w f t h1 /\ rm h1 = rm h /\ disk h1 = disk h /\
    rt_size t = rm_getCount (rm h) /\
    rt_columns t = ["Area"; "Perim."; "RI"; "Cable_Length"] /\
    forall k roi, rm_getRoi k (rm h) = Some roi ->
      rt_getLabel k t = Ok ("microglia_mask:" +:+ roi_name roi) /\
      rt_getValue "Area" k t = Ok (mask_area roi) /\
      rt_getValue "Perim." k t = Ok (mask_perim roi) /\
      (exists ri,
         ri_formula (mask_perim roi) (mask_area roi) = Ok ri /\
         f_leb (of_int 1) ri = true /\
         rt_getValue "RI" k t = Ok ri) /\
      (exists cl,
         get_cable_length (Some roi) (img_mask img) = Ok cl /\
         rt_getValue "Cable_Length" k t = Ok cl).
Proof.
  intros Hpos Hm.
  destruct (measure_completed w img f h h' Hpos Hm) as (h1 & t & Eloop & Edel & ->).
  pose proof (measure_loop_frame _ _ _ _ _ Eloop) as (Hrm & Hdisk & _ & Hsz & Hlab & Hsame).
  change (rm (measured h)) with (rm h) in Hrm.
  change (disk (measured h)) with (disk h) in Hdisk.
  pose proof (measured_size h) as Hsize.
  pose proof (rm_indexes_nonempty (rm h) Hpos) as Hne.
  assert (Hcount : rt_size (results h1) = rm_getCount (rm h)).
  { destruct (rt_size (results (measured h))) as [|n] eqn:En.
    { destruct (rm_indexes (rm h)); [congruence|discriminate]. }
    rewrite seq_snoc in Eloop. apply for_each_last in Eloop as [h0 Elast].
    apply measure_ri_checked in Elast. congruence. }
  assert (Hall : rm_indexes (rm h) = seq 0 (rm_getCount (rm h))).
  { apply rm_indexes_all. congruence. }
  exists t, h1. split; [reflexivity|]. split; [exact Hrm|]. split; [exact Hdisk|].
  split; [rewrite (rt_deleteColumn_size _ _ _ Edel); exact Hcount|].
  split.
  - rewrite (rt_deleteColumn_columns _ _ _ Edel).
    rewrite (measure_loop_columns _ _ _ _ _ Eloop); [reflexivity|].
    right. split; [rewrite Hsize; destruct (rm_indexes (rm h)); [congruence|simpl; lia]|].
    pose proof (rm_measure_size "microglia_mask" (rm h)) as Hms.
    simpl. unfold rm_measure in *.
    destruct (omap _ (rm_indexes (rm h))) as [|r rows]; [|reflexivity].
    simpl in Hms. destruct (rm_indexes (rm h)); [congruence|discriminate].
  - intros k roi Hroi.
    assert (Hk : (k < rm_getCount (rm h))%nat).
    { unfold rm_getRoi in Hroi. apply lookup_lt_Some in Hroi. exact Hroi. }
    assert (Hidx : rm_indexes (rm h) !! k = Some k).
    { rewrite Hall. apply lookup_seq_lt. exact Hk. }
    destruct (rm_measure_row "microglia_mask" (rm h) k k roi Hidx Hroi) as [Ha Hp].
    pose proof (rm_measure_label "microglia_mask" (rm h) k k roi Hidx Hroi) as Hl.
    destruct (measure_loop_rows _ _ _ _ _ Eloop k)
      as (p & ar & ri & cl & Hp' & Ha' & Hri & Hle & Hcl & Hget & Hgetc).
    { rewrite Hsz in Hcount. lia. }
    change (results (measured h)) with (rm_measure "microglia_mask" (rm h) rt_empty) in *.
    change (rm (measured h)) with (rm h) in Hcl.
    assert (p = mask_perim roi) as -> by congruence.
    assert (ar = mask_area roi) as -> by congruence.
    rewrite Hroi in Hcl.
    rewrite !(rt_deleteColumn_other _ _ _ _ _ Edel) by discriminate.
    rewrite (rt_getLabel_labels _ _ _ (rt_deleteColumn_labels _ _ _ Edel)).
    rewrite (rt_getLabel_labels _ _ _ Hlab).
    rewrite !Hsame by discriminate.
    split; [exact Hl|]. split; [exact Ha|]. split; [exact Hp|].
    split; [exists ri; auto|exists cl; auto].
Qed.

(** X10: when the measurements of an image complete, its CSV has the
    columns Area, Perim., RI and Cable_Length (no "%Area") and one row per
    ROI of the manager, in the manager's order.  Row k carries the label,
    the area and the perimeter measured for the k-th ROI, the RI computed
    from these two, which passed the test of line 265, and the value
    [get_cable_length] returned for that ROI. *)
Theorem csv_describes_rois (w : World F) (img : Image F) (f : string) (h h' : Host F) :
  (0 < rm_getCount (rm h))%nat ->
  measure w img f h = (Ok tt, h') ->
  exists t,
    disk h' !! csv_file_of w f = Some (Csv t) /\
    rt_columns t = ["Area"; "Perim."; "RI"; "Cable_Length"] /\
    rt_size t = rm_getCount (rm h) /\
    forall k roi, rm_getRoi k (rm h) = Some roi ->
      rt_getLabel k t = Ok ("microglia_mask:" +:+ roi_name roi) /\
      rt_getValue "Area" k t = Ok (mask_area roi) /\
      rt_getValue "Perim." k t = Ok (mask_perim roi) /\
      (exists ri,
         ri_formula (mask_perim roi) (mask_area roi) = Ok ri /\
         f_leb (of_int 1) ri = true /\
         rt_getValue "RI" k t = Ok ri) /\
      (exists cl,
         get_cable_length (Some roi) (img_mask img) = Ok cl /\
         rt_getValue "Cable_Length" k t = Ok cl).
Proof.
  intros Hpos Hm.
  destruct (measure_completed_table w img f h h' Hpos Hm)
    as (t & h1 & -> & _ & _ & Hsize & Hcols & Hrows).
  exists t. split; [|split; [exact Hcols|split; [exact Hsize|exact Hrows]]].
  simpl. rewrite lookup_insert_ne by apply csv_not_xlsx. apply lookup_insert_eq.
Qed.

End Rows.

(** ** The assertion on RI and the CSV *)

Section RIAssertion.

Context {F : Type} {PF : PyFloat F}.




End RIAssertion.

(** ** What a turn of the loop leaves on disk *)

Section Turn.

Context {F : Type} {PF : PyFloat F}.

#[local] Existing Instance disk_at_frame.

Lemma bind_ok {A B} (m : M F A) (k : A -> M F B) (h : Host F) (a : A) (h' : Host F) :
  m h = (Ok a, h') -> bind m k h = k a h'.
Proof. intros E. unfold bind. rewrite E. reflexivity. Qed.

Lemma save_images_eq (w : World F) (f : string) (h : Host F) :
  save_images w f h = (Ok tt, images_saved w f h).
Proof. reflexivity. Qed.

Lemma segment_nuclei_result (img : Image F) (h : Host F) :
  exists h', segment_nuclei img h = (Ok tt, h') /\ rm h' = rm h /\ disk h' = disk h.
Proof.
  unfold segment_nuclei. destruct (img_nuclei_inverted img);
    eexists; (split; [reflexivity|]); split; reflexivity.
Qed.

Lemma classify_result (w : World F) (f path : string) (h : Host F) :
  model_exists w = true ->
  exists h', classify w f path h = (Ok tt, h') /\ rm h' = rm h /\ disk h' = disk h.
Proof.
  intros Hm. unfold classify, DEBUG. cbn [negb]. cbv iota.
  cbv beta iota zeta delta [bind call run emit lift py_assert]. rewrite Hm.
  eexists. split; [reflexivity|]. split; reflexivity.
Qed.

(** A turn of the loop for an image that opens while the model is there:
    the stages up to the mask leave the disk alone and the surviving ROIs in
    the manager; the measurements and the overview images follow. *)
Lemma process_image_stages (w : World F) (f : string) (img : Image F) (h : Host F) :
  is_image_file f = true ->
  bioformats w (os_path_join (input_dir w) f) = Some img ->
  model_exists w = true ->
  exists h4,
    rm h4 = surviving img /\ disk h4 = disk h /\
    process_image w f h =
    match measure w img f h4 with
    | (Ok _, h5) => (Ok tt, images_saved w f h5)
    | (Raise e, h5) => (Raise e, h5)
    end.
Proof.
  intros Hf Hopen Hmodel. unfold process_image. rewrite Hf, Hopen. cbn [negb].
  rewrite (bind_ok _ _ _ _ _ (eq_refl : set_rm rm_reset h = (Ok tt, _))).
  rewrite (bind_ok _ _ _ _ _ (eq_refl : run _ _ _ = (Ok tt, _))).
  rewrite (bind_ok _ _ _ _ _ (eq_refl : run _ _ _ = (Ok tt, _))).
  rewrite (bind_ok _ _ _ _ _ (eq_refl : call _ _ _ = (Ok tt, _))).
  set (h0 := logged (Call "setTitle" "MIP") _).
  destruct (segment_nuclei_result img h0) as (h1 & E1 & Hrm1 & Hd1).
  destruct (classify_result w f (os_path_join (input_dir w) f) h1 Hmodel)
    as (h2 & E2 & Hrm2 & Hd2).
  destruct (extract_candidates_result img h2) as (h3 & E3 & Hrm3 & Hd3).
  destruct (nucleus_filter_result h3) as (h4 & E4 & Hrm4 & Hd4).
  destruct (user_interaction_result img h4) as (h5 & E5 & Hrm5 & Hd5).
  destruct (make_mask_result h5) as (h6 & E6 & Hrm6 & Hd6).
  exists h6. split; [|split].
  - unfold surviving. congruence.
  - rewrite Hd6, Hd5, Hd4, Hd3, Hd2, Hd1. reflexivity.
  - rewrite (bind_ok _ _ _ _ _ E1), (bind_ok _ _ _ _ _ E2), (bind_ok _ _ _ _ _ E3),
      (bind_ok _ _ _ _ _ E4), (bind_ok _ _ _ _ _ E5), (bind_ok _ _ _ _ _ E6).
    unfold bind. destruct (measure w img f h6) as [[[]|e] h7]; reflexivity.
Qed.

Lemma measure_raises_disk (w : World F) (img : Image F) (f : string) (h h' : Host F)
  (e : exn F) :
  measure w img f h = (Raise e, h') -> disk h' = disk h.
Proof.
  rewrite measure_eq. destruct (0 <? rm_getCount (rm h))%nat; [|discriminate].
  destruct (for_each _ _ (measured h)) as [[[]|e1] h1] eqn:Eloop.
  - apply measure_loop_frame in Eloop as (_ & Hd & _).
    rewrite export_results_eq.
    destruct (rt_deleteColumn "%Area" (results h1)); [discriminate|].
    intros [= _ <-]. exact Hd.
  - apply measure_loop_frame in Eloop as (_ & Hd & _). intros [= _ <-]. exact Hd.
Qed.

(** A turn that ends in an exception has written nothing. *)
Lemma process_image_raises_disk (w : World F) (f : string) (h h' : Host F) (e : exn F) :
  process_image w f h = (Raise e, h') -> disk h' = disk h.
Proof.
  destruct (is_image_file f) eqn:Hf.
  2:{ rewrite process_image_skips by exact Hf. discriminate. }
  destruct (bioformats w (os_path_join (input_dir w) f)) as [img|] eqn:Hopen.
  2:{ rewrite process_image_unopened by assumption. intros [= _ <-]. reflexivity. }
  destruct (model_exists w) eqn:Hmodel.
  - destruct (process_image_stages w f img h Hf Hopen Hmodel) as (h4 & _ & Hd & ->).
    destruct (measure w img f h4) as [[[]|e1] h5] eqn:Em; [discriminate|].
    intros [= _ <-]. apply measure_raises_disk in Em. congruence.
  - destruct (process_image_model_missing w f img h Hf Hopen Hmodel) as (h1 & -> & _ & Hd).
    intros [= _ <-]. exact Hd.
Qed.

(** X11: the outputs of an image are all or nothing.  Measurements that end
    in an exception have written no file, and a turn of the loop that ends
    in an exception, whichever it is, leaves the disk as it found it: the
    CSV, the Excel file and the two overview images are written only after
    every row has passed. *)
Theorem image_outputs_all_or_nothing (w : World F) (f : string) (h h' : Host F)
  (e : exn F) :
  (forall img, measure w img f h = (Raise e, h') -> disk h' = disk h) /\
  (process_image w f h = (Raise e, h') -> disk h' = disk h).
Proof.
  split.
  - intros img. apply measure_raises_disk.
  - apply process_image_raises_disk.
Qed.

Lemma measure_disk (w : World F) (img : Image F) (f : string) (h h' : Host F) :
  measure w img f h = (Ok tt, h') ->
  rm h' = rm h /\
  ((rm_rois (rm h) = [] /\ disk h' = disk h) \/
   (rm_rois (rm h) <> [] /\
    exists t, disk h' = <[xlsx_file_of w f := Blob]> (<[csv_file_of w f := Csv t]> (disk h)) /\
              rt_size t = rm_getCount (rm h))).
Proof.
  intros Hm. destruct (rm_rois (rm h)) as [|roi rois] eqn:Hrois.
  - rewrite measure_nothing in Hm by exact Hrois. injection Hm as <-. auto.
  - assert (Hpos : (0 < rm_getCount (rm h))%nat) by (unfold rm_getCount; rewrite Hrois; simpl; lia).
    destruct (measure_completed_table w img f h h' Hpos Hm)
      as (t & h1 & -> & Hrm & Hd & Hsize & _).
    split; [exact Hrm|]. right. split; [discriminate|]. exists t. simpl.
    rewrite Hd. split; [reflexivity|exact Hsize].
Qed.

Lemma outputs_last_char (w : World F) (f p : string) :
  p ∈ outputs w f ->
  last_char p = Some "v"%char \/ last_char p = Some "x"%char \/
  last_char p = Some "f"%char \/ last_char p = Some "g"%char.
Proof.
  unfold outputs. rewrite !elem_of_cons, elem_of_nil.
  intros [->|[->|[->|[->|[]]]]].
  - left. apply last_char_csv.
  - right. left. apply last_char_xlsx.
  - right. right. left. apply last_char_tif.
  - right. right. right. apply last_char_png.
Qed.

(** X12: a turn of the loop that completes for an image file has written
    the two overview images; it has written the Excel file and a CSV with
    one row per surviving ROI when there is at least one, and has left the
    paths of both alone when there is none; no other path has changed. *)
Theorem turn_outputs (w : World F) (f : string) (h h' : Host F) :
  is_image_file f = true ->
  process_image w f h = (Ok tt, h') ->
  exists img,
    bioformats w (os_path_join (input_dir w) f) = Some img /\
    disk h' !! tif_file_of w f = Some Blob /\
    disk h' !! png_file_of w f = Some Blob /\
    (rm_rois (surviving img) = [] ->
       disk h' !! csv_file_of w f = disk h !! csv_file_of w f /\
       disk h' !! xlsx_file_of w f = disk h !! xlsx_file_of w f) /\
    (rm_rois (surviving img) <> [] ->
       disk h' !! xlsx_file_of w f = Some Blob /\
       exists t, disk h' !! csv_file_of w f = Some (Csv t) /\
                 rt_size t = length (rm_rois (surviving img))) /\
    (forall p, p ∉ outputs w f -> disk h' !! p = disk h !! p).
Proof.
  intros Hf Hturn.
  pose proof (last_char_csv w f) as Hv. pose proof (last_char_xlsx w f) as Hx.
  pose proof (last_char_tif w f) as Ht. pose proof (last_char_png w f) as Hg.
  fold (xlsx_file_of w f) in Hx. fold (tif_file_of w f) in Ht. fold (png_file_of w f) in Hg.
  assert (Hcx : csv_file_of w f <> xlsx_file_of w f) by congruence.
  assert (Hct : csv_file_of w f <> tif_file_of w f) by congruence.
  assert (Hcg : csv_file_of w f <> png_file_of w f) by congruence.
  assert (Hxt : xlsx_file_of w f <> tif_file_of w f) by congruence.
  assert (Hxg : xlsx_file_of w f <> png_file_of w f) by congruence.
  assert (Htg : tif_file_of w f <> png_file_of w f) by congruence.
  destruct (bioformats w (os_path_join (input_dir w) f)) as [img|] eqn:Hopen.
  2:{ rewrite process_image_unopened in Hturn by assumption. discriminate. }
  destruct (model_exists w) eqn:Hmodel.
  2:{ destruct (process_image_model_missing w f img h Hf Hopen Hmodel) as (h1 & E & _).
      congruence. }
  destruct (process_image_stages w f img h Hf Hopen Hmodel) as (h4 & Hrm & Hd & E).
  rewrite E in Hturn.
  destruct (measure w img f h4) as [[[]|e1] h5] eqn:Em; [|discriminate].
  injection Hturn as <-.
  apply measure_disk in Em as (_ & Hcases). rewrite Hrm, Hd in Hcases.
  exists img. split; [reflexivity|].
  change (disk (images_saved w f h5))
    with (<[png_file_of w f := Blob]> (<[tif_file_of w f := Blob]> (disk h5))).
  split; [rewrite lookup_insert_ne by congruence; apply lookup_insert_eq|].
  split; [apply lookup_insert_eq|].
  split; [|split].
  - intros Hnone. destruct Hcases as [[_ ->]|[Hne _]]; [|contradiction].
    rewrite !lookup_insert_ne by congruence. auto.
  - intros Hsome. destruct Hcases as [[Hnone _]|(_ & t & -> & Hsize)]; [contradiction|].
    split.
    + rewrite !lookup_insert_ne by congruence. apply lookup_insert_eq.
    + exists t. split; [|exact Hsize].
      rewrite !lookup_insert_ne by congruence. apply lookup_insert_eq.
  - intros p Hp. unfold outputs in Hp.
    rewrite !not_elem_of_cons in Hp. destruct Hp as (Hp1 & Hp2 & Hp3 & Hp4 & _).
    rewrite !lookup_insert_ne by congruence.
    destruct Hcases as [[_ ->]|(_ & t & -> & _)]; [reflexivity|].
    rewrite !lookup_insert_ne by congruence. reflexivity.
Qed.

Lemma keeps_for_each_in {X} (I : Host F -> Host F -> Prop) (writable : string -> Prop)
  `{!Frame I writable} (xs : list X) (body : X -> M F unit) :
  (forall x, x ∈ xs -> keeps I (body x)) -> keeps I (for_each xs body).
Proof.
  induction xs as [|x xs IH]; intros Hbody; [apply (keeps_ret _ _)|].
  cbn [for_each]. apply (keeps_bind _ _).
  - apply Hbody. left.
  - intros _. apply IH. intros y Hy. apply Hbody. right. exact Hy.
Qed.

(** A turn of the loop, however it ends, touches no file but its four
    outputs. *)
Lemma process_image_writes (w : World F) (f p : string) :
  p ∉ outputs w f -> keeps (disk_at p) (process_image w f).
Proof.
  unfold outputs, xlsx_file_of, tif_file_of, png_file_of.
  rewrite !not_elem_of_cons. intros (Hp1 & Hp2 & Hp3 & Hp4 & _).
  unfold process_image. destruct (negb (is_image_file f)); [apply (keeps_ret _ _)|].
  apply (keeps_bind _ _); [apply (keeps_set_rm _ _)|intros _].
  apply (keeps_bind _ _); [apply (keeps_run _ _)|intros _].
  destruct (bioformats w _) as [img|].
  - apply (keeps_bind _ _); [apply (keeps_run _ _)|intros _].
    apply (keeps_bind _ _); [apply (keeps_call _ _)|intros _].
    apply (keeps_bind _ _); [apply (keeps_segment_nuclei _ _)|intros _].
    apply (keeps_bind _ _); [apply classify_keeps_disk|intros _].
    apply (keeps_bind _ _); [apply (keeps_extract_candidates _ _)|intros _].
    apply (keeps_bind _ _); [apply (keeps_nucleus_filter _ _)|intros _].
    apply (keeps_bind _ _); [apply (keeps_user_interaction _ _)|intros _].
    apply (keeps_bind _ _); [apply (keeps_make_mask _ _)|intros _].
    apply (keeps_bind _ _); [|intros _].
    + apply (keeps_measure _ _); congruence.
    + apply (keeps_save_images _ _); congruence.
  - apply (keeps_bind _ _); [apply keeps_disk_emit|intros _]. apply (keeps_raise _ _).
Qed.

Lemma prepare_cases (w : World F) (h : Host F) :
  exists h0, prepare w h = (Ok tt, h0) /\
    ((is_Some (disk h !! analysis_dir w) /\ disk h0 = disk h) \/
     (disk h !! analysis_dir w = None /\ disk h0 = <[analysis_dir w := Dir]> (disk h))).
Proof.
  unfold prepare.
  cbv beta iota zeta delta [bind run emit set_rm get_disk ret write_file].
  simpl disk. case_bool_decide as Hex; eexists; (split; [reflexivity|]).
  - left. split; [exact Hex|reflexivity].
  - right. split; [|reflexivity]. apply eq_None_not_Some. exact Hex.
Qed.

(** After [prepare], the loop over the images and the folder summary touch
    no file but the outputs of the image files of the listing. *)
Lemma loop_and_summary_keep (w : World F) (p : string) (h0 h' : Host F)
  (r : outcome F unit) :
  (forall f, f ∈ os_listdir w -> is_image_file f = true -> p ∉ outputs w f) ->
  bind (process_images w (os_listdir w))
       (fun _ => bind (folder_summary w)
                      (fun _ => emit (ShowMessage "Finshed processing folder."))) h0
  = (r, h') ->
  disk h' !! p = disk h0 !! p.
Proof.
  intros Hp. revert h0 r h'. change (keeps (disk_at p)
    (bind (process_images w (os_listdir w))
       (fun _ => bind (folder_summary w)
                      (fun _ => emit (ShowMessage "Finshed processing folder."))))).
  apply (keeps_bind _ _).
  - unfold process_images. apply (keeps_for_each_in _ _). intros f Hin.
    destruct (is_image_file f) eqn:Hf.
    + apply process_image_writes. apply Hp; assumption.
    + intros h r h'. rewrite process_image_skips by exact Hf. intros [= <- <-]. reflexivity.
  - intros _. apply (keeps_bind _ _); [apply (keeps_folder_summary _ _)|intros _].
    apply keeps_disk_emit.
Qed.

Lemma main_after_prepare (w : World F) (h h0 : Host F) :
  prepare w h = (Ok tt, h0) ->
  main w h =
  bind (process_images w (os_listdir w))
       (fun _ => bind (folder_summary w)
                      (fun _ => emit (ShowMessage "Finshed processing folder."))) h0.
Proof. intros E. unfold main. rewrite (bind_ok _ _ _ _ _ E). reflexivity. Qed.

Lemma analysis_dir_no_output (w : World F) (f : string) : analysis_dir w ∉ outputs w f.
Proof.
  intros Hin. apply outputs_last_char in Hin. rewrite last_char_analysis_dir in Hin.
  destruct Hin as [H|[H|[H|H]]]; discriminate.
Qed.

Lemma endswith_last_char (s suffix : string) :
  endswith s suffix = true -> suffix <> EmptyString -> last_char s = last_char suffix.
Proof.
  intros H Hne. apply endswith_iff in H as [base ->]. apply last_char_append. exact Hne.
Qed.

Lemma join_prefix_analysis_dir (w : World F) :
  join_prefix (analysis_dir w) = analysis_dir w +:+ "\".
Proof.
  pose proof (last_char_analysis_dir w) as H9. unfold join_prefix.
  destruct (String.eqb (analysis_dir w) EmptyString) eqn:E0.
  { apply String.eqb_eq in E0. rewrite E0 in H9. discriminate. }
  destruct (endswith (analysis_dir w) "\") eqn:E1.
  { apply endswith_last_char in E1; [|discriminate]. rewrite H9 in E1. discriminate. }
  destruct (endswith (analysis_dir w) "/") eqn:E2.
  { apply endswith_last_char in E2; [|discriminate]. rewrite H9 in E2. discriminate. }
  reflexivity.
Qed.

(** Every output lies in the analysis folder. *)
Lemma outputs_in_analysis_dir (w : World F) (f p : string) :
  p ∈ outputs w f ->
  exists rest, p = analysis_dir w +:+ "\" +:+ rest \/ p = analysis_dir w +:+ "/" +:+ rest.
Proof.
  unfold outputs, xlsx_file_of, tif_file_of, png_file_of, csv_file_of.
  rewrite !elem_of_cons, elem_of_nil, !os_path_join_prefix, join_prefix_analysis_dir.
  rewrite !append_assoc.
  intros [->|[->|[->|[->|[]]]]]; eexists; eauto.
Qed.

(** X13: a run, however it ends, changes no file but analysis_v9 itself
    and the four outputs of the image files of the listing; in particular
    it changes nothing outside analysis_v9. *)
Theorem run_writes_only_outputs (w : World F) (h h' : Host F) (r : outcome F unit)
  (p : string) :
  main w h = (r, h') ->
  p <> analysis_dir w ->
  ((forall f, f ∈ os_listdir w -> is_image_file f = true -> p ∉ outputs w f) ->
   disk h' !! p = disk h !! p) /\
  ((forall rest, p <> analysis_dir w +:+ "\" +:+ rest /\
                 p <> analysis_dir w +:+ "/" +:+ rest) ->
   disk h' !! p = disk h !! p).
Proof.
  intros Hmain Hp.
  destruct (prepare_cases w h) as (h0 & Eprep & Hcases).
  rewrite (main_after_prepare _ _ _ Eprep) in Hmain.
  assert (H0 : disk h0 !! p = disk h !! p).
  { destruct Hcases as [[_ ->]|[_ ->]]; [reflexivity|].
    rewrite lookup_insert_ne by congruence. reflexivity. }
  assert (Hset : (forall f, f ∈ os_listdir w -> is_image_file f = true -> p ∉ outputs w f) ->
                 disk h' !! p = disk h !! p).
  { intros Hout. rewrite <- H0. eapply loop_and_summary_keep; eauto. }
  split; [exact Hset|].
  intros Hrest. apply Hset. intros f _ _ Hin.
  apply outputs_in_analysis_dir in Hin as [rest [E|E]]; destruct (Hrest rest); contradiction.
Qed.

(** X14: whatever the outcome of a run, analysis_v9 exists afterwards: an
    entry of that name that was there before, directory or not, is left as
    it was, and a missing one has been created as a directory. *)
Theorem analysis_dir_kept (w : World F) (h h' : Host F) (r : outcome F unit) :
  main w h = (r, h') ->
  is_Some (disk h' !! analysis_dir w) /\
  (forall x, disk h !! analysis_dir w = Some x -> disk h' !! analysis_dir w = Some x) /\
  (disk h !! analysis_dir w = None -> disk h' !! analysis_dir w = Some Dir).
Proof.
  intros Hmain.
  destruct (prepare_cases w h) as (h0 & Eprep & Hcases).
  rewrite (main_after_prepare _ _ _ Eprep) in Hmain.
  assert (Hkeep : disk h' !! analysis_dir w = disk h0 !! analysis_dir w).
  { eapply loop_and_summary_keep; [|exact Hmain].
    intros f _ _. apply analysis_dir_no_output. }
  rewrite Hkeep.
  destruct Hcases as [[Hex ->]|[Hnone ->]].
  - split; [exact Hex|]. split; [auto|]. intros E. rewrite E in Hex.
    destruct Hex as [x Hx]. discriminate.
  - rewrite lookup_insert_eq. split; [eauto|]. split; [congruence|reflexivity].
Qed.

End Turn.

(** ** The folder summary of a whole run *)

Section RunSummary.

Context {F : Type} {PF : PyFloat F}.

#[local] Existing Instance disk_at_frame.

Lemma measure_labels (w : World F) (img : Image F) (f : string) (h h' : Host F) :
  (0 < rm_getCount (rm h))%nat ->
  measure w img f h = (Ok tt, h') ->
  exists t, disk h' !! csv_file_of w f = Some (Csv t) /\
            map row_label (rt_rows t) = roi_labels (rm h).
Proof.
  intros Hpos Hm.
  destruct (measure_completed_table w img f h h' Hpos Hm)
    as (t & h1 & -> & _ & _ & Hsize & _ & Hrows).
  exists t. split.
  { simpl. rewrite lookup_insert_ne by apply csv_not_xlsx. apply lookup_insert_eq. }
  unfold roi_labels. apply list_eq. intros k. rewrite !list_lookup_fmap.
  destruct (rm_rois (rm h) !! k) as [roi|] eqn:Hroi.
  - destruct (Hrows k roi Hroi) as (Hl & _). unfold rt_getLabel in Hl.
    destruct (rt_rows t !! k) as [r|]; [|discriminate]. simpl. congruence.
  - apply lookup_ge_None in Hroi. unfold rt_size, rm_getCount in Hsize.
    rewrite (proj2 (lookup_ge_None (rt_rows t) k)) by lia. reflexivity.
Qed.

(** The CSV a completed turn leaves for its own image file. *)
Lemma process_image_csv (w : World F) (f : string) (h h' : Host F) :
  is_image_file f = true ->
  process_image w f h = (Ok tt, h') ->
  csv_labels w (disk h') f = labels_of w (disk h) f.
Proof.
  intros Hf Hturn. unfold csv_labels, labels_of. rewrite Hf.
  pose proof (last_char_csv w f) as Hv.
  destruct (bioformats w (os_path_join (input_dir w) f)) as [img|] eqn:Hopen.
  2:{ rewrite process_image_unopened in Hturn by assumption. discriminate. }
  destruct (model_exists w) eqn:Hmodel.
  2:{ destruct (process_image_model_missing w f img h Hf Hopen Hmodel) as (h1 & E & _).
      congruence. }
  destruct (process_image_stages w f img h Hf Hopen Hmodel) as (h4 & Hrm & Hd & E).
  rewrite E in Hturn.
  destruct (measure w img f h4) as [[[]|e1] h5] eqn:Em; [|discriminate].
  injection Hturn as <-.
  change (disk (images_saved w f h5))
    with (<[png_file_of w f := Blob]> (<[tif_file_of w f := Blob]> (disk h5))).
  rewrite lookup_insert_ne
    by (intros E1; rewrite <- E1 in Hv; unfold png_file_of in Hv;
        rewrite last_char_png in Hv; discriminate).
  rewrite lookup_insert_ne
    by (intros E1; rewrite <- E1 in Hv; unfold tif_file_of in Hv;
        rewrite last_char_tif in Hv; discriminate).
  destruct (rm_rois (surviving img)) as [|roi rois] eqn:Hrois.
  - rewrite measure_nothing in Em by (rewrite Hrm; exact Hrois). injection Em as <-.
    rewrite Hd. reflexivity.
  - assert (Hpos : (0 < rm_getCount (rm h4))%nat).
    { unfold rm_getCount. rewrite Hrm, Hrois. simpl. lia. }
    destruct (measure_labels w img f h4 h5 Hpos Em) as (t & -> & Hl).
    rewrite Hl, Hrm. reflexivity.
Qed.

Lemma process_images_keep_csv (w : World F) (f : string) (files : list string) :
  f ∉ files -> keeps (disk_at (csv_file_of w f)) (process_images w files).
Proof.
  intros Hf. unfold process_images. apply (keeps_for_each_in _ _).
  intros g Hg. apply process_image_keeps_other. intros ->. contradiction.
Qed.

Lemma labels_of_disk (w : World F) (d d' : gmap string (file F)) (f : string) :
  d' !! csv_file_of w f = d !! csv_file_of w f -> labels_of w d' f = labels_of w d f.
Proof. intros E. unfold labels_of, csv_labels. rewrite E. reflexivity. Qed.

(** The loop over the images, when it completes: the CSV of every image
    file holds the rows of its surviving ROIs, and is the one that was there
    before when it has none. *)
Lemma process_images_csv (w : World F) :
  forall files h h',
    NoDup files ->
    process_images w files h = (Ok tt, h') ->
    forall f, f ∈ files -> is_image_file f = true ->
      csv_labels w (disk h') f = labels_of w (disk h) f.
Proof.
  induction files as [|g files IH]; intros h h' Hnd Hloop f Hin Hf.
  { inversion Hin. }
  apply NoDup_cons in Hnd as [Hg Hnd].
  unfold process_images in Hloop. cbn [for_each] in Hloop. unfold bind in Hloop.
  destruct (process_image w g h) as [[[]|e] h1] eqn:Eg; [|discriminate].
  apply elem_of_cons in Hin as [->|Hin].
  - assert (Hkeep : disk h' !! csv_file_of w g = disk h1 !! csv_file_of w g).
    { eapply (process_images_keep_csv w g files Hg). exact Hloop. }
    unfold csv_labels at 1. rewrite Hkeep.
    apply (process_image_csv w g h h1 Hf Eg).
  - rewrite (IH h1 h' Hnd Hloop f Hin Hf). apply labels_of_disk.
    assert (Hne : g <> f) by (intros ->; contradiction).
    exact (process_image_keeps_other w f g Hne _ _ _ Eg).
Qed.

Lemma summarize_file_completed (w : World F) (f : string) (h h' : Host F) :
  summarize_file w f h = (Ok tt, h') ->
  rt_rows (results h') = rt_rows (results h) ++ summary_rows w (disk h) [f] /\
  disk h' = disk h.
Proof.
  intros E.
  destruct (summarize_file_result w f h) as (h1 & E1 & Hres & Hd).
  - intros Hf Hblob. revert E. unfold summarize_file. rewrite Hf.
    cbv beta iota zeta delta [negb bind emit get_disk raise].
    change (disk (logged (IsFile (csv_file_of w f)) h)) with (disk h).
    rewrite Hblob. discriminate.
  - rewrite E in E1. injection E1 as <-. auto.
Qed.

Lemma summarize_files_completed (w : World F) (files : list string) :
  forall h h',
    for_each files (summarize_file w) h = (Ok tt, h') ->
    rt_rows (results h') = rt_rows (results h) ++ summary_rows w (disk h) files.
Proof.
  induction files as [|f files IH]; intros h h' E.
  - injection E as <-. simpl. rewrite app_nil_r. reflexivity.
  - cbn [for_each] in E. unfold bind in E.
    destruct (summarize_file w f h) as [[[]|e] h1] eqn:Ef; [|discriminate].
    apply summarize_file_completed in Ef as [Hres Hd].
    rewrite (IH _ _ E), Hres, Hd, (summary_rows_cons w (disk h) f files), <- app_assoc.
    reflexivity.
Qed.

Lemma summary_rows_labels (w : World F) (d : gmap string (file F)) (files : list string) :
  map row_label (summary_rows w d files) =
  flat_map (fun f => if is_image_file f then csv_labels w d f else []) files.
Proof.
  induction files as [|f files IH]; [reflexivity|].
  rewrite summary_rows_cons, map_app, IH. simpl. f_equal.
  unfold summary_rows, csv_labels. simpl. rewrite app_nil_r.
  destruct (is_image_file f); [|reflexivity].
  destruct (d !! csv_file_of w f) as [[|t|]|]; try reflexivity.
  unfold csv_rows. rewrite map_map. reflexivity.
Qed.

Lemma flat_map_ext_in {A B} (f g : A -> list B) (l : list A) :
  (forall x, x ∈ l -> f x = g x) -> flat_map f l = flat_map g l.
Proof.
  induction l as [|x l IH]; intros H; [reflexivity|]. simpl.
  rewrite (H x) by left. rewrite IH; [reflexivity|]. intros y Hy. apply H. right. exact Hy.
Qed.

(** X15: when a run over a folder without repeated names completes, the
    Results table holds, in listing order, one row per surviving ROI of
    every image file, labelled as [Measure] labelled it; an image file
    without surviving ROIs contributes the rows of the CSV of its name that
    was in analysis_v9 before the run, if there was one. *)
Theorem run_summary_labels (w : World F) (h h' : Host F) :
  NoDup (os_listdir w) ->
  main w h = (Ok tt, h') ->
  map row_label (rt_rows (results h')) = flat_map (labels_of w (disk h)) (os_listdir w).
Proof.
  intros Hnd Hmain.
  destruct (prepare_cases w h) as (h0 & Eprep & Hcases).
  assert (H0 : forall f, labels_of w (disk h0) f = labels_of w (disk h) f).
  { intros f. apply labels_of_disk. destruct Hcases as [[_ ->]|[_ ->]]; [reflexivity|].
    rewrite lookup_insert_ne; [reflexivity|].
    intros E. pose proof (last_char_csv w f) as Hv.
    rewrite <- E, last_char_analysis_dir in Hv. discriminate. }
  rewrite main_unfold, Eprep in Hmain.
  destruct (process_images w (os_listdir w) h0) as [[[]|e] h1] eqn:Eloop; [|discriminate].
  pose proof (process_images_csv w _ _ _ Hnd Eloop) as Hcsv.
  destruct (folder_summary w h1) as [[[]|e] h2] eqn:Esum; [|discriminate].
  injection Hmain as <-.
  change (results (logged (ShowMessage "Finshed processing folder.") h2)) with (results h2).
  revert Esum. unfold folder_summary.
  cbv beta iota zeta delta [bind run call emit set_results].
  destruct (for_each (os_listdir w) (summarize_file w)
              (with_results rt_empty (logged (Run "Clear Results" EmptyString) h1)))
    as [[[]|e] h3] eqn:E3; [|discriminate].
  apply summarize_files_completed in E3. intros [= <-]. simpl. simpl in E3. rewrite E3.
  rewrite summary_rows_labels. apply flat_map_ext_in.
  intros f Hin. destruct (is_image_file f) eqn:Hf.
  - rewrite (Hcsv f Hin Hf). apply H0.
  - unfold labels_of. rewrite Hf. reflexivity.
Qed.

End RunSummary.

(** ** Copying a row into the summary, and where a failed run stopped *)

Section CopyRow.

Context {F : Type} {PF : PyFloat F}.

Lemma copied_cells_lookup (g : string -> F) (cols : list string) (c : string) :
  forall init : gmap string F,
    foldl (fun cells c0 => <[c0 := g c0]> cells) init cols !! c =
    if bool_decide (c ∈ cols) then Some (g c) else init !! c.
Proof.
  induction cols as [|c0 cols IH]; intros init; [reflexivity|].
  simpl. rewrite IH. destruct (decide (c = c0)) as [->|Hne].
  - rewrite (bool_decide_eq_true_2 (c0 ∈ c0 :: cols)) by left.
    case_bool_decide; [reflexivity|apply lookup_insert_eq].
  - rewrite lookup_insert_ne by congruence.
    assert (Hb : bool_decide (c ∈ c0 :: cols) = bool_decide (c ∈ cols)).
    { apply bool_decide_ext. rewrite elem_of_cons. tauto. }
    rewrite Hb. reflexivity.
Qed.

Lemma rt_addValue_columns (col : string) (v : F) (t t' : ResultsTable F) :
  rt_addValue col v t = Ok t' -> rt_columns t' = add_column col (rt_columns t).
Proof.
  unfold rt_addValue. destruct (rt_size t); [discriminate|]. intros [= <-]. reflexivity.
Qed.

Lemma add_values_columns (csv_table : ResultsTable F) (row : nat) :
  forall headings h h',
    for_each headings
      (fun heading =>
         bind (lift (rt_getValue heading row csv_table))
              (fun val => update_results (rt_addValue heading val))) h = (Ok tt, h') ->
    forall c, c ∈ headings \/ c ∈ rt_columns (results h) -> c ∈ rt_columns (results h').
Proof.
  induction headings as [|c0 headings IH]; intros h h' E c Hc.
  - injection E as <-. destruct Hc as [Hc|Hc]; [inversion Hc|exact Hc].
  - cbn [for_each] in E. revert E.
    cbv beta iota zeta delta [bind lift update_results get_results set_results].
    destruct (rt_getValue c0 row csv_table) as [val|]; [|discriminate].
    destruct (rt_addValue c0 val (results h)) as [t'|] eqn:Eadd; [|discriminate].
    intros E. apply (IH _ _ E). simpl.
    rewrite (rt_addValue_columns _ _ _ _ Eadd), elem_of_add_column.
    rewrite elem_of_cons in Hc. tauto.
Qed.

(** X16: lines 321-325 append to the Results table one row that carries
    the label of the CSV's row and, in every column of the CSV, the value
    the CSV has there; the rows that were in the table stay as they were. *)
Theorem summary_row_round_trip (csv_table : ResultsTable F) (row : nat) (h : Host F) :
  (row < rt_size csv_table)%nat ->
  exists h',
    copy_row csv_table row h = (Ok tt, h') /\
    rt_size (results h') = S (rt_size (results h)) /\
    rt_getLabel (rt_size (results h)) (results h') = rt_getLabel row csv_table /\
    (forall c, c ∈ rt_columns csv_table ->
       rt_getValue c (rt_size (results h)) (results h') = rt_getValue c row csv_table) /\
    (forall i, (i < rt_size (results h))%nat ->
       rt_rows (results h') !! i = rt_rows (results h) !! i).
Proof.
  intros Hrow. destruct (lookup_lt_is_Some_2 (rt_rows csv_table) row Hrow) as [r Hr].
  destruct (copy_row_appends csv_table row r h Hr) as (h' & E & Hrows & _).
  exists h'. split; [exact E|].
  assert (Hlast : rt_rows (results h') !! rt_size (results h)
                  = Some (copied_row (rt_columns csv_table) r)).
  { rewrite Hrows. unfold rt_size. rewrite lookup_app_r by lia.
    rewrite Nat.sub_diag. reflexivity. }
  split; [unfold rt_size; rewrite Hrows, length_app; simpl; lia|].
  split; [unfold rt_getLabel; rewrite Hlast, Hr; reflexivity|].
  split.
  - intros c Hc. unfold rt_getValue.
    rewrite (bool_decide_eq_true_2 (c ∈ rt_columns csv_table)) by exact Hc.
    rewrite bool_decide_eq_true_2, Hlast, Hr.
    + simpl. rewrite copied_cells_lookup.
      rewrite (bool_decide_eq_true_2 (c ∈ rt_columns csv_table)) by exact Hc. reflexivity.
    + revert E. unfold copy_row.
      cbv beta iota zeta delta [bind lift update_results get_results set_results].
      destruct (rt_getLabel row csv_table); [|discriminate].
      destruct (rt_addLabel a _); [|discriminate].
      intros E. apply (add_values_columns _ _ _ _ _ E). left. exact Hc.
  - intros i Hi. rewrite Hrows. apply lookup_app_l. exact Hi.
Qed.

Lemma for_each_first_failure {X} (body : X -> M F unit) :
  forall xs h e h',
    for_each xs body h = (Raise e, h') ->
    exists pre x post h1,
      xs = pre ++ x :: post /\
      for_each pre body h = (Ok tt, h1) /\
      body x h1 = (Raise e, h').
Proof.
  induction xs as [|x xs IH]; intros h e h' E; [discriminate|].
  cbn [for_each] in E. unfold bind in E.
  destruct (body x h) as [[[]|e1] h1] eqn:Ex.
  - destruct (IH _ _ _ E) as (pre & y & post & h2 & -> & Epre & Ey).
    exists (x :: pre), y, post, h2. split; [reflexivity|].
    cbn [for_each]. unfold bind. rewrite Ex. auto.
  - injection E as <- <-. exists [], x, xs, h. auto.
Qed.

#[local] Existing Instance disk_at_frame.

Lemma folder_summary_disk (w : World F) (h h' : Host F) (r : outcome F unit) :
  folder_summary w h = (r, h') -> disk h' = disk h.
Proof.
  intros E. apply map_eq. intros p.
  exact (keeps_folder_summary (disk_at p) (fun q => q <> p) w _ _ _ E).
Qed.

(** X17: a run that ends in an exception stopped either in the turn of one
    file of the listing, after the turns of all files before it had
    completed, or in the folder summary after the whole loop; in both cases
    the exception reaches the caller as it was raised, and the disk is as
    the completed turns left it. *)
Theorem failed_run_stopped_at (w : World F) (h h' : Host F) (e : exn F) :
  main w h = (Raise e, h') ->
  exists h0, prepare w h = (Ok tt, h0) /\
    ((exists pre f post h1,
        os_listdir w = pre ++ f :: post /\
        process_images w pre h0 = (Ok tt, h1) /\
        process_image w f h1 = (Raise e, h') /\
        disk h' = disk h1) \/
     (exists h1,
        process_images w (os_listdir w) h0 = (Ok tt, h1) /\
        folder_summary w h1 = (Raise e, h') /\
        disk h' = disk h1)).
Proof.
  intros Hmain. destruct (prepare_cases w h) as (h0 & Eprep & _).
  exists h0. split; [exact Eprep|].
  rewrite main_unfold, Eprep in Hmain.
  destruct (process_images w (os_listdir w) h0) as [[[]|e1] h1] eqn:Eloop.
  - right. exists h1. split; [reflexivity|].
    destruct (folder_summary w h1) as [[[]|e2] h2] eqn:Esum; [discriminate|].
    injection Hmain as <- <-. split; [reflexivity|].
    eapply folder_summary_disk; eauto.
  - left. injection Hmain as <- <-.
    apply for_each_first_failure in Eloop as (pre & f & post & h2 & Hl & Epre & Ef).
    exists pre, f, post, h2. split; [exact Hl|]. split; [exact Epre|]. split; [exact Ef|].
    eapply process_image_raises_disk; eauto.
Qed.

End CopyRow.

(** ** The operator's dialog *)

Section Prompts.

Context {F : Type} {PF : PyFloat F}.

Lemma prompts_cons (e : event) (tr : list event) :
  prompts (e :: tr) = ((if is_prompt e then 1 else 0) + prompts tr)%nat.
Proof. unfold prompts. simpl. destruct (is_prompt e); reflexivity. Qed.

Lemma segment_nuclei_prompts (img : Image F) (h h' : Host F) (r : outcome F unit) :
  segment_nuclei img h = (r, h') -> prompts (trace h') = prompts (trace h).
Proof.
  unfold segment_nuclei. destruct (img_nuclei_inverted img); intros [= _ <-]; reflexivity.
Qed.

Lemma classify_prompts (w : World F) (f path : string) (h h' : Host F)
  (r : outcome F unit) :
  classify w f path h = (r, h') -> prompts (trace h') = prompts (trace h).
Proof.
  unfold classify, DEBUG. cbn [negb]. cbv iota.
  cbv beta iota zeta delta [bind call run emit lift py_assert].
  destruct (model_exists w); cbv beta iota; intros [= _ <-]; reflexivity.
Qed.

Lemma extract_candidates_prompts (img : Image F) (h h' : Host F) (r : outcome F unit) :
  extract_candidates img h = (r, h') -> prompts (trace h') = prompts (trace h).
Proof.
  unfold extract_candidates. destruct (img_antibody_inverted img);
    intros [= _ <-]; reflexivity.
Qed.

Lemma nucleus_filter_prompts (h h' : Host F) (r : outcome F unit) :
  nucleus_filter h = (r, h') -> prompts (trace h') = prompts (trace h).
Proof.
  unfold nucleus_filter.
  cbv beta iota zeta delta [bind call emit get_rm set_rm logged with_rm rm ret].
  destruct h as [m t d tr]. simpl.
  destruct (0 <? rm_getCount m)%nat; intros [= _ <-]; reflexivity.
Qed.

Lemma user_interaction_prompts (img : Image F) (h h' : Host F) (r : outcome F unit) :
  user_interaction img h = (r, h') -> prompts (trace h') = S (prompts (trace h)).
Proof. intros [= _ <-]. reflexivity. Qed.

Lemma make_mask_prompts (h h' : Host F) (r : outcome F unit) :
  make_mask h = (r, h') -> prompts (trace h') = prompts (trace h).
Proof.
  unfold make_mask.
  cbv beta iota zeta delta [bind call emit get_rm run logged rm ret].
  destruct h as [m t d tr]. simpl.
  destruct (0 <? rm_getCount m)%nat; intros [= _ <-]; reflexivity.
Qed.

Lemma measure_prompts (w : World F) (img : Image F) (f : string) (h h' : Host F) :
  measure w img f h = (Ok tt, h') -> prompts (trace h') = prompts (trace h).
Proof.
  rewrite measure_eq. destruct (0 <? rm_getCount (rm h))%nat; [|intros [= <-]; reflexivity].
  destruct (for_each _ _ (measured h)) as [[[]|e] h1] eqn:Eloop; [|discriminate].
  apply measure_loop_frame in Eloop as (_ & _ & Htr & _).
  rewrite export_results_eq.
  destruct (rt_deleteColumn "%Area" (results h1)); [|discriminate].
  intros [= <-]. simpl. rewrite !prompts_cons. simpl. rewrite Htr. reflexivity.
Qed.

(** A turn of the loop that completes for an image file has shown the
    dialog once. *)
Lemma process_image_prompts (w : World F) (f : string) (h h' : Host F) :
  is_image_file f = true ->
  process_image w f h = (Ok tt, h') ->
  prompts (trace h') = S (prompts (trace h)).
Proof.
  intros Hf. unfold process_image. rewrite Hf. cbn [negb].
  rewrite (bind_ok _ _ _ _ _ (eq_refl : set_rm rm_reset h = (Ok tt, _))).
  rewrite (bind_ok _ _ _ _ _ (eq_refl : run _ _ _ = (Ok tt, _))).
  destruct (bioformats w (os_path_join (input_dir w) f)) as [img|]; [|discriminate].
  rewrite (bind_ok _ _ _ _ _ (eq_refl : run _ _ _ = (Ok tt, _))).
  rewrite (bind_ok _ _ _ _ _ (eq_refl : call _ _ _ = (Ok tt, _))).
  set (h0 := logged (Call "setTitle" "MIP") _).
  assert (H0 : prompts (trace h0) = prompts (trace h)) by reflexivity.
  unfold bind.
  destruct (segment_nuclei img h0) as [[[]|e] h1] eqn:E1; [|discriminate].
  apply segment_nuclei_prompts in E1.
  destruct (classify w f _ h1) as [[[]|e] h2] eqn:E2; [|discriminate].
  apply classify_prompts in E2.
  destruct (extract_candidates img h2) as [[[]|e] h3] eqn:E3; [|discriminate].
  apply extract_candidates_prompts in E3.
  destruct (nucleus_filter h3) as [[[]|e] h4] eqn:E4; [|discriminate].
  apply nucleus_filter_prompts in E4.
  destruct (user_interaction img h4) as [[[]|e] h5] eqn:E5; [|discriminate].
  apply user_interaction_prompts in E5.
  destruct (make_mask h5) as [[[]|e] h6] eqn:E6; [|discriminate].
  apply make_mask_prompts in E6.
  destruct (measure w img f h6) as [[[]|e] h7] eqn:E7; [|discriminate].
  apply measure_prompts in E7.
  rewrite save_images_eq. intros [= <-].
  unfold images_saved. cbn [trace logged with_file]. rewrite !prompts_cons.
  cbn [is_prompt]. lia.
Qed.

(** X18: a loop over a listing that completes has shown the operator's
    dialog once for every image file of the listing, also for the images
    in which no ROI was found or none passed the filter. *)
Theorem one_prompt_per_image (w : World F) (files : list string) (h h' : Host F) :
  process_images w files h = (Ok tt, h') ->
  prompts (trace h') = (prompts (trace h) + length (image_files files))%nat.
Proof.
  revert h. induction files as [|f files IH]; intros h E.
  - injection E as <-. unfold image_files. simpl. lia.
  - unfold process_images in E. cbn [for_each] in E. unfold bind in E.
    destruct (process_image w f h) as [[[]|e] h1] eqn:Ef; [|discriminate].
    apply IH in E. rewrite E. unfold image_files. rewrite filter_cons.
    destruct (decide (is_image_file f = true)) as [Hf|Hf].
    + rewrite (process_image_prompts w f h h1 Hf Ef). simpl. lia.
    + rewrite process_image_skips in Ef by (destruct (is_image_file f); congruence).
      injection Ef as <-. reflexivity.
Qed.

End Prompts.

(** ** The size filters *)

Section SizeFilterRuns.

Context {F : Type} {PF : PyFloat F}.

Variable command : string.

Hypothesis Hcommand :
  command = "3D Objects Counter on GPU (CLIJx, Experimental)" \/
  command = "Analyze Particles...".

Lemma segment_nuclei_runs (img : Image F) (h h' : Host F) (r : outcome F unit) :
  segment_nuclei img h = (r, h') -> runs_of command (trace h') = runs_of command (trace h).
Proof.
  unfold segment_nuclei.
  destruct Hcommand as [-> | ->], (img_nuclei_inverted img); intros [= _ <-]; reflexivity.
Qed.

Lemma classify_runs (w : World F) (f path : string) (h h' : Host F) (r : outcome F unit) :
  classify w f path h = (r, h') -> runs_of command (trace h') = runs_of command (trace h).
Proof.
  unfold classify, DEBUG. cbn [negb]. cbv iota.
  cbv beta iota zeta delta [bind call run emit lift py_assert].
  destruct Hcommand as [-> | ->], (model_exists w); cbv beta iota;
    intros [= _ <-]; reflexivity.
Qed.

Lemma extract_candidates_runs (img : Image F) (h h' : Host F) (r : outcome F unit) :
  extract_candidates img h = (r, h') ->
  runs_of command (trace h') = size_options command :: runs_of command (trace h).
Proof.
  unfold extract_candidates, size_options.
  destruct Hcommand as [-> | ->], (img_antibody_inverted img); intros [= _ <-];
    vm_compute; reflexivity.
Qed.

Lemma nucleus_filter_runs (h h' : Host F) (r : outcome F unit) :
  nucleus_filter h = (r, h') -> runs_of command (trace h') = runs_of command (trace h).
Proof.
  unfold nucleus_filter.
  cbv beta iota zeta delta [bind call emit get_rm set_rm logged with_rm rm ret].
  destruct h as [m t d tr]. simpl.
  destruct Hcommand as [-> | ->], (0 <? rm_getCount m)%nat; intros [= _ <-]; reflexivity.
Qed.

Lemma user_interaction_runs (img : Image F) (h h' : Host F) (r : outcome F unit) :
  user_interaction img h = (r, h') -> runs_of command (trace h') = runs_of command (trace h).
Proof. intros [= _ <-]. reflexivity. Qed.

Lemma make_mask_runs (h h' : Host F) (r : outcome F unit) :
  make_mask h = (r, h') -> runs_of command (trace h') = runs_of command (trace h).
Proof.
  unfold make_mask.
  cbv beta iota zeta delta [bind call emit get_rm run logged rm ret].
  destruct h as [m t d tr]. simpl.
  destruct Hcommand as [-> | ->], (0 <? rm_getCount m)%nat; intros [= _ <-]; reflexivity.
Qed.

Lemma measure_runs (w : World F) (img : Image F) (f : string) (h h' : Host F) :
  measure w img f h = (Ok tt, h') -> runs_of command (trace h') = runs_of command (trace h).
Proof.
  rewrite measure_eq. destruct (0 <? rm_getCount (rm h))%nat; [|intros [= <-]; reflexivity].
  destruct (for_each _ _ (measured h)) as [[[]|e] h1] eqn:Eloop; [|discriminate].
  apply measure_loop_frame in Eloop as (_ & _ & Htr & _).
  rewrite export_results_eq.
  destruct (rt_deleteColumn "%Area" (results h1)); [|discriminate].
  intros [= <-]. cbn [exported trace logged with_file with_results]. rewrite Htr.
  destruct Hcommand as [-> | ->]; reflexivity.
Qed.

(** A turn of the loop that completes for an image file has run [command]
    once, with these options. *)
Lemma process_image_runs (w : World F) (f : string) (h h' : Host F) :
  is_image_file f = true ->
  process_image w f h = (Ok tt, h') ->
  runs_of command (trace h') = size_options command :: runs_of command (trace h).
Proof.
  intros Hf. unfold process_image. rewrite Hf. cbn [negb].
  rewrite (bind_ok _ _ _ _ _ (eq_refl : set_rm rm_reset h = (Ok tt, _))).
  rewrite (bind_ok _ _ _ _ _ (eq_refl : run _ _ _ = (Ok tt, _))).
  destruct (bioformats w (os_path_join (input_dir w) f)) as [img|]; [|discriminate].
  rewrite (bind_ok _ _ _ _ _ (eq_refl : run _ _ _ = (Ok tt, _))).
  rewrite (bind_ok _ _ _ _ _ (eq_refl : call _ _ _ = (Ok tt, _))).
  set (h0 := logged (Call "setTitle" "MIP") _).
  assert (H0 : runs_of command (trace h0) = runs_of command (trace h)).
  { subst h0. cbn [trace logged with_rm]. destruct Hcommand as [-> | ->]; reflexivity. }
  unfold bind.
  destruct (segment_nuclei img h0) as [[[]|e] h1] eqn:E1; [|discriminate].
  apply segment_nuclei_runs in E1.
  destruct (classify w f _ h1) as [[[]|e] h2] eqn:E2; [|discriminate].
  apply classify_runs in E2.
  destruct (extract_candidates img h2) as [[[]|e] h3] eqn:E3; [|discriminate].
  apply extract_candidates_runs in E3.
  destruct (nucleus_filter h3) as [[[]|e] h4] eqn:E4; [|discriminate].
  apply nucleus_filter_runs in E4.
  destruct (user_interaction img h4) as [[[]|e] h5] eqn:E5; [|discriminate].
  apply user_interaction_runs in E5.
  destruct (make_mask h5) as [[[]|e] h6] eqn:E6; [|discriminate].
  apply make_mask_runs in E6.
  destruct (measure w img f h6) as [[[]|e] h7] eqn:E7; [|discriminate].
  apply measure_runs in E7.
  rewrite save_images_eq. intros [= <-].
  assert (H8 : runs_of command (trace (images_saved w f h7)) = runs_of command (trace h7)).
  { unfold images_saved. cbn [trace logged with_file].
    destruct Hcommand as [-> | ->]; reflexivity. }
  congruence.
Qed.

Lemma process_images_runs (w : World F) (files : list string) (h h' : Host F) :
  process_images w files h = (Ok tt, h') ->
  runs_of command (trace h') =
  replicate (length (image_files files)) (size_options command) ++ runs_of command (trace h).
Proof.
  revert h. induction files as [|f files IH]; intros h E.
  - injection E as <-. reflexivity.
  - unfold process_images in E. cbn [for_each] in E. unfold bind in E.
    destruct (process_image w f h) as [[[]|e] h1] eqn:Ef; [|discriminate].
    apply IH in E. rewrite E. unfold image_files. rewrite filter_cons.
    destruct (decide (is_image_file f = true)) as [Hf|Hf].
    + rewrite (process_image_runs w f h h1 Hf Ef). cbn [length].
      rewrite replicate_S_end, <- app_assoc. reflexivity.
    + rewrite process_image_skips in Ef by (destruct (is_image_file f); congruence).
      injection Ef as <-. reflexivity.
Qed.

End SizeFilterRuns.

Section SizeFilters.

Context {F : Type} {PF : PyFloat F}.

(** X2: in a loop over a listing that completes, the 3D objects counter has
    been run once for every image file of the listing, each time with the
    floor of 10 voxels and no effective ceiling, and [Analyze Particles...]
    once for every image file, each time with the band from 20 to 500 and
    the option that excludes particles on the edge; the loop runs neither
    command with other options. *)
Theorem size_filters_once_per_image (w : World F) (files : list string) (h h' : Host F) :
  process_images w files h = (Ok tt, h') ->
  runs_of "3D Objects Counter on GPU (CLIJx, Experimental)" (trace h') =
    replicate (length (image_files files))
      "cl_device=[Quadro M4000] threshold=254 slice=4  min.=10 max.=9999999 objects"
    ++ runs_of "3D Objects Counter on GPU (CLIJx, Experimental)" (trace h) /\
  runs_of "Analyze Particles..." (trace h') =
    replicate (length (image_files files)) "size=20-500 show=Masks exclude add slice"
    ++ runs_of "Analyze Particles..." (trace h).
Proof.
  intros E. split.
  - exact (process_images_runs _ (or_introl eq_refl) w files h h' E).
  - exact (process_images_runs _ (or_intror eq_refl) w files h h' E).
Qed.

End SizeFilters.

(** * Worked examples *)

(** A ROI without area survives the filter and ends the run in
    [ZeroDivisionError]; no CSV is written. *)
Lemma zero_area_ends_run :
  rm_rois (surviving image_zero_area) = [roi_zero_area] /\
  f_eqb (mask_area roi_zero_area) (of_int 0) = true /\
  fst (main folder_zero_area (initial_host ∅)) = Raise ZeroDivisionError /\
  disk (snd (main folder_zero_area (initial_host ∅)))
    !! csv_file_of folder_zero_area "a.tif" = None.
Proof. repeat split; vm_compute; reflexivity. Qed.

Lemma zero_area_measure :
  measure folder_zero_area image_zero_area "a.tif" (host_with [roi_zero_area]) =
  (Raise ZeroDivisionError, measured (host_with [roi_zero_area])).
Proof.
  destruct (zero_area_raises folder_zero_area image_zero_area "a.tif"
              (host_with [roi_zero_area]) 0 0 roi_zero_area) as (_ & _ & H).
  - reflexivity.
  - reflexivity.
  - reflexivity.
  - apply H. reflexivity.
Defined.

(** A folder of two images: the model's path is tested twice. *)
Lemma model_checked_twice :
  fst (main folder_two_images (initial_host ∅)) = Ok tt /\
  model_checks folder_two_images (trace (snd (main folder_two_images (initial_host ∅))))
  = 2%nat.
Proof. split; vm_compute; reflexivity. Qed.

Lemma model_checks_of_two_images :
  model_checks folder_two_images
    (trace (snd (process_images folder_two_images ["a.tif"; "notes.txt"; "b.nd2"]
                   (initial_host ∅)))) = 2%nat /\
  exists h',
    process_image folder_no_model "a.tif" (initial_host ∅) =
    (Raise (AssertionError (StrArg (membrane_model_file folder_no_model))), h').
Proof.
  destruct (model_checked_per_image folder_two_images) as (Hcount & _ & _).
  destruct (model_checked_per_image folder_no_model) as (_ & Hmissing & _).
  split.
  - rewrite (Hcount ["a.tif"; "notes.txt"; "b.nd2"] (initial_host ∅)
               (snd (process_images folder_two_images ["a.tif"; "notes.txt"; "b.nd2"]
                       (initial_host ∅)))).
    + vm_compute. reflexivity.
    + vm_compute. reflexivity.
  - destruct (Hmissing eq_refl "a.tif" image_one_cell (initial_host ∅)) as (h' & E & _).
    + vm_compute. reflexivity.
    + reflexivity.
    + exists h'. exact E.
Defined.


(** The tree with the most nodes is not the one measured. *)
Lemma fork_beats_longer_tree :
  (tree_nodes tree_fork < tree_nodes tree_long)%nat /\
  get_cable_length (Some roi_two_trees) {| ip_whole := crop_one_tree |}
  = Ok (cable_length_metric tree_fork) /\
  get_cable_length (Some roi_two_trees) {| ip_whole := crop_one_tree |}
  <> Ok (cable_length_metric tree_long).
Proof.
  split; [vm_compute; lia|]. split; [vm_compute; reflexivity|].
  intros H.
  apply (f_equal (fun o => match o with
                           | Ok x => PrimFloat.eqb x 3
                           | Raise _ => false
                           end)) in H.
  vm_compute in H. discriminate H.
Qed.

Lemma cable_length_of_two_trees :
  exists t,
    first_largest [tree_long; tree_fork] t /\
    get_cable_length (Some roi_two_trees) {| ip_whole := crop_one_tree |}
    = Ok (cable_length_metric t).
Proof.
  destruct (cable_length_first_largest_tree (Some roi_two_trees)
              {| ip_whole := crop_one_tree |}) as [_ H].
  apply H.
  - vm_compute. reflexivity.
  - discriminate.
Defined.

(** C7, where the script departs from it: every candidate of the image has
    a nucleus, so no ROI is marked for deletion, and [Delete] on the empty
    selection leaves none; the run completes without a CSV for the image. *)
Lemma all_nucleated_all_deleted :
  below_threshold roi_with_nucleus = false /\
  to_be_deleted_from 0 (img_candidates image_all_nucleated) = [] /\
  rm_rois (surviving image_all_nucleated) = [] /\
  fst (main folder_all_nucleated (initial_host ∅)) = Ok tt /\
  disk (snd (main folder_all_nucleated (initial_host ∅)))
    !! csv_file_of folder_all_nucleated "a.tif" = None.
Proof. repeat split; vm_compute; reflexivity. Qed.

(** Two images, one cell each at the same place: the two rows of the
    folder summary are the same row. *)
Lemma rows_of_two_files_alike :
  fst (main folder_two_images (initial_host ∅)) = Ok tt /\
  (exists r,
     rt_rows (results (snd (main folder_two_images (initial_host ∅)))) = [r; r] /\
     row_label r = "microglia_mask:0010-0020") /\
  (exists t,
     disk (snd (main folder_two_images (initial_host ∅)))
       !! csv_file_of folder_two_images "a.tif" = Some (Csv t) /\
     disk (snd (main folder_two_images (initial_host ∅)))
       !! csv_file_of folder_two_images "b.nd2" = Some (Csv t) /\
     rt_size t = 1%nat).
Proof.
  split; [vm_compute; reflexivity|]. split.
  - eexists. split; [vm_compute; reflexivity|]. reflexivity.
  - eexists. split; [vm_compute; reflexivity|]. split; [vm_compute; reflexivity|].
    reflexivity.
Qed.

Lemma summary_of_three_and_two_rows :
  exists h',
    folder_summary folder_two_images host_with_tables = (Ok tt, h') /\
    rt_size (results h') = 5%nat.
Proof.
  destruct (folder_summary_concatenates folder_two_images host_with_tables)
    as [(h' & tr & E & Hrows & _) _].
  - repeat constructor; intros _ H; vm_compute in H; discriminate H.
  - exists h'. split; [exact E|]. unfold rt_size. rewrite Hrows. vm_compute. reflexivity.
Defined.

Lemma bad_file_ends_run :
  fst (main folder_bad_file (initial_host ∅)) = Raise SystemExit.
Proof.
  destruct (unopened_image_stops_run folder_bad_file ["a.tif"] ["c.tif"] "bad.nd2"
              (initial_host ∅)) as (e & h0 & h' & Hprep & Hmain & _ & Hexit).
  - reflexivity.
  - vm_compute. reflexivity.
  - reflexivity.
  - assert (E0 : h0 = snd (prepare folder_bad_file (initial_host ∅)))
      by (rewrite Hprep; reflexivity).
    destruct (Hexit (snd (process_images folder_bad_file ["a.tif"] h0))) as [-> _].
    + rewrite E0. vm_compute. reflexivity.
    + rewrite Hmain. reflexivity.
Defined.



(** The image has no surviving ROI, its CSV of an earlier run is still in
    analysis_v9 after the run, and the summary holds the row of that file. *)
Lemma earlier_csv_is_summarised :
  rm_rois (surviving image_no_cell) = [] /\
  fst (main folder_no_cell (initial_host disk_stale_csv)) = Ok tt /\
  disk (snd (main folder_no_cell (initial_host disk_stale_csv)))
    !! csv_file_of folder_no_cell "a.tif"
  = Some (Csv (table_of ["microglia_mask:0030-0040"])) /\
  map row_label (rt_rows (results (snd (main folder_no_cell (initial_host disk_stale_csv)))))
  = ["microglia_mask:0030-0040"].
Proof. repeat split; vm_compute; reflexivity. Qed.

(** On an empty disk the loop leaves no CSV for the image; on the disk of an
    earlier run the summary of the image's file adds one row. *)
Lemma no_csv_for_deleted_cells :
  disk (snd (process_images folder_no_cell ["a.tif"]
               (snd (prepare folder_no_cell (initial_host ∅)))))
    !! csv_file_of folder_no_cell "a.tif" = None /\
  exists h',
    summarize_file folder_no_cell "a.tif" (initial_host disk_stale_csv) = (Ok tt, h') /\
    rt_size (results h') = 1%nat.
Proof.
  destruct (empty_image_csv_untouched folder_no_cell "a.tif" image_no_cell)
    as (_ & Hloop & _ & Hstale).
  - vm_compute. reflexivity.
  - reflexivity.
  - vm_compute. reflexivity.
  - split.
    + rewrite (Hloop (initial_host ∅)
                 (fst (process_images folder_no_cell ["a.tif"]
                         (snd (prepare folder_no_cell (initial_host ∅)))))
                 (snd (prepare folder_no_cell (initial_host ∅)))).
      * reflexivity.
      * vm_compute. reflexivity.
      * destruct (process_images _ _ _); reflexivity.
    + destruct (Hstale (initial_host disk_stale_csv) (table_of ["microglia_mask:0030-0040"]))
        as (h' & E & _ & Hsize).
      * vm_compute. reflexivity.
      * exists h'. split; [exact E|]. rewrite Hsize. reflexivity.
Defined.

(** Two image files and a text file: each command was run twice. *)
Lemma size_filters_of_two_images :
  runs_of "Analyze Particles..."
    (trace (snd (process_images folder_two_images ["a.tif"; "notes.txt"; "b.nd2"]
                   (initial_host ∅))))
  = ["size=20-500 show=Masks exclude add slice"; "size=20-500 show=Masks exclude add slice"].
Proof.
  destruct (size_filters_once_per_image folder_two_images ["a.tif"; "notes.txt"; "b.nd2"]
              (initial_host ∅)
              (snd (process_images folder_two_images ["a.tif"; "notes.txt"; "b.nd2"]
                      (initial_host ∅)))) as [_ H].
  - vm_compute. reflexivity.
  - rewrite H. vm_compute. reflexivity.
Defined.

(** ** Examples of the further properties *)

(** A ROI whose crop has foreground but no tree ends [get_cable_length] in
    IndexError. *)
Lemma foreground_without_tree :
  get_cable_length (Some roi_no_tree) {| ip_whole := crop_one_tree |} = Raise IndexError /\
  (0 < raw_max (ip_crop {| ip_whole := crop_one_tree |} (Some roi_no_tree)))%Z.
Proof.
  destruct (cable_length_raises_only_without_trees (Some roi_no_tree)
              {| ip_whole := crop_one_tree |}) as [Honly Hraises].
  assert (E : get_cable_length (Some roi_no_tree) {| ip_whole := crop_one_tree |}
              = Raise IndexError) by (apply Hraises; reflexivity).
  split; [exact E|]. apply (Honly IndexError E).
Defined.

(** A name with a blank and the suffix ".tif" is an image file. *)
Lemma scan_is_image_file : is_image_file "scan 01.tif" = true.
Proof. apply image_file_suffix. exists "scan 01". right. reflexivity. Defined.

(** The CSV of an image with one cell. *)
Lemma csv_of_one_cell :
  exists t,
    disk (snd (measure folder_two_images image_one_cell "a.tif" (host_with [roi_with_nucleus])))
      !! csv_file_of folder_two_images "a.tif" = Some (Csv t) /\
    rt_columns t = ["Area"; "Perim."; "RI"; "Cable_Length"] /\
    rt_size t = 1%nat /\
    rt_getLabel 0 t = Ok "microglia_mask:0010-0020" /\
    rt_getValue "Area" 0 t = Ok 100%float /\
    rt_getValue "Perim." 0 t = Ok 50%float.
Proof.
  destruct (csv_describes_rois folder_two_images image_one_cell "a.tif"
              (host_with [roi_with_nucleus])
              (snd (measure folder_two_images image_one_cell "a.tif"
                      (host_with [roi_with_nucleus]))))
    as (t & Hcsv & Hcols & Hsize & Hrows).
  - apply Nat.ltb_lt. reflexivity.
  - vm_compute. reflexivity.
  - destruct (Hrows 0%nat roi_with_nucleus eq_refl) as (Hl & Ha & Hp & _).
    exists t. repeat split; assumption.
Defined.

(** The turn of an image with a ROI of area 0 ends in ZeroDivisionError and
    leaves the disk empty. *)
Lemma zero_area_writes_nothing :
  disk (snd (process_image folder_zero_area "a.tif" (initial_host ∅))) = ∅.
Proof.
  apply (image_outputs_all_or_nothing folder_zero_area "a.tif" (initial_host ∅)
           (snd (process_image folder_zero_area "a.tif" (initial_host ∅)))
           ZeroDivisionError).
  vm_compute. reflexivity.
Defined.

(** The turn of an image with one cell writes its four files. *)
Lemma outputs_of_one_cell :
  exists img,
    bioformats folder_two_images (os_path_join (input_dir folder_two_images) "a.tif")
      = Some img /\
    disk (snd (process_image folder_two_images "a.tif" (initial_host ∅)))
      !! tif_file_of folder_two_images "a.tif" = Some Blob /\
    disk (snd (process_image folder_two_images "a.tif" (initial_host ∅)))
      !! png_file_of folder_two_images "a.tif" = Some Blob.
Proof.
  destruct (turn_outputs folder_two_images "a.tif" (initial_host ∅)
              (snd (process_image folder_two_images "a.tif" (initial_host ∅))))
    as (img & Hopen & Htif & Hpng & _).
  - reflexivity.
  - vm_compute. reflexivity.
  - exists img. auto.
Defined.

(** A run over the folder of two images leaves the first image itself, and
    everything else outside analysis_v9, as it was. *)
Lemma input_image_untouched :
  disk (snd (main folder_two_images (initial_host ∅))) !! "C:\data\a.tif" = None.
Proof.
  destruct (run_writes_only_outputs folder_two_images (initial_host ∅)
              (snd (main folder_two_images (initial_host ∅)))
              (fst (main folder_two_images (initial_host ∅)))
              "C:\data\a.tif") as [_ Hout].
  - destruct (main folder_two_images (initial_host ∅)). reflexivity.
  - vm_compute. discriminate.
  - rewrite Hout; [reflexivity|].
    intros rest. split; vm_compute; discriminate.
Defined.

(** On an empty disk the run creates analysis_v9. *)
Lemma analysis_dir_created :
  disk (snd (main folder_two_images (initial_host ∅)))
    !! analysis_dir folder_two_images = Some Dir.
Proof.
  destruct (analysis_dir_kept folder_two_images (initial_host ∅)
              (snd (main folder_two_images (initial_host ∅)))
              (fst (main folder_two_images (initial_host ∅)))) as (_ & _ & Hnew).
  - destruct (main folder_two_images (initial_host ∅)). reflexivity.
  - apply Hnew. reflexivity.
Defined.

(** The image has no surviving ROI now, and the summary shows the row of the
    CSV an earlier run left for it. *)
Lemma summary_shows_earlier_csv :
  rm_rois (surviving image_all_nucleated) = [] /\
  map row_label
    (rt_rows (results (snd (main folder_all_nucleated (initial_host disk_earlier_run)))))
  = ["microglia_mask:0001-0002"].
Proof.
  split; [vm_compute; reflexivity|].
  rewrite (run_summary_labels folder_all_nucleated (initial_host disk_earlier_run)
             (snd (main folder_all_nucleated (initial_host disk_earlier_run)))).
  - vm_compute. reflexivity.
  - apply NoDup_singleton.
  - vm_compute. reflexivity.
Defined.

(** Copying the second row of a CSV of two rows into an empty table. *)
Lemma second_row_copied :
  exists h',
    copy_row (table_of ["microglia_mask:1"; "microglia_mask:2"]) 1 (host_with []) = (Ok tt, h') /\
    rt_size (results h') = 1%nat /\
    rt_getLabel 0 (results h') = Ok "microglia_mask:2" /\
    rt_getValue "Area" 0 (results h') = Ok 100%float.
Proof.
  destruct (summary_row_round_trip (table_of ["microglia_mask:1"; "microglia_mask:2"]) 1
              (host_with [])) as (h' & E & Hsize & Hlabel & Hvalues & _).
  - vm_compute. lia.
  - exists h'. split; [exact E|]. split; [exact Hsize|]. split; [exact Hlabel|].
    apply (Hvalues "Area"). vm_compute. left.
Defined.

(** The run over the folder whose only image has a ROI of area 0 stopped in
    the turn of that image. *)
Lemma zero_area_run_stopped_at :
  exists h0, prepare folder_zero_area (initial_host ∅) = (Ok tt, h0) /\
    ((exists pre f post h1,
        os_listdir folder_zero_area = pre ++ f :: post /\
        process_images folder_zero_area pre h0 = (Ok tt, h1) /\
        process_image folder_zero_area f h1
        = (Raise ZeroDivisionError, snd (main folder_zero_area (initial_host ∅))) /\
        disk (snd (main folder_zero_area (initial_host ∅))) = disk h1) \/
     (exists h1,
        process_images folder_zero_area (os_listdir folder_zero_area) h0 = (Ok tt, h1) /\
        folder_summary folder_zero_area h1
        = (Raise ZeroDivisionError, snd (main folder_zero_area (initial_host ∅))) /\
        disk (snd (main folder_zero_area (initial_host ∅))) = disk h1)).
Proof.
  apply (failed_run_stopped_at folder_zero_area (initial_host ∅)).
  vm_compute. reflexivity.
Defined.

(** Two image files and a text file: two dialogs. *)
Lemma two_prompts_for_two_images :
  prompts (trace (snd (process_images folder_two_images ["a.tif"; "notes.txt"; "b.nd2"]
                         (initial_host ∅)))) = 2%nat.
Proof.
  rewrite (one_prompt_per_image folder_two_images ["a.tif"; "notes.txt"; "b.nd2"]
             (initial_host ∅)
             (snd (process_images folder_two_images ["a.tif"; "notes.txt"; "b.nd2"]
                     (initial_host ∅)))).
  - vm_compute. reflexivity.
  - vm_compute. reflexivity.
Defined.
